(** * Weight normalization wrapper ([src/layers.py])

    A shallow embedding of the [WeightNormalization] Keras wrapper and the
    properties of its build / first-call initialization / forward /
    remove life cycle.

    Conventions of the embedding.
    - Scalars are real numbers: the float arithmetic of TensorFlow is
      idealised to [R], every TensorFlow primitive being the function its
      documentation gives.
    - A tensor is its static shape and its row-major data.
    - Python objects are records; an attribute that may be missing
      ([hasattr]) is an [option].  The methods of the wrapper mutate
      [self]: they are state transformers over the wrapper record whose
      effects survive a raised exception, as they do in Python.
    - A variable is the tensor it holds: [Variable.assign] replaces the
      value, binding an attribute replaces the reference.
    - The wrapped layer is any Keras layer: its own [build] and [__call__]
      are the methods of the class [LayerAPI], the forward computation
      being a function of the attributes of the layer and of the input.
      An exception raised inside the wrapped layer is told apart from the
      exceptions the wrapper raises itself.
    - Execution is eager: [tf.cond] runs one branch and
      [tf.control_dependencies] is program order. *)

From Stdlib Require Import String Bool Arith Lia Reals Lra List.
Import ListNotations.
#[local] Open Scope string_scope.
#[local] Open Scope nat_scope.
#[local] Open Scope list_scope.

(** ** Exceptions and results *)

Inductive exn : Type :=
| ValueError (msg : string)
| AttributeError (attr : string)
| IndexError
| ZeroDivisionError
| InvalidArgumentError (msg : string)
| LayerError (msg : string).
(* [LayerError]: anything raised inside the wrapped layer's own build or
   forward computation. *)

Inductive Result (A : Type) : Type :=
| Ok (a : A)
| Raise (e : exn).
Arguments Ok {A} a.
Arguments Raise {A} e.

(** ** Tensors and the TensorFlow primitives the wrapper calls *)

Definition Shape := list nat.

Record Tensor : Type := mkTensor { shape : Shape; data : list R }.

Definition Rsum (l : list R) : R := fold_right Rplus 0%R l.

Module tf.

(* number of elements of a shape *)
Definition num_elements (s : Shape) : nat := fold_right Nat.mul 1 s.

Definition rank (t : Tensor) : nat := length (shape t).

(* every tensor TensorFlow hands out has as many elements as its shape *)
Definition well_formed (t : Tensor) : Prop :=
  length (data t) = num_elements (shape t).

(* row-major position of a multi-index *)
Fixpoint offset (s : Shape) (idx : list nat) : nat :=
  match s, idx with
  | _ :: s', i :: idx' => i * num_elements s' + offset s' idx'
  | _, _ => 0
  end.

(* all multi-indices of a shape, in row-major order *)
Fixpoint indices (s : Shape) : list (list nat) :=
  match s with
  | [] => [[]]
  | d :: s' => flat_map (fun i => map (cons i) (indices s')) (seq 0 d)
  end.

Definition get (t : Tensor) (idx : list nat) : R :=
  nth (offset (shape t) idx) (data t) 0%R.

(* shape[-1] *)
Definition last_dim (s : Shape) : Result nat :=
  match rev s with
  | [] => Raise IndexError
  | d :: _ => Ok d
  end.

Definition in_axes (axes : list nat) (p : nat) : bool :=
  existsb (Nat.eqb p) axes.

(* the components of [idx] (positions counted from [p]) on the axes that
   are not reduced *)
Fixpoint drop_axes (p : nat) (axes : list nat) (idx : list nat) : list nat :=
  match idx with
  | [] => []
  | i :: idx' =>
      if in_axes axes p then drop_axes (S p) axes idx'
      else i :: drop_axes (S p) axes idx'
  end.

Definition index_eqb (a b : list nat) : bool :=
  if list_eq_dec Nat.eq_dec a b then true else false.

(* the entries of [t] that are summed into the output entry [oi] when
   the axes [axes] are reduced *)
Definition reduced_entries (t : Tensor) (axes : list nat) (oi : list nat)
  : list R :=
  map (get t)
      (filter (fun idx => index_eqb (drop_axes 0 axes idx) oi)
              (indices (shape t))).

(* tf.reduce_sum(t, axis=axes) *)
Definition reduce_sum (t : Tensor) (axes : list nat) : Tensor :=
  let s := drop_axes 0 axes (shape t) in
  mkTensor s (map (fun oi => Rsum (reduced_entries t axes oi)) (indices s)).

(* how many entries one output entry of a reduction sums *)
Fixpoint reduced_count (p : nat) (axes : list nat) (s : Shape) : nat :=
  match s with
  | [] => 1
  | d :: s' =>
      if in_axes axes p then d * reduced_count (S p) axes s'
      else reduced_count (S p) axes s'
  end.

Definition map_data (f : R -> R) (t : Tensor) : Tensor :=
  mkTensor (shape t) (map f (data t)).

Definition square (t : Tensor) : Tensor := map_data (fun x => x * x)%R t.

(* unary minus *)
Definition neg (t : Tensor) : Tensor := map_data Ropp t.

(* tf.reduce_mean(t, axis=axes) *)
Definition reduce_mean (t : Tensor) (axes : list nat) : Tensor :=
  map_data (fun x => x / INR (reduced_count 0 axes (shape t)))%R
           (reduce_sum t axes).

(* tf.linalg.norm(t, axis=axes): the Euclidean norm along the axes *)
Definition norm (t : Tensor) (axes : list nat) : Tensor :=
  map_data sqrt (reduce_sum (square t) axes).

(* tf.nn.l2_normalize(t, axis=axes), with its default epsilon:
   t * rsqrt(maximum(reduce_sum(square(t), axes, keepdims=True), 1e-12)) *)
Definition l2_normalize_epsilon : R := (/ 1000000000000)%R.

Definition l2_normalize (t : Tensor) (axes : list nat) : Tensor :=
  mkTensor (shape t)
    (map (fun idx =>
            (get t idx
             * / sqrt (Rmax (Rsum (reduced_entries (square t) axes
                                     (drop_axes 0 axes idx)))
                            l2_normalize_epsilon))%R)
         (indices (shape t))).

(* tf.nn.moments(t, axes): the mean and the (population) variance *)
Definition moments (t : Tensor) (axes : list nat) : Tensor * Tensor :=
  let mean := reduce_mean t axes in
  let sqdiff :=
    mkTensor (shape t)
      (map (fun idx =>
              let d := (get t idx - get mean (drop_axes 0 axes idx))%R in
              (d * d)%R)
           (indices (shape t))) in
  (mean, reduce_mean sqdiff axes).

(* tf.reshape(t, [-1, d]) *)
Definition reshape_rows (t : Tensor) (d : nat) : Result Tensor :=
  if d =? 0 then Raise (InvalidArgumentError "reshape")
  else if length (data t) mod d =? 0
       then Ok (mkTensor [length (data t) / d; d] (data t))
       else Raise (InvalidArgumentError "reshape").

(* tf.reshape(t, (d,)) *)
Definition reshape_vector (t : Tensor) (d : nat) : Result Tensor :=
  if length (data t) =? d then Ok (mkTensor [d] (data t))
  else Raise (InvalidArgumentError "reshape").

(* tf.tile(t, [rep]): defined on vectors *)
Definition tile (t : Tensor) (rep : nat) : Result Tensor :=
  match shape t with
  | [n] => Ok (mkTensor [rep * n] (concat (repeat (data t) rep)))
  | _ => Raise (InvalidArgumentError "tile")
  end.

(* broadcasting of two shapes, aligned on the last axis; the argument
   lists are the reversed shapes *)
Fixpoint broadcast_rev (a b : list nat) : option (list nat) :=
  match a, b with
  | [], _ => Some b
  | _, [] => Some a
  | x :: a', y :: b' =>
      match broadcast_rev a' b' with
      | None => None
      | Some c =>
          if x =? y then Some (x :: c)
          else if x =? 1 then Some (y :: c)
          else if y =? 1 then Some (x :: c)
          else None
      end
  end.

Definition broadcast_shape (a b : Shape) : option Shape :=
  option_map (@rev nat) (broadcast_rev (rev a) (rev b)).

(* the index into an operand of shape [s] for the output index [idx]:
   the trailing components, and 0 on the axes of size 1 *)
Definition operand_index (s : Shape) (idx : list nat) : list nat :=
  map (fun '(d, i) => if d =? 1 then 0 else i)
      (combine s (skipn (length idx - length s) idx)).

(* an elementwise binary operation, with broadcasting *)
Definition elementwise (f : R -> R -> R) (a b : Tensor) : Result Tensor :=
  match broadcast_shape (shape a) (shape b) with
  | None => Raise (InvalidArgumentError "Incompatible shapes")
  | Some s =>
      Ok (mkTensor s
            (map (fun idx =>
                    f (get a (operand_index (shape a) idx))
                      (get b (operand_index (shape b) idx)))
                 (indices s)))
  end.

(* a * b *)
Definition mul : Tensor -> Tensor -> Result Tensor := elementwise Rmult.

(* a + b *)
Definition add : Tensor -> Tensor -> Result Tensor := elementwise Rplus.

(* tf.matmul(a, b) on matrices *)
Definition matmul (a b : Tensor) : Result Tensor :=
  match shape a, shape b with
  | [n; k], [k'; m] =>
      if k =? k'
      then Ok (mkTensor [n; m]
                 (map (fun idx =>
                         Rsum (map (fun p =>
                                      (get a [hd 0%nat idx; p]
                                       * get b [p; hd 0%nat (tl idx)])%R)
                                   (seq 0 k)))
                      (indices [n; m])))
      else Raise (InvalidArgumentError "Matrix size-incompatible")
  | _, _ => Raise (InvalidArgumentError "matmul: rank")
  end.

(* t[:, :m] of a matrix *)
Definition leading_columns (t : Tensor) (m : nat) : Tensor :=
  match shape t with
  | n :: _ => mkTensor [n; m] (map (get t) (indices [n; m]))
  | [] => t
  end.

Definition ones (s : Shape) : Tensor :=
  mkTensor s (repeat 1%R (num_elements s)).

Definition zeros (s : Shape) : Tensor :=
  mkTensor s (repeat 0%R (num_elements s)).

End tf.

(** ** Keras layers, as far as the wrapper looks into them *)

Definition Activation := R -> R.

(* the cell of a recurrent layer *)
Module Cell.
Record t : Type := mk {
    kernel : option Tensor;
    recurrent_kernel : option Tensor;
    bias : option Tensor
  }.

(* the cell of a layer that has not been built *)
Definition unbuilt : t := mk None None None.

Definition set_recurrent_kernel (k : Tensor) (c : t) : t :=
    mk (kernel c) (Some k) (bias c).
End Cell.

Module Layer.
  (* [kernel = None]: the object has no attribute [kernel];
     [bias = None]: no attribute [bias]; [bias = Some None]: the attribute
     is Python's [None]; [cell = Some c]: the layer is an instance of
     [tf.keras.layers.RNN] and [c] is its cell; [activation = None]: the
     attribute is Python's [None]. *)
Record t : Type := mk {
    class_name : string;
    units : nat;
    use_bias : bool;
    activation : option Activation;
    trainable : bool;
    built : bool;
    kernel : option Tensor;
    bias : option (option Tensor);
    cell : option Cell.t
  }.

Definition set_kernel (k : Tensor) (l : t) : t :=
  mk (class_name l) (units l) (use_bias l) (activation l) (trainable l)
     (built l) (Some k) (bias l) (cell l).

Definition set_bias (b : Tensor) (l : t) : t :=
  mk (class_name l) (units l) (use_bias l) (activation l) (trainable l)
     (built l) (kernel l) (Some (Some b)) (cell l).

Definition set_cell (c : Cell.t) (l : t) : t :=
  mk (class_name l) (units l) (use_bias l) (activation l) (trainable l)
     (built l) (kernel l) (bias l) (Some c).

Definition set_activation (a : option Activation) (l : t) : t :=
  mk (class_name l) (units l) (use_bias l) a (trainable l)
     (built l) (kernel l) (bias l) (cell l).

(* the configuration of a layer: what its constructor was given *)
Record Config : Type := mkConfig {
    cfg_class_name : string;
    cfg_units : nat;
    cfg_use_bias : bool;
    cfg_activation : option Activation;
    cfg_trainable : bool;
    cfg_recurrent : bool
  }.

Definition is_recurrent (l : t) : bool :=
  match cell l with Some _ => true | None => false end.

(* tf.keras.layers.serialize *)
Definition serialize (l : t) : Config :=
  mkConfig (class_name l) (units l) (use_bias l) (activation l)
           (trainable l) (is_recurrent l).

(* layer_config["config"]["trainable"] = b *)
Definition config_set_trainable (b : bool) (c : Config) : Config :=
  mkConfig (cfg_class_name c) (cfg_units c) (cfg_use_bias c)
           (cfg_activation c) b (cfg_recurrent c).

(* tf.keras.layers.deserialize: a new layer of that configuration, not
   built, without weights *)
Definition deserialize (c : Config) : t :=
  mk (cfg_class_name c) (cfg_units c) (cfg_use_bias c) (cfg_activation c)
     (cfg_trainable c) false None None
     (if cfg_recurrent c then Some Cell.unbuilt else None).

Definition of_option {A} (o : option A) : list A :=
  match o with Some a => [a] | None => [] end.

(* layer.get_weights(): the weights in the order of their creation *)
Definition get_weights (l : t) : list Tensor :=
  of_option (kernel l)
  ++ match bias l with Some (Some b) => [b] | _ => [] end
  ++ match cell l with
     | Some c => of_option (Cell.kernel c)
                 ++ of_option (Cell.recurrent_kernel c)
                 ++ of_option (Cell.bias c)
     | None => []
     end.

Definition shape_eqb (a b : Shape) : bool :=
  if list_eq_dec Nat.eq_dec a b then true else false.

(* one weight of [set_weights]: the next value replaces the weight in the
   slot when their shapes agree *)
Definition fill (slot : option Tensor) (ws : list Tensor)
  : Result (option Tensor * list Tensor) :=
  match slot with
  | None => Ok (None, ws)
  | Some old =>
      match ws with
      | [] => Raise (ValueError "set_weights: too few weights")
      | w :: ws' =>
          if shape_eqb (shape old) (shape w) then Ok (Some w, ws')
          else Raise (ValueError "set_weights: shape mismatch")
      end
  end.

(* layer.set_weights(ws) *)
Definition set_weights (l : t) (ws : list Tensor) : Result t :=
    match fill (kernel l) ws with
    | Raise e => Raise e
    | Ok (k, ws1) =>
    match fill (match bias l with Some (Some b) => Some b | _ => None end) ws1
    with
    | Raise e => Raise e
    | Ok (b, ws2) =>
    let bias' := match b with Some b' => Some (Some b') | None => bias l end in
    match cell l with
    | None =>
        match ws2 with
        | [] => Ok (mk (class_name l) (units l) (use_bias l) (activation l)
                       (trainable l) (built l) k bias' None)
        | _ => Raise (ValueError "set_weights: too many weights")
        end
    | Some c =>
        match fill (Cell.kernel c) ws2 with
        | Raise e => Raise e
        | Ok (ck, ws3) =>
        match fill (Cell.recurrent_kernel c) ws3 with
        | Raise e => Raise e
        | Ok (cr, ws4) =>
        match fill (Cell.bias c) ws4 with
        | Raise e => Raise e
        | Ok (cb, ws5) =>
            match ws5 with
            | [] => Ok (mk (class_name l) (units l) (use_bias l)
                           (activation l) (trainable l) (built l) k bias'
                           (Some (Cell.mk ck cr cb)))
            | _ => Raise (ValueError "set_weights: too many weights")
            end
        end end end
    end end end.
(* the variables [build] creates *)
Record Variables : Type := mkVariables {
  var_kernel : option Tensor;
  var_bias : option (option Tensor);
  var_cell : Cell.t
}.

Definition with_variables (vs : Variables) (l : t) : t :=
  mk (class_name l) (units l) (use_bias l) (activation l) (trainable l)
     true (var_kernel vs) (var_bias vs)
     (match cell l with Some _ => Some (var_cell vs) | None => None end).
End Layer.

(** The wrapped layer's own methods.  [inl msg] is an exception raised
    inside the layer.  Building a layer creates its variables (what they
    are depends on the class of the layer) and marks it built; its
    configuration stays as the constructor set it. *)
Class LayerAPI : Type := {
  layer_add_weights : Shape -> Layer.t -> string + Layer.Variables;
  layer_call : Layer.t -> Tensor -> string + Tensor;
  layer_compute_output_shape : Layer.t -> Shape -> Shape
}.

(* layer.build(input_shape) *)
Definition layer_build {API : LayerAPI} (input_shape : Shape) (l : Layer.t)
  : string + Layer.t :=
  match layer_add_weights input_shape l with
  | inl msg => inl msg
  | inr vs => inr (Layer.with_variables vs l)
  end.

Definition of_layer {A} (r : string + A) : Result A :=
  match r with
  | inl msg => Raise (LayerError msg)
  | inr a => Ok a
  end.

(** ** The wrapper *)

Module WeightNormalization.

(* a [Variable.assign] the wrapper executes *)
Inductive AssignOp : Type :=
  | AssignG (value : Tensor)
  | AssignBias (value : Tensor)
  | AssignInitialized (value : bool).

(* The attributes of a wrapper object; [None] is an attribute not set
   yet.  [v] is the variable the wrapped layer created as its kernel:
   the wrapper never assigns to it, and rebinding the layer's attribute
   leaves it alone.  [assign_trace] is no attribute: it records, oldest
   first, the assignments executed on the object's variables. *)
Record t : Type := mk {
    layer : Layer.t;
    data_init : bool;
    is_rnn : bool;
    input_spec : option (list (option nat));
    layer_depth : option nat;
    kernel_norm_axes : option (list nat);
    g : option Tensor;
    v : option Tensor;
    _initialized : option bool;
    _naked_clone_layer : option Layer.t;
    built : bool;
    assign_trace : list AssignOp
  }.

Definition set_layer (x : Layer.t) (w : t) : t :=
  mk x (data_init w) (is_rnn w) (input_spec w) (layer_depth w)
     (kernel_norm_axes w) (g w) (v w) (_initialized w)
     (_naked_clone_layer w) (built w) (assign_trace w).

Definition set_input_spec (x : list (option nat)) (w : t) : t :=
  mk (layer w) (data_init w) (is_rnn w) (Some x) (layer_depth w)
     (kernel_norm_axes w) (g w) (v w) (_initialized w)
     (_naked_clone_layer w) (built w) (assign_trace w).

Definition set_layer_depth (x : nat) (w : t) : t :=
  mk (layer w) (data_init w) (is_rnn w) (input_spec w) (Some x)
     (kernel_norm_axes w) (g w) (v w) (_initialized w)
     (_naked_clone_layer w) (built w) (assign_trace w).

Definition set_kernel_norm_axes (x : list nat) (w : t) : t :=
  mk (layer w) (data_init w) (is_rnn w) (input_spec w) (layer_depth w)
     (Some x) (g w) (v w) (_initialized w)
     (_naked_clone_layer w) (built w) (assign_trace w).

Definition set_g (x : Tensor) (w : t) : t :=
  mk (layer w) (data_init w) (is_rnn w) (input_spec w) (layer_depth w)
     (kernel_norm_axes w) (Some x) (v w) (_initialized w)
     (_naked_clone_layer w) (built w) (assign_trace w).

Definition set_v (x : Tensor) (w : t) : t :=
  mk (layer w) (data_init w) (is_rnn w) (input_spec w) (layer_depth w)
     (kernel_norm_axes w) (g w) (Some x) (_initialized w)
     (_naked_clone_layer w) (built w) (assign_trace w).

Definition set__initialized (x : bool) (w : t) : t :=
  mk (layer w) (data_init w) (is_rnn w) (input_spec w) (layer_depth w)
     (kernel_norm_axes w) (g w) (v w) (Some x)
     (_naked_clone_layer w) (built w) (assign_trace w).

Definition set__naked_clone_layer (x : Layer.t) (w : t) : t :=
  mk (layer w) (data_init w) (is_rnn w) (input_spec w) (layer_depth w)
     (kernel_norm_axes w) (g w) (v w) (_initialized w)
     (Some x) (built w) (assign_trace w).

Definition set_built (x : bool) (w : t) : t :=
  mk (layer w) (data_init w) (is_rnn w) (input_spec w) (layer_depth w)
     (kernel_norm_axes w) (g w) (v w) (_initialized w)
     (_naked_clone_layer w) x (assign_trace w).

Definition traced (op : AssignOp) (w : t) : t :=
  mk (layer w) (data_init w) (is_rnn w) (input_spec w) (layer_depth w)
     (kernel_norm_axes w) (g w) (v w) (_initialized w)
     (_naked_clone_layer w) (built w) (assign_trace w ++ [op]).

(** *** Methods run on [self] and may raise *)

Definition M (A : Type) : Type := t -> Result A * t.

Definition ret {A} (a : A) : M A := fun w => (Ok a, w).

Definition bind {A B} (c : M A) (k : A -> M B) : M B :=
  fun w =>
    match c w with
    | (Ok a, w') => k a w'
    | (Raise e, w') => (Raise e, w')
    end.

Definition raise {A} (e : exn) : M A := fun w => (Raise e, w).

Definition lift {A} (r : Result A) : M A := fun w => (r, w).

(* self.<name>, when the attribute may be missing *)
Definition getattr {A} (name : string) (f : t -> option A) : M A :=
  fun w =>
    match f w with
    | Some a => (Ok a, w)
    | None => (Raise (AttributeError name), w)
    end.

Definition read {A} (f : t -> A) : M A := fun w => (Ok (f w), w).

Definition modify (f : t -> t) : M unit := fun w => (Ok tt, f w).

Declare Scope wn_scope.
Delimit Scope wn_scope with wn.
Notation "x <- c ;; k" := (bind c (fun x => k))
  (at level 61, c at next level, right associativity) : wn_scope.
Notation "c ;;; k" := (bind c (fun _ => k))
  (at level 61, right associativity) : wn_scope.
#[local] Open Scope wn_scope.

Definition no_kernel_message : string :=
  "`WeightNormalization` must wrap a layer that contains a `kernel` for weights".

Definition initialized_message : string :=
  "The layer has been initialized.".

Definition assign_message : string := "assign: incompatible shapes".

(* 1e-10 *)
Definition data_init_epsilon : R := (/ 10000000000)%R.

(* __init__(self, layer, data_init=True); the warning it logs for a
   recurrent layer with data_init changes no state *)
Definition __init__ (layer : Layer.t) (data_init : bool) : t :=
  mk layer data_init (Layer.is_recurrent layer)
     None None None None None None None false [].

(* self.g.assign(value) *)
Definition assign_g (value : Tensor) : M AssignOp :=
  g0 <- getattr "g" g ;;
  if Layer.shape_eqb (shape g0) (shape value)
  then modify (fun w => traced (AssignG value) (set_g value w)) ;;;
       ret (AssignG value)
  else raise (ValueError assign_message).

(* self.layer.bias.assign(value), the bias being a variable [b0] *)
Definition assign_bias (b0 value : Tensor) : M AssignOp :=
  if Layer.shape_eqb (shape b0) (shape value)
  then modify (fun w => traced (AssignBias value)
                          (set_layer (Layer.set_bias value (layer w)) w)) ;;;
       ret (AssignBias value)
  else raise (ValueError assign_message).

(* self._initialized.assign(value) *)
Definition assign_initialized (value : bool) : M AssignOp :=
  _ <- getattr "_initialized" _initialized ;;
  modify (fun w => traced (AssignInitialized value)
                     (set__initialized value w)) ;;;
  ret (AssignInitialized value).

(* shape[0] *)
Definition dim0 (s : Shape) : Result nat :=
  match s with
  | [] => Raise IndexError
  | d :: _ => Ok d
  end.

(* the kernel attribute the wrapper replaces: the layer's [kernel], or
   its cell's [recurrent_kernel] *)
Definition put_kernel (kernel : Tensor) : M unit :=
  rnn <- read is_rnn ;;
  l <- read layer ;;
  if rnn
  then match Layer.cell l with
       | None => raise (AttributeError "cell")
       | Some c =>
           modify (set_layer
                     (Layer.set_cell (Cell.set_recurrent_kernel kernel c) l))
       end
  else modify (set_layer (Layer.set_kernel kernel l)).

Section Methods.
Context {API : LayerAPI}.

Definition build (input_shape : Shape) : M unit :=
  modify (set_input_spec (None :: map (@Some nat) (tl input_shape))) ;;;
  l <- read layer ;;
  (if Layer.built l then ret tt
   else l' <- lift (of_layer (layer_build input_shape l)) ;;
        modify (set_layer l')) ;;;
  l <- read layer ;;
  rnn <- read is_rnn ;;
  kernel <-
    (if rnn
     then match Layer.cell l with
          | None => raise (AttributeError "cell")
          | Some c =>
              match Cell.kernel c with
              | None => raise (ValueError no_kernel_message)
              | Some _ =>
                  match Cell.recurrent_kernel c with
                  | None => raise (AttributeError "recurrent_kernel")
                  | Some k => ret k
                  end
              end
          end
     else match Layer.kernel l with
          | None => raise (ValueError no_kernel_message)
          | Some k => ret k
          end) ;;
  depth <- lift (tf.last_dim (shape kernel)) ;;
  modify (set_layer_depth depth) ;;;
  modify (set_kernel_norm_axes (seq 0 (tf.rank kernel - 1))) ;;;
  modify (set_g (tf.ones [depth])) ;;;
  modify (set_v kernel) ;;;
  modify (set__initialized false) ;;;
  di <- read data_init ;;
  (if di
   then
     let layer_config := Layer.serialize l in
     let layer_config := Layer.config_set_trainable false layer_config in
     modify (set__naked_clone_layer (Layer.deserialize layer_config)) ;;;
     clone <- lift (of_layer (layer_build input_shape
                                (Layer.deserialize layer_config))) ;;
     modify (set__naked_clone_layer clone) ;;;
     clone <- lift (Layer.set_weights clone (Layer.get_weights l)) ;;
     modify (set__naked_clone_layer clone) ;;;
     if negb rnn
     then modify (set__naked_clone_layer
                    (Layer.set_activation None clone))
     else ret tt
   else ret tt) ;;;
  modify (set_built true).

Definition _init_norm : M (list AssignOp) :=
  v0 <- getattr "v" v ;;
  depth <- getattr "layer_depth" layer_depth ;;
  v_flat <- lift (tf.reshape_rows v0 depth) ;;
  let v_norm := tf.norm v_flat [0] in
  value <- lift (tf.reshape_vector v_norm depth) ;;
  g_tensor <- assign_g value ;;
  ret [g_tensor].

Definition _data_dep_init (inputs : Tensor) : M (list AssignOp) :=
  clone <- getattr "_naked_clone_layer" _naked_clone_layer ;;
  x_init <- lift (of_layer (layer_call clone inputs)) ;;
  let data_norm_axes := seq 0 (tf.rank x_init - 1) in
  let '(m_init, v_init) := tf.moments x_init data_norm_axes in
  let scale_init :=
    tf.map_data (fun x => 1 / sqrt (x + data_init_epsilon))%R v_init in
  ws <- lift (dim0 (shape scale_init)) ;;
  g0 <- getattr "g" g ;;
  wg <- lift (dim0 (shape g0)) ;;
  scale_init <-
    (if negb (ws =? wg)
     then if ws =? 0 then raise ZeroDivisionError
          else lift (tf.tile scale_init (wg / ws))
     else ret scale_init) ;;
  g0 <- getattr "g" g ;;
  value <- lift (tf.mul g0 scale_init) ;;
  g_tensor <- assign_g value ;;
  l <- read layer ;;
  match Layer.bias l with
  | Some (Some b0) =>
      value <- lift (tf.mul (tf.neg m_init) scale_init) ;;
      bias_tensor <- assign_bias b0 value ;;
      ret [g_tensor; bias_tensor]
  | _ => ret [g_tensor]
  end.

Definition _initialize_weights (inputs : Tensor) : M (list AssignOp) :=
  init <- getattr "_initialized" _initialized ;;
  if init then raise (InvalidArgumentError initialized_message)
  else
    di <- read data_init ;;
    assign_tensors <- (if di then _data_dep_init inputs else _init_norm) ;;
    a <- assign_initialized true ;;
    ret (assign_tensors ++ [a]).

(* the block under tf.name_scope("compute_weights") *)
Definition compute_weights (inputs g0 : Tensor) : M Tensor :=
  v0 <- getattr "v" v ;;
  axes <- getattr "kernel_norm_axes" kernel_norm_axes ;;
  kernel <- lift (tf.mul (tf.l2_normalize v0 axes) g0) ;;
  put_kernel kernel ;;;
  l <- read layer ;;
  lift (of_layer (layer_call l inputs)).

Definition call (inputs : Tensor) : M Tensor :=
  let _do_nothing := getattr "g" g in
  let _update_weights :=
    _initialize_weights inputs ;;; getattr "g" g in
  init <- getattr "_initialized" _initialized ;;
  g0 <- (if init then _do_nothing else _update_weights) ;;
  compute_weights inputs g0.

Definition compute_output_shape (input_shape : Shape) (w : t) : Shape :=
  layer_compute_output_shape (layer w) input_shape.

(* {**base_config, "data_init": self.data_init}; the base configuration
   of a Keras wrapper is the serialized wrapped layer *)
Definition get_config (w : t) : Layer.Config * bool :=
  (Layer.serialize (layer w), data_init w).

(* remove(self): the new variable named "kernel" or "recurrent_kernel"
   holds the tensor computed *)
Definition remove : M Layer.t :=
  v0 <- getattr "v" v ;;
  axes <- getattr "kernel_norm_axes" kernel_norm_axes ;;
  g0 <- getattr "g" g ;;
  kernel <- lift (tf.mul (tf.l2_normalize v0 axes) g0) ;;
  put_kernel kernel ;;;
  read layer.

End Methods.

End WeightNormalization.

(** ** Concrete layers

    Three classes of layers to run the wrapper on: [Dense], the layers
    without weights, and recurrent layers whose gates share one fused
    kernel of [gates * units] columns ([LSTM]: 4 gates, [GRU]: 3, others
    1).  A recurrent layer is run on a one-step sequence from the zero
    state and kept to the block of its first gate. *)

Module Layers.

Definition gates (class : string) : nat :=
  if String.eqb class "LSTM" then 4
  else if String.eqb class "GRU" then 3
  else 1.

Definition bias_variable (l : Layer.t) (n : nat) : option Tensor :=
  if Layer.use_bias l then Some (tf.zeros [n]) else None.

Definition add_weights (kernel_initializer : Shape -> Tensor)
  (input_shape : Shape) (l : Layer.t) : string + Layer.Variables :=
  match tf.last_dim input_shape with
  | Raise _ => inl "build: the last dimension of the inputs is undefined"
  | Ok input_dim =>
      match Layer.cell l with
      | Some _ =>
          let n := gates (Layer.class_name l) * Layer.units l in
          inr (Layer.mkVariables None None
                 (Cell.mk (Some (kernel_initializer [input_dim; n]))
                          (Some (kernel_initializer [Layer.units l; n]))
                          (bias_variable l n)))
      | None =>
          if String.eqb (Layer.class_name l) "Dense"
          then inr (Layer.mkVariables
                      (Some (kernel_initializer [input_dim; Layer.units l]))
                      (Some (bias_variable l (Layer.units l)))
                      Cell.unbuilt)
          else inr (Layer.mkVariables None None Cell.unbuilt)
      end
  end.

Definition activate (a : option Activation) (t : Tensor) : Tensor :=
  match a with
  | Some f => tf.map_data f t
  | None => t
  end.

Definition missing {A} (attr : string) : string + A :=
  inl ("AttributeError: " ++ attr)%string.

Definition returned {A} (r : Result A) : string + A :=
  match r with
  | Ok a => inr a
  | Raise _ => inl "InvalidArgumentError"
  end.

(* Dense.call: activation(matmul(inputs, kernel) + bias) *)
Definition dense_call (l : Layer.t) (inputs : Tensor) : string + Tensor :=
  match Layer.kernel l with
  | None => missing "kernel"
  | Some k =>
      match tf.matmul inputs k with
      | Raise _ => inl "InvalidArgumentError"
      | Ok outputs =>
          match (if Layer.use_bias l
                 then match Layer.bias l with
                      | Some (Some b) => returned (tf.add outputs b)
                      | _ => missing "bias"
                      end
                 else inr outputs) with
          | inl msg => inl msg
          | inr outputs => inr (activate (Layer.activation l) outputs)
          end
      end
  end.

Definition recurrent_call (l : Layer.t) (c : Cell.t) (inputs : Tensor)
  : string + Tensor :=
  match Cell.kernel c with
  | None => missing "kernel"
  | Some k =>
      match tf.matmul inputs k with
      | Raise _ => inl "InvalidArgumentError"
      | Ok z =>
          inr (activate (Layer.activation l)
                 (tf.leading_columns z (Layer.units l)))
      end
  end.

Definition call (l : Layer.t) (inputs : Tensor) : string + Tensor :=
  match Layer.cell l with
  | Some c => recurrent_call l c inputs
  | None =>
      if String.eqb (Layer.class_name l) "Dense" then dense_call l inputs
      else inr (activate (Layer.activation l) inputs)
  end.

Definition compute_output_shape (l : Layer.t) (input_shape : Shape) : Shape :=
  match Layer.cell l with
  | Some _ => removelast input_shape ++ [Layer.units l]
  | None =>
      if String.eqb (Layer.class_name l) "Dense"
      then removelast input_shape ++ [Layer.units l]
      else input_shape
  end.

#[export] Instance API (kernel_initializer : Shape -> Tensor) : LayerAPI := {
  layer_add_weights := add_weights kernel_initializer;
  layer_call := call;
  layer_compute_output_shape := compute_output_shape
}.

End Layers.

(** ** Notions the properties are stated with *)

Import WeightNormalization.
#[local] Open Scope wn_scope.

Section Notions.
Context {API : LayerAPI}.

(* the attribute of the wrapped layer that holds the weight the wrapper
   reparameterizes *)
Definition kernel_attribute (rnn : bool) (l : Layer.t) : option Tensor :=
  if rnn
  then match Layer.cell l with
       | Some c => Cell.recurrent_kernel c
       | None => None
       end
  else Layer.kernel l.

(* the layer [l] with that attribute bound to [k] and nothing else changed *)
Definition with_kernel_attribute (rnn : bool) (k : Tensor) (l : Layer.t)
  : Layer.t :=
  if rnn
  then match Layer.cell l with
       | Some c => Layer.set_cell (Cell.set_recurrent_kernel k c) l
       | None => l
       end
  else Layer.set_kernel k l.

(* hasattr(kernel_layer, "kernel"), the kernel layer being the cell of a
   recurrent layer and the layer itself otherwise *)
Definition kernel_layer_has_kernel (l : Layer.t) : bool :=
  match Layer.cell l with
  | Some c => match Cell.kernel c with Some _ => true | None => false end
  | None => match Layer.kernel l with Some _ => true | None => false end
  end.

(* the kernel layer of [l] has no attribute [kernel], the layer being
   recurrent or not as [rnn] says *)
Definition lacks_kernel (rnn : bool) (l : Layer.t) : Prop :=
  if rnn
  then exists c, Layer.cell l = Some c /\ Cell.kernel c = None
  else Layer.kernel l = None.

(* the wrapped layer once [build] has made sure it is built *)
Definition ensure_built (input_shape : Shape) (l : Layer.t) : Result Layer.t :=
  if Layer.built l then Ok l else of_layer (layer_build input_shape l).

(* the operations of a built wrapper *)
Inductive Op : Type :=
| OpCall (inputs : Tensor)
| OpRemove
| OpComputeOutputShape (input_shape : Shape)
| OpGetConfig.

(* the state an operation leaves, whether it returns or raises *)
Definition after (op : Op) (w : t) : t :=
  match op with
  | OpCall inputs => snd (call inputs w)
  | OpRemove => snd (remove w)
  | OpComputeOutputShape _ => w
  | OpGetConfig => w
  end.

Definition after_all (ops : list Op) (w : t) : t :=
  fold_left (fun w op => after op w) ops w.

(* the assignments of an initialization policy: the scale, then the bias
   when the policy sets it *)
Definition policy_assignments (w : t) (ops : list AssignOp) : Prop :=
  exists gv, g w = Some gv /\
    (ops = [AssignG gv]
     \/ exists bv, Layer.bias (layer w) = Some (Some bv)
                   /\ ops = [AssignG gv; AssignBias bv]).

(* for the channel [j] of [k], the sum over the indices [idx] of the other
   axes of k[idx, j]^2 *)
Definition channel_square_sum (k : Tensor) (j : nat) : R :=
  Rsum (map (fun idx => (tf.get k (idx ++ [j]) * tf.get k (idx ++ [j]))%R)
            (tf.indices (removelast (shape k)))).

(* the Euclidean norm of [k] over all axes but the last, entry by entry *)
Definition channel_norm (k : Tensor) (j : nat) : R :=
  sqrt (channel_square_sum k j).

(** The failure of the assertion of [_initialize_weights]. *)
Definition assertion_failure : exn := InvalidArgumentError initialized_message.

(* what [_initialize_weights] runs once its assertion has passed *)
Definition initialization (inputs : Tensor) : M (list AssignOp) :=
  di <- read data_init ;;
  assign_tensors <- (if di then _data_dep_init inputs else _init_norm) ;;
  a <- assign_initialized true ;;
  ret (assign_tensors ++ [a]).

(* what no operation of a built wrapper changes *)
Definition same_parameters (w w' : t) : Prop :=
  v w' = v w /\ kernel_norm_axes w' = kernel_norm_axes w
  /\ is_rnn w' = is_rnn w /\ data_init w' = data_init w
  /\ layer_depth w' = layer_depth w
  /\ _naked_clone_layer w' = _naked_clone_layer w.

(* the shape of the scale never changes *)
Definition same_scale_shape (w w' : t) : Prop :=
  option_map shape (g w') = option_map shape (g w).

(* what an operation leaves alone once the flag is set *)
Definition settled (w w' : t) : Prop :=
  _initialized w = Some true ->
  _initialized w' = Some true /\ g w' = g w
  /\ Layer.bias (layer w') = Layer.bias (layer w)
  /\ assign_trace w' = assign_trace w.

(* the statistics of the output of the clone and the correction factor
   1 / sqrt(variance + 1e-10) *)
Definition statistics_mean (x_init : Tensor) : Tensor :=
  fst (tf.moments x_init (seq 0 (tf.rank x_init - 1))).

Definition statistics_variance (x_init : Tensor) : Tensor :=
  snd (tf.moments x_init (seq 0 (tf.rank x_init - 1))).

Definition correction (x_init : Tensor) : Tensor :=
  tf.map_data (fun x => 1 / sqrt (x + data_init_epsilon))%R
              (statistics_variance x_init).

(* the factor as a scale of width [wg] receives it *)
Definition applied_correction (x_init : Tensor) (wg : nat) (scale : Tensor)
  : Prop :=
  exists ws, dim0 (shape (correction x_init)) = Ok ws
    /\ ((ws = wg /\ scale = correction x_init)
        \/ (ws <> wg /\ ws <> 0
            /\ tf.tile (correction x_init) (wg / ws) = Ok scale)).

End Notions.

(* entry [j] of a vector *)
Definition entry (t : Tensor) (j : nat) : R := nth j (data t) 0%R.

(* a built [Dense] layer without activation, of kernel [W] and zero bias *)
Definition linear_layer (W : Tensor) (u : nat) : Layer.t :=
  Layer.mk "Dense" u true None true true
           (Some W) (Some (Some (tf.zeros [u]))) None.

(** A method never raises the exception [e]. *)
Definition never_raises {A} (e : exn) (c : M A) : Prop :=
  forall w, fst (c w) <> Raise e.

(** A method relates the state it starts in to the state it leaves,
    whether it returns or raises. *)
Definition respects (R : t -> t -> Prop) {A} (c : M A) : Prop :=
  forall w, R w (snd (c w)).

(** ** Layers and batches the properties are run on *)

Module Examples.

(* the layer methods of the concrete layers, weights created as ones *)
Definition api : LayerAPI := Layers.API tf.ones.

(* the tensor a result holds *)
Definition returned_tensor (r : Result Tensor) : Tensor :=
  match r with
  | Ok t => t
  | Raise _ => mkTensor [] []
  end.

(* a kernel of one input and one unit *)
Definition kernel_2 : Tensor := mkTensor [1; 1] [2%R].

(* a built Dense layer of one unit: kernel [[2]], bias [0] *)
Definition dense_layer : Layer.t := linear_layer kernel_2 1.

(* a layer without weights, not built *)
Definition relu_layer : Layer.t :=
  Layer.mk "ReLU" 0 false (Some (Rmax 0)) true false None None None.

(* a recurrent layer of one unit and three fused gates, not built *)
Definition gru_layer : Layer.t :=
  Layer.mk "GRU" 1 true (Some tanh) true false None None (Some Cell.unbuilt).

(* a batch of two samples of one feature, and a batch of one sample *)
Definition batch : Tensor := mkTensor [2; 1] [1%R; 3%R].

Definition sample : Tensor := mkTensor [1; 1] [1%R].

(* the wrappers of these layers once built for inputs of one feature *)
Definition dense_norm_built : t :=
  snd (@build api [2; 1] (__init__ dense_layer false)).

Definition dense_data_built : t :=
  snd (@build api [2; 1] (__init__ dense_layer true)).

Definition gru_data_built : t :=
  snd (@build api [2; 1] (__init__ gru_layer true)).

(* a first forward call of the norm-initialized wrapper, and a second *)
Definition dense_norm_output : Tensor :=
  returned_tensor (fst (@call api sample dense_norm_built)).

Definition dense_norm_called : t := snd (@call api sample dense_norm_built).

Definition dense_norm_output_2 : Tensor :=
  returned_tensor (fst (@call api sample dense_norm_called)).

Definition dense_norm_called_2 : t := snd (@call api sample dense_norm_called).

(* the norm-initialized wrapper removed before any forward call, and the
   output of the layer it returns *)
Definition dense_removed_layer : Layer.t :=
  match fst (remove dense_norm_built) with
  | Ok l => l
  | Raise _ => dense_layer
  end.

Definition dense_removed : t := snd (remove dense_norm_built).

Definition dense_removed_output : Tensor :=
  returned_tensor (of_layer (@layer_call api dense_removed_layer sample)).

(* a first forward call of the data-initialized wrapper *)
Definition dense_data_output : Tensor :=
  returned_tensor (fst (@call api batch dense_data_built)).

Definition dense_data_called : t := snd (@call api batch dense_data_built).

(* the output of the Dense layer on the batch, before its activation *)
Definition dense_preactivation : Tensor :=
  returned_tensor (tf.matmul batch kernel_2).

(* the clone of the recurrent layer and its output on the batch *)
Definition gru_clone : Layer.t :=
  match _naked_clone_layer gru_data_built with
  | Some clone => clone
  | None => gru_layer
  end.

Definition gru_clone_output : Tensor :=
  match @layer_call api gru_clone batch with
  | inr t => t
  | inl _ => batch
  end.

End Examples.

(** ** Further notions *)

(* the configuration of the wrapper: what [get_config] returns *)
Definition same_configuration (w w' : t) : Prop :=
  Layer.serialize (layer w') = Layer.serialize (layer w)
  /\ data_init w' = data_init w.

(* the values of channel [j] of [x]: x[p, j] for the indices [p] of the
   other axes *)
Definition channel_values (x : Tensor) (j : nat) : list R :=
  map (fun p => tf.get x (p ++ [j])) (tf.indices (removelast (shape x))).

Definition mean_of (l : list R) : R := (Rsum l / INR (length l))%R.

Definition channel_mean (x : Tensor) (j : nat) : R :=
  mean_of (channel_values x j).

(* the population variance of channel [j] *)
Definition channel_variance (x : Tensor) (j : nat) : R :=
  mean_of (map (fun y => (y - channel_mean x j) * (y - channel_mean x j))%R
               (channel_values x j)).

(* the wrapper with the kernel attribute of its layer bound to [k] *)
Definition rebind (k : Tensor) (w : t) : t :=
  set_layer (with_kernel_attribute (is_rnn w) k (layer w)) w.

(* two wrappers that differ at most in the tensor the kernel attribute of
   the wrapped layer is bound to *)
Definition same_but_kernel (a b : t) : Prop :=
  rebind (mkTensor [] []) a = rebind (mkTensor [] []) b.

(* a method that does not look at the kernel attribute *)
Definition kernel_blind {A} (c : M A) : Prop :=
  forall a b, same_but_kernel a b ->
    fst (c a) = fst (c b) /\ same_but_kernel (snd (c a)) (snd (c b)).

(* a method that forgets what the kernel attribute was bound to *)
Definition kernel_forgetting {A} (c : M A) : Prop :=
  forall a b, same_but_kernel a b ->
    fst (c a) = fst (c b)
    /\ forall r, fst (c a) = Ok r -> snd (c a) = snd (c b).

(** ** A layer whose kernel has its input channels last

    The transposed convolutions of Keras keep the input channels on the
    last axis of their kernel: the kernel of a layer of window 1 has the
    shape [1; filters; input channels], and
    outputs[p, f] = sum over c of inputs[p, c] * kernel[0, f, c] + bias[f]. *)

Module Transposed.

Definition add_weights (input_shape : Shape) (l : Layer.t)
  : string + Layer.Variables :=
  match tf.last_dim input_shape with
  | Raise _ => inl "build: the last dimension of the inputs is undefined"
  | Ok input_dim =>
      inr (Layer.mkVariables
             (Some (tf.ones [1; Layer.units l; input_dim]))
             (Some (Layers.bias_variable l (Layer.units l)))
             Cell.unbuilt)
  end.

Definition call (l : Layer.t) (inputs : Tensor) : string + Tensor :=
  match Layer.kernel l with
  | None => Layers.missing "kernel"
  | Some k =>
      match tf.last_dim (shape inputs) with
      | Raise _ => inl "InvalidArgumentError"
      | Ok input_dim =>
          let s := removelast (shape inputs) ++ [Layer.units l] in
          let b := match Layer.bias l with
                   | Some (Some b) => b
                   | _ => tf.zeros [Layer.units l]
                   end in
          inr (Layers.activate (Layer.activation l)
                 (mkTensor s
                    (map (fun idx =>
                            let p := removelast idx in
                            let f := last idx 0 in
                            (Rsum (map (fun c =>
                                          tf.get inputs (p ++ [c])
                                          * tf.get k [0%nat; f; c])
                                       (seq 0 input_dim))
                             + entry b f)%R)
                         (tf.indices s))))
      end
  end.

Definition compute_output_shape (l : Layer.t) (input_shape : Shape) : Shape :=
  removelast input_shape ++ [Layer.units l].

Definition API : LayerAPI := {|
  layer_add_weights := add_weights;
  layer_call := call;
  layer_compute_output_shape := compute_output_shape
|}.

End Transposed.

(** ** More layers and batches *)

Module MoreExamples.
Import Examples.

(* a Dense layer whose kernel [[1]] has a column of norm 1 *)
Definition kernel_1 : Tensor := mkTensor [1; 1] [1%R].

Definition unit_layer : Layer.t := linear_layer kernel_1 1.

Definition unit_data_built : t :=
  snd (@build api [2; 1] (__init__ unit_layer true)).

Definition unit_preactivation : Tensor :=
  returned_tensor (tf.matmul batch kernel_1).

Definition unit_data_output : Tensor :=
  returned_tensor (fst (@call api batch unit_data_built)).

Definition unit_data_called : t := snd (@call api batch unit_data_built).

(* a transposed layer of two filters, not built, wrapped for inputs of
   three and of four channels *)
Definition transposed_layer : Layer.t :=
  Layer.mk "Conv1DTranspose" 2 true None true false None None None.

Definition frame_3 : Tensor := mkTensor [1; 1; 3] [1%R; 2%R; 3%R].

Definition frame_4 : Tensor := mkTensor [1; 1; 4] [1%R; 2%R; 3%R; 4%R].

Definition transposed_3_built : t :=
  snd (@build Transposed.API [1; 1; 3] (__init__ transposed_layer true)).

Definition transposed_4_built : t :=
  snd (@build Transposed.API [1; 1; 4] (__init__ transposed_layer true)).

(* the clone of a wrapper and its output *)
Definition clone_of (w : t) : Layer.t :=
  match _naked_clone_layer w with
  | Some clone => clone
  | None => layer w
  end.

Definition clone_output (w : t) (x : Tensor) : Tensor :=
  match Transposed.call (clone_of w) x with
  | inr t => t
  | inl _ => x
  end.

End MoreExamples.

(** * Properties *)

(** ** Reasoning about methods *)

Lemma bind_inv {A B} (c : M A) (k : A -> M B) w r w' :
  bind c k w = (r, w') ->
  (exists a w1, c w = (Ok a, w1) /\ k a w1 = (r, w'))
  \/ (exists e, c w = (Raise e, w') /\ r = Raise e).
Proof.
  unfold bind. destruct (c w) as [[a|e] w1]; intros H.
  - left; eauto.
  - right; exists e; inversion H; auto.
Qed.

Lemma bind_Ok_inv {A B} (c : M A) (k : A -> M B) w b w' :
  bind c k w = (Ok b, w') ->
  exists a w1, c w = (Ok a, w1) /\ k a w1 = (Ok b, w').
Proof.
  intros H. apply bind_inv in H as [H | (e & _ & H)]; [exact H | discriminate].
Qed.

Lemma getattr_Ok_inv {A} name (f : t -> option A) w a w' :
  getattr name f w = (Ok a, w') -> f w = Some a /\ w' = w.
Proof.
  unfold getattr. destruct (f w); intros H; inversion H; auto.
Qed.

Lemma never_raises_ret {A} e (a : A) : never_raises e (ret a).
Proof. intros w; cbn; discriminate. Qed.

Lemma never_raises_read {A} e (f : t -> A) : never_raises e (read f).
Proof. intros w; cbn; discriminate. Qed.

Lemma never_raises_modify e f : never_raises e (modify f).
Proof. intros w; cbn; discriminate. Qed.

Lemma never_raises_raise {A} e e' : e' <> e -> never_raises e (@raise A e').
Proof. intros H w; cbn; congruence. Qed.

Lemma never_raises_lift {A} e (r : Result A) :
  r <> Raise e -> never_raises e (lift r).
Proof. intros H w; exact H. Qed.

Lemma never_raises_getattr {A} e name (f : t -> option A) :
  AttributeError name <> e -> never_raises e (getattr name f).
Proof. intros H w; unfold getattr; destruct (f w); cbn; congruence. Qed.

Lemma never_raises_bind {A B} e (c : M A) (k : A -> M B) :
  never_raises e c -> (forall a, never_raises e (k a)) ->
  never_raises e (bind c k).
Proof.
  intros Hc Hk w. unfold bind. specialize (Hc w).
  destruct (c w) as [[a|e'] w']; cbn in *; [apply Hk | congruence].
Qed.

Ltac never_raises_step :=
  match goal with
  | |- never_raises _ (bind _ _) => apply never_raises_bind; [|intro]
  | |- never_raises _ (ret _) => apply never_raises_ret
  | |- never_raises _ (read _) => apply never_raises_read
  | |- never_raises _ (modify _) => apply never_raises_modify
  | |- never_raises _ (raise _) => apply never_raises_raise; discriminate
  | |- never_raises _ (getattr _ _) =>
      apply never_raises_getattr; discriminate
  | |- never_raises _ (if ?b then _ else _) => destruct b
  | |- never_raises _ (match ?x with _ => _ end) => destruct x
  end.

(* case analysis on the innermost test of the goal *)
Ltac break_match :=
  match goal with
  | |- context [match ?x with _ => _ end] =>
      lazymatch x with
      | context [match _ with _ => _ end] => fail
      | _ => destruct x eqn:?
      end
  end.

(* a result of a primitive that is built from tests only *)
Ltac result_cases :=
  repeat match goal with
         | |- context [if ?b then _ else _] => destruct b
         | |- context [match ?x with _ => _ end] => destruct x
         end;
  try discriminate.

Section Respects.
Variable R : t -> t -> Prop.
Hypothesis R_refl : forall w, R w w.
Hypothesis R_trans : forall a b c, R a b -> R b c -> R a c.

Lemma respects_ret {A} (a : A) : respects R (ret a).
Proof. intros w; apply R_refl. Qed.

Lemma respects_read {A} (f : t -> A) : respects R (read f).
Proof. intros w; apply R_refl. Qed.

Lemma respects_raise {A} e : respects R (@raise A e).
Proof. intros w; apply R_refl. Qed.

Lemma respects_lift {A} (r : Result A) : respects R (lift r).
Proof. intros w; apply R_refl. Qed.

Lemma respects_getattr {A} name (f : t -> option A) :
  respects R (getattr name f).
Proof. intros w; unfold getattr; destruct (f w); apply R_refl. Qed.

Lemma respects_modify f : (forall w, R w (f w)) -> respects R (modify f).
Proof. intros H w; apply H. Qed.

Lemma respects_bind {A B} (c : M A) (k : A -> M B) :
  respects R c -> (forall a, respects R (k a)) -> respects R (bind c k).
Proof.
  intros Hc Hk w. unfold bind. specialize (Hc w).
  destruct (c w) as [[a|e] w1]; cbn in *; [|exact Hc].
  eapply R_trans; [exact Hc | apply Hk].
Qed.
End Respects.

Ltac respects_step :=
  match goal with
  | |- respects _ (bind _ _) => apply respects_bind; [assumption| |intro]
  | |- respects _ (ret _) => apply respects_ret; assumption
  | |- respects _ (read _) => apply respects_read; assumption
  | |- respects _ (raise _) => apply respects_raise; assumption
  | |- respects _ (lift _) => apply respects_lift; assumption
  | |- respects _ (getattr _ _) => apply respects_getattr; assumption
  | |- respects _ (if ?b then _ else _) => destruct b
  | |- respects _ (match ?x with _ => _ end) => destruct x
  end.

(** ** Lists *)

Lemma flat_map_singleton {A B} (f : A -> B) l :
  flat_map (fun x => [f x]) l = map f l.
Proof. induction l; cbn; congruence. Qed.

Lemma length_flat_map_const {A B} (f : A -> list B) l c :
  (forall x, length (f x) = c) -> length (flat_map f l) = length l * c.
Proof.
  intros H. induction l as [|x l IH]; cbn; [reflexivity|].
  rewrite length_app, H, IH. reflexivity.
Qed.

Lemma flat_map_seq_blocks n a d :
  flat_map (fun i => seq (i * n) n) (seq a d) = seq (a * n) (d * n).
Proof.
  revert a. induction d as [|d IH]; intros a; cbn; [reflexivity|].
  rewrite IH, seq_app. f_equal. f_equal. lia.
Qed.

Lemma map_nth_seq_all {A} (l : list A) d :
  map (fun p => nth p l d) (seq 0 (length l)) = l.
Proof.
  induction l as [|x l IH]; cbn; [reflexivity|].
  f_equal. rewrite <- seq_shift, map_map. exact IH.
Qed.

Lemma filter_flat_map {A B} (p : B -> bool) (f : A -> list B) l :
  filter p (flat_map f l) = flat_map (fun x => filter p (f x)) l.
Proof.
  induction l as [|x l IH]; cbn; [reflexivity|].
  rewrite filter_app, IH. reflexivity.
Qed.

Lemma filter_seq_eqb j a n :
  filter (fun x => x =? j) (seq a n)
  = if (a <=? j) && (j <? a + n) then [j] else [].
Proof.
  revert a. induction n as [|n IH]; intros a; cbn [seq filter].
  - destruct (Nat.leb_spec a j), (Nat.ltb_spec j (a + 0)); cbn;
      try reflexivity; lia.
  - rewrite IH.
    destruct (Nat.eqb_spec a j), (Nat.leb_spec (S a) j),
      (Nat.ltb_spec j (S a + n)), (Nat.leb_spec a j),
      (Nat.ltb_spec j (a + S n)); cbn; try subst a; try reflexivity; lia.
Qed.

Lemma nth_concat_repeat {A} (l : list A) d k r j :
  r < k -> j < length l ->
  nth (r * length l + j) (concat (repeat l k)) d = nth j l d.
Proof.
  revert r. induction k as [|k IH]; intros r Hr Hj; [lia|].
  cbn. destruct r as [|r].
  - cbn. apply app_nth1. exact Hj.
  - replace (S r * length l + j) with (length l + (r * length l + j)) by lia.
    rewrite app_nth2_plus. apply IH; [lia | exact Hj].
Qed.

Lemma nth_map_seq {A} (f : nat -> A) n p d :
  p < n -> nth p (map f (seq 0 n)) d = f p.
Proof.
  intros H. rewrite (nth_indep _ d (f 0)) by (rewrite length_map, length_seq; exact H).
  rewrite (map_nth f (seq 0 n) 0 p), seq_nth by exact H. reflexivity.
Qed.

(** ** Shapes and multi-indices *)

Lemma num_elements_app s d :
  tf.num_elements (s ++ [d]) = tf.num_elements s * d.
Proof.
  unfold tf.num_elements.
  induction s as [|x s IH]; cbn; [lia|]. rewrite IH. lia.
Qed.

Lemma indices_vector d : tf.indices [d] = map (fun j => [j]) (seq 0 d).
Proof. cbn. apply flat_map_singleton. Qed.

Lemma length_indices s : length (tf.indices s) = tf.num_elements s.
Proof.
  induction s as [|d s IH]; cbn; [reflexivity|].
  rewrite length_flat_map_const with (c := tf.num_elements s).
  - rewrite length_seq. reflexivity.
  - intros x. rewrite length_map. exact IH.
Qed.

Lemma map_shift_seq b n a :
  map (fun p => b + p) (seq a n) = seq (b + a) n.
Proof.
  revert a. induction n as [|n IH]; intros a; cbn; [reflexivity|].
  f_equal. rewrite IH. f_equal. lia.
Qed.

Lemma map_offset_indices s :
  map (tf.offset s) (tf.indices s) = seq 0 (tf.num_elements s).
Proof.
  induction s as [|d s IH]; [reflexivity|].
  change (tf.num_elements (d :: s)) with (d * tf.num_elements s).
  change (seq 0 (d * tf.num_elements s))
    with (seq (0 * tf.num_elements s) (d * tf.num_elements s)).
  rewrite <- (flat_map_seq_blocks (tf.num_elements s) 0 d).
  cbn [tf.indices].
  rewrite !flat_map_concat_map, concat_map, map_map. f_equal.
  apply map_ext. intros i. rewrite map_map. cbn [tf.offset].
  rewrite <- (map_map (tf.offset s) (fun p => i * tf.num_elements s + p)), IH.
  rewrite map_shift_seq. f_equal. lia.
Qed.

Lemma In_indices_length s idx :
  In idx (tf.indices s) -> length idx = length s.
Proof.
  revert idx. induction s as [|d s IH]; intros idx H; cbn in H.
  - destruct H as [<-|[]]. reflexivity.
  - apply in_flat_map in H as (i & _ & H).
    apply in_map_iff in H as (idx' & <- & H). cbn. f_equal. apply IH, H.
Qed.

Lemma In_indices_bound s idx :
  In idx (tf.indices s) -> Forall2 lt idx s.
Proof.
  revert idx. induction s as [|d s IH]; intros idx H; cbn in H.
  - destruct H as [<-|[]]. constructor.
  - apply in_flat_map in H as (i & Hi & H).
    apply in_map_iff in H as (idx' & <- & H).
    apply in_seq in Hi. constructor; [lia | apply IH, H].
Qed.

Lemma get_indices t :
  tf.well_formed t -> map (tf.get t) (tf.indices (shape t)) = data t.
Proof.
  intros H. unfold tf.get.
  rewrite <- (map_map (tf.offset (shape t)) (fun p => nth p (data t) 0%R)).
  rewrite map_offset_indices, <- H. apply map_nth_seq_all.
Qed.

Lemma offset_app pre d idx j :
  length idx = length pre ->
  tf.offset (pre ++ [d]) (idx ++ [j]) = tf.offset pre idx * d + j.
Proof.
  revert idx. induction pre as [|x pre IH]; intros idx H.
  - destruct idx; [|discriminate]. cbn. lia.
  - destruct idx as [|i idx]; [discriminate|]. cbn.
    rewrite IH by (cbn in H; lia). rewrite num_elements_app. lia.
Qed.

(** ** The norm over all axes but the last *)

Lemma filter_map_comm {A B} (p : B -> bool) (f : A -> B) l :
  filter p (map f l) = map f (filter (fun x => p (f x)) l).
Proof.
  induction l as [|x l IH]; cbn; [reflexivity|].
  rewrite IH. destruct (p (f x)); reflexivity.
Qed.

Lemma index_eqb_singleton a b : tf.index_eqb [a] [b] = (a =? b).
Proof.
  unfold tf.index_eqb.
  destruct (list_eq_dec Nat.eq_dec [a] [b]) as [E|E];
    destruct (Nat.eqb_spec a b); try reflexivity; congruence.
Qed.

Lemma reduced_entries_rows t rows depth j :
  shape t = [rows; depth] -> j < depth ->
  tf.reduced_entries t [0] [j]
  = map (fun i => nth (i * depth + j) (data t) 0%R) (seq 0 rows).
Proof.
  intros Hs Hj. unfold tf.reduced_entries. rewrite Hs.
  cbn [tf.indices]. fold (tf.indices [depth]). rewrite indices_vector.
  rewrite filter_flat_map.
  rewrite (flat_map_ext _ (fun i => [[i; j]])).
  - rewrite flat_map_singleton, map_map. apply map_ext. intros i.
    unfold tf.get. rewrite Hs. cbn. f_equal. lia.
  - intros i. rewrite map_map, filter_map_comm.
    rewrite (filter_ext _ (fun x => x =? j)).
    + rewrite filter_seq_eqb.
      destruct (Nat.leb_spec 0 j); [|lia].
      destruct (Nat.ltb_spec j (0 + depth)); [reflexivity | lia].
    + intros j'. cbn. apply index_eqb_singleton.
Qed.

Lemma nth_square l p :
  nth p (map (fun x => x * x)%R l) 0%R
  = (nth p l 0%R * nth p l 0%R)%R.
Proof.
  rewrite <- (map_nth (fun x => x * x)%R l 0%R p).
  f_equal. ring.
Qed.

Lemma norm_rows t rows depth :
  shape t = [rows; depth] ->
  tf.norm t [0]
  = mkTensor [depth]
      (map (fun j =>
              sqrt (Rsum (map (fun i => (nth (i * depth + j) (data t) 0
                                         * nth (i * depth + j) (data t) 0)%R)
                              (seq 0 rows))))
           (seq 0 depth)).
Proof.
  intros Hs. unfold tf.norm, tf.map_data, tf.reduce_sum.
  assert (Hq : shape (tf.square t) = [rows; depth]) by exact Hs.
  rewrite Hq. cbn [tf.drop_axes tf.in_axes existsb Nat.eqb orb].
  rewrite indices_vector. cbn [shape data]. f_equal. rewrite !map_map.
  apply map_ext_in. intros j Hj. apply in_seq in Hj. f_equal. f_equal.
  rewrite (reduced_entries_rows (tf.square t) rows depth j Hq) by lia.
  apply map_ext. intros i. cbn. apply nth_square.
Qed.

Lemma last_dim_inv s d :
  tf.last_dim s = Ok d -> s = removelast s ++ [d].
Proof.
  unfold tf.last_dim. destruct (rev s) as [|x r] eqn:E; [discriminate|].
  intros H; inversion H; subst x.
  assert (Hs : s = rev r ++ [d])
    by (rewrite <- (rev_involutive s), E; reflexivity).
  rewrite Hs at 1. rewrite Hs, removelast_last. reflexivity.
Qed.

Lemma channel_norm_rows k pre depth j :
  shape k = pre ++ [depth] ->
  channel_norm k j
  = sqrt (Rsum (map (fun i => (nth (i * depth + j) (data k) 0
                               * nth (i * depth + j) (data k) 0)%R)
                    (seq 0 (tf.num_elements pre)))).
Proof.
  intros Hs. unfold channel_norm, channel_square_sum.
  rewrite Hs, removelast_last.
  f_equal. f_equal.
  rewrite <- (map_offset_indices pre), map_map.
  apply map_ext_in. intros idx Hi. apply In_indices_length in Hi.
  unfold tf.get. rewrite Hs, (offset_app pre depth idx j Hi). reflexivity.
Qed.

(* the kernel flattened to rows of [depth] entries, and the norm of each
   column *)
Lemma norm_of_flattened k depth v_flat value :
  tf.well_formed k -> tf.last_dim (shape k) = Ok depth ->
  tf.reshape_rows k depth = Ok v_flat ->
  tf.reshape_vector (tf.norm v_flat [0]) depth = Ok value ->
  value = mkTensor [depth] (map (channel_norm k) (seq 0 depth)).
Proof.
  intros Hwf Hd Hr Hv.
  apply last_dim_inv in Hd. set (pre := removelast (shape k)) in *.
  unfold tf.reshape_rows in Hr.
  destruct (Nat.eqb_spec depth 0) as [|Hn]; [discriminate|].
  destruct (length (data k) mod depth =? 0); [|discriminate].
  inversion Hr; subst v_flat; clear Hr.
  assert (Hrows : length (data k) / depth = tf.num_elements pre).
  { rewrite Hwf, Hd, num_elements_app. apply Nat.div_mul. exact Hn. }
  rewrite Hrows in Hv.
  rewrite (norm_rows (mkTensor [tf.num_elements pre; depth] (data k))
             (tf.num_elements pre) depth eq_refl) in Hv.
  unfold tf.reshape_vector in Hv. cbn [data] in Hv.
  rewrite length_map, length_seq, Nat.eqb_refl in Hv.
  inversion Hv; subst value; clear Hv. f_equal.
  apply map_ext. intros j. symmetry.
  apply (channel_norm_rows k pre depth j Hd).
Qed.

(** ** Elementwise operations *)

Lemma operand_index_self s idx :
  Forall2 lt idx s -> tf.operand_index s idx = idx.
Proof.
  intros H. unfold tf.operand_index.
  rewrite (Forall2_length H), Nat.sub_diag. cbn [skipn].
  induction H as [|i d idx s Hlt H IH]; cbn; [reflexivity|].
  rewrite IH. destruct (Nat.eqb_spec d 1); [|reflexivity].
  f_equal. lia.
Qed.

Lemma broadcast_shape_same s : tf.broadcast_shape s s = Some s.
Proof.
  unfold tf.broadcast_shape.
  assert (H : forall r, tf.broadcast_rev r r = Some r).
  { induction r as [|x r IH]; cbn; [reflexivity|].
    rewrite IH, Nat.eqb_refl. reflexivity. }
  rewrite H. cbn. rewrite rev_involutive. reflexivity.
Qed.

(* two tensors of one shape *)
Lemma elementwise_same_shape f a b :
  shape a = shape b ->
  tf.elementwise f a b
  = Ok (mkTensor (shape a)
          (map (fun idx => f (tf.get a idx) (tf.get b idx))
               (tf.indices (shape a)))).
Proof.
  intros H. unfold tf.elementwise. rewrite <- H, broadcast_shape_same.
  f_equal. f_equal. apply map_ext_in. intros idx Hi.
  rewrite (operand_index_self _ _ (In_indices_bound _ _ Hi)). reflexivity.
Qed.

(* two vectors of one width *)
Lemma elementwise_vectors f a b n :
  shape a = [n] -> shape b = [n] ->
  tf.elementwise f a b
  = Ok (mkTensor [n]
          (map (fun i => f (nth i (data a) 0%R) (nth i (data b) 0%R))
               (seq 0 n))).
Proof.
  intros Ha Hb. rewrite elementwise_same_shape by congruence.
  rewrite Ha, indices_vector, map_map. f_equal. f_equal.
  apply map_ext. intros i. unfold tf.get. rewrite Ha, Hb. cbn.
  replace (i * 1 + 0) with i by lia. reflexivity.
Qed.

Lemma tile_vector t n rep :
  shape t = [n] ->
  tf.tile t rep = Ok (mkTensor [rep * n] (concat (repeat (data t) rep))).
Proof. intros H. unfold tf.tile. rewrite H. reflexivity. Qed.

Lemma get_of_indices s (h : list nat -> R) idx :
  In idx (tf.indices s) ->
  tf.get (mkTensor s (map h (tf.indices s))) idx = h idx.
Proof.
  intros Hi. unfold tf.get. cbn [shape data].
  destruct (In_nth _ _ [] Hi) as (p & Hp & Hn).
  assert (Ho : tf.offset s idx = p).
  { rewrite <- Hn.
    rewrite <- (map_nth (tf.offset s) (tf.indices s) [] p).
    rewrite map_offset_indices.
    rewrite (nth_indep _ (tf.offset s []) 0)
      by (rewrite length_seq, <- length_indices; exact Hp).
    rewrite seq_nth by (rewrite <- length_indices; exact Hp). reflexivity. }
  rewrite Ho.
  rewrite (nth_indep _ 0%R (h [])) by (rewrite length_map; exact Hp).
  rewrite (map_nth h (tf.indices s) [] p), Hn. reflexivity.
Qed.

(** ** Multiplying along the last axis *)

Lemma broadcast_shape_last s d :
  tf.last_dim s = Ok d -> tf.broadcast_shape s [d] = Some s.
Proof.
  unfold tf.last_dim, tf.broadcast_shape. intros H.
  destruct (rev s) as [|n r] eqn:E; [discriminate|].
  inversion H; subst n. cbn.
  assert (Hr : tf.broadcast_rev r [] = Some r) by (destruct r; reflexivity).
  rewrite Hr, Nat.eqb_refl. cbn.
  change (rev r ++ [d]) with (rev (d :: r)).
  rewrite <- E, rev_involutive. reflexivity.
Qed.

Lemma mul_last_Ok (a b : Tensor) d :
  tf.last_dim (shape a) = Ok d -> shape b = [d] ->
  exists c, tf.mul a b = Ok c /\ shape c = shape a.
Proof.
  intros Ha Hb. unfold tf.mul, tf.elementwise.
  rewrite Hb, (broadcast_shape_last _ _ Ha). eexists. split; reflexivity.
Qed.

Lemma shape_eqb_refl s : Layer.shape_eqb s s = true.
Proof.
  unfold Layer.shape_eqb. destruct (list_eq_dec Nat.eq_dec s s); congruence.
Qed.

Lemma last_dim_app pre d : tf.last_dim (pre ++ [d]) = Ok d.
Proof. unfold tf.last_dim. rewrite rev_app_distr. reflexivity. Qed.

Lemma In_indices_app pre d idx j :
  In idx (tf.indices pre) -> j < d ->
  In (idx ++ [j]) (tf.indices (pre ++ [d])).
Proof.
  revert idx. induction pre as [|x pre IH]; intros idx Hi Hj.
  - destruct Hi as [<-|[]]. cbn. apply in_flat_map. exists j.
    split; [apply in_seq; lia | left; reflexivity].
  - cbn in Hi. apply in_flat_map in Hi as (i & Hi & Hm).
    apply in_map_iff in Hm as (idx' & <- & Hm).
    cbn. apply in_flat_map. exists i. split; [exact Hi|].
    apply in_map. apply IH; assumption.
Qed.

Lemma operand_index_last d idx j :
  j < d -> tf.operand_index [d] (idx ++ [j]) = [j].
Proof.
  intros Hj. unfold tf.operand_index.
  rewrite length_app. cbn [length].
  replace (length idx + 1 - 1) with (length idx + 0) by lia.
  rewrite skipn_app, Nat.add_0_r, skipn_all.
  replace (length idx - length idx) with 0 by lia. cbn.
  destruct (Nat.eqb_spec d 1); [f_equal; lia | reflexivity].
Qed.

Lemma mul_last_entries a b pre d c :
  shape a = pre ++ [d] -> shape b = [d] -> tf.mul a b = Ok c ->
  shape c = shape a
  /\ forall idx j,
      In idx (tf.indices pre) -> j < d ->
      tf.get c (idx ++ [j])
      = (tf.get a (idx ++ [j]) * entry b j)%R.
Proof.
  intros Ha Hb. unfold tf.mul, tf.elementwise.
  rewrite Hb, Ha, (broadcast_shape_last _ _ (last_dim_app pre d)).
  intros H; inversion H; subst c; clear H. split; [reflexivity|].
  intros idx j Hi Hj.
  pose proof (In_indices_app pre d idx j Hi Hj) as Hin.
  rewrite (get_of_indices (pre ++ [d]) _ (idx ++ [j]) Hin).
  rewrite (operand_index_self _ _ (In_indices_bound _ _ Hin)).
  rewrite (operand_index_last d idx j Hj).
  f_equal. unfold tf.get, entry. rewrite Hb. cbn. f_equal. lia.
Qed.

(** ** Reducing all axes but the last *)

Lemma in_axes_seq n q : tf.in_axes (seq 0 n) q = (q <? n).
Proof.
  unfold tf.in_axes.
  destruct (Nat.ltb_spec q n) as [H|H].
  - apply existsb_exists. exists q. split; [apply in_seq; lia|].
    apply Nat.eqb_refl.
  - destruct (existsb (Nat.eqb q) (seq 0 n)) eqn:E; [|reflexivity].
    apply existsb_exists in E as (x & Hx & Hq).
    apply in_seq in Hx. apply Nat.eqb_eq in Hq. lia.
Qed.

Lemma drop_axes_leading q pre x :
  tf.drop_axes q (seq 0 (q + length pre)) (pre ++ [x]) = [x].
Proof.
  revert q. induction pre as [|p pre IH]; intros q; cbn [app tf.drop_axes].
  - rewrite in_axes_seq. cbn [length].
    destruct (Nat.ltb_spec q (q + 0)); [lia | reflexivity].
  - rewrite in_axes_seq. cbn [length].
    destruct (Nat.ltb_spec q (q + S (length pre))); [|lia].
    replace (q + S (length pre)) with (S q + length pre) by lia.
    apply IH.
Qed.

Lemma drop_axes_all_but_last pre x :
  tf.drop_axes 0 (seq 0 (length pre)) (pre ++ [x]) = [x].
Proof. exact (drop_axes_leading 0 pre x). Qed.

Lemma flat_map_nested {A B C} (f : A -> list B) (g : B -> list C) l :
  flat_map g (flat_map f l) = flat_map (fun a => flat_map g (f a)) l.
Proof.
  induction l as [|a l IH]; cbn; [reflexivity|].
  rewrite flat_map_app, IH. reflexivity.
Qed.

Lemma flat_map_of_map {A B C} (h : A -> B) (g : B -> list C) l :
  flat_map g (map h l) = flat_map (fun a => g (h a)) l.
Proof. induction l as [|a l IH]; cbn; congruence. Qed.

Lemma map_of_flat_map {A B C} (f : A -> list B) (h : B -> C) l :
  map h (flat_map f l) = flat_map (fun a => map h (f a)) l.
Proof.
  induction l as [|a l IH]; cbn; [reflexivity|].
  rewrite map_app, IH. reflexivity.
Qed.

Lemma indices_app pre d :
  tf.indices (pre ++ [d])
  = flat_map (fun p => map (fun j => p ++ [j]) (seq 0 d)) (tf.indices pre).
Proof.
  induction pre as [|x pre IH].
  - cbn. rewrite app_nil_r. apply flat_map_singleton.
  - cbn [app tf.indices]. rewrite IH, flat_map_nested.
    apply flat_map_ext. intros i.
    rewrite map_of_flat_map, flat_map_of_map.
    apply flat_map_ext. intros p. rewrite map_map. reflexivity.
Qed.

Lemma flat_map_ext_In {A B} (f g : A -> list B) l :
  (forall a, In a l -> f a = g a) -> flat_map f l = flat_map g l.
Proof.
  intros H. induction l as [|a l IH]; cbn; [reflexivity|].
  rewrite H by (left; reflexivity). rewrite IH; [reflexivity|].
  intros b Hb. apply H. right. exact Hb.
Qed.

(* the entries of channel [j] *)
Lemma reduced_entries_leading t pre d j :
  shape t = pre ++ [d] -> j < d ->
  tf.reduced_entries t (seq 0 (length pre)) [j]
  = map (fun p => tf.get t (p ++ [j])) (tf.indices pre).
Proof.
  intros Hs Hj. unfold tf.reduced_entries. rewrite Hs, indices_app.
  rewrite filter_flat_map.
  rewrite (flat_map_ext_In _ (fun p => [p ++ [j]])).
  - rewrite flat_map_singleton, map_map. reflexivity.
  - intros p Hp. apply In_indices_length in Hp.
    rewrite filter_map_comm.
    rewrite (filter_ext _ (fun x => x =? j)).
    + rewrite filter_seq_eqb.
      destruct (Nat.leb_spec 0 j); [|lia].
      destruct (Nat.ltb_spec j (0 + d)); [reflexivity | lia].
    + intros j'. rewrite <- Hp.
      rewrite (drop_axes_all_but_last p j'). apply index_eqb_singleton.
Qed.

(* tf.linalg.norm over all axes but the last is the norm by channel *)
Lemma norm_leading_axes k depth :
  tf.last_dim (shape k) = Ok depth ->
  tf.norm k (seq 0 (tf.rank k - 1))
  = mkTensor [depth] (map (channel_norm k) (seq 0 depth)).
Proof.
  intros Hd. apply last_dim_inv in Hd.
  set (pre := removelast (shape k)) in *.
  assert (Hr : tf.rank k - 1 = length pre).
  { unfold tf.rank. rewrite Hd, length_app. cbn. lia. }
  rewrite Hr. unfold tf.norm, tf.map_data, tf.reduce_sum.
  assert (Hq : shape (tf.square k) = pre ++ [depth]) by exact Hd.
  rewrite Hq, (drop_axes_all_but_last pre depth).
  rewrite indices_vector. cbn [shape data]. f_equal. rewrite !map_map.
  apply map_ext_in. intros j Hj. apply in_seq in Hj.
  unfold channel_norm, channel_square_sum. fold pre. f_equal. f_equal.
  rewrite (reduced_entries_leading (tf.square k) pre depth j Hq) by lia.
  apply map_ext. intros p. unfold tf.get. rewrite Hq, Hd. cbn [data tf.square tf.map_data].
  apply nth_square.
Qed.

(* tf.nn.l2_normalize over all axes but the last, entry by entry *)
Lemma l2_normalize_leading_axes t pre d p j :
  shape t = pre ++ [d] -> In p (tf.indices pre) -> j < d ->
  tf.get (tf.l2_normalize t (seq 0 (tf.rank t - 1))) (p ++ [j])
  = (tf.get t (p ++ [j])
     * / sqrt (Rmax (channel_square_sum t j) tf.l2_normalize_epsilon))%R.
Proof.
  intros Hs Hp Hj.
  assert (Hr : tf.rank t - 1 = length pre).
  { unfold tf.rank. rewrite Hs, length_app. cbn. lia. }
  rewrite Hr. unfold tf.l2_normalize. rewrite Hs.
  rewrite (get_of_indices (pre ++ [d]) _ (p ++ [j])
             (In_indices_app pre d p j Hp Hj)).
  assert (Hdrop : tf.drop_axes 0 (seq 0 (length pre)) (p ++ [j]) = [j]).
  { rewrite <- (In_indices_length _ _ Hp). apply drop_axes_all_but_last. }
  rewrite Hdrop.
  assert (Hq : shape (tf.square t) = pre ++ [d]) by exact Hs.
  rewrite (reduced_entries_leading (tf.square t) pre d j Hq Hj).
  do 4 f_equal. unfold channel_square_sum.
  rewrite Hs, removelast_last. f_equal.
  apply map_ext. intros q. unfold tf.get. rewrite Hq, Hs.
  cbn [data tf.square tf.map_data]. apply nth_square.
Qed.

(** ** How close 1 / sqrt(variance + epsilon) is to 1 / sigma *)

Lemma data_init_epsilon_pos : (0 < data_init_epsilon)%R.
Proof. unfold data_init_epsilon. apply Rinv_0_lt_compat. lra. Qed.

Lemma inv_sqrt_shift_bound (var eps : R) :
  (0 < var)%R -> (0 < eps)%R ->
  (0 < 1 / sqrt var - 1 / sqrt (var + eps)
   <= eps / (2 * var * sqrt var))%R.
Proof.
  intros Hv He.
  assert (Ha : (0 < sqrt var)%R) by (apply sqrt_lt_R0; lra).
  assert (Hb : (sqrt var < sqrt (var + eps))%R)
    by (apply sqrt_lt_1; lra).
  assert (Haa : (sqrt var * sqrt var = var)%R) by (apply sqrt_sqrt; lra).
  assert (Hbb : (sqrt (var + eps) * sqrt (var + eps) = var + eps)%R)
    by (apply sqrt_sqrt; lra).
  set (a := sqrt var) in *. set (b := sqrt (var + eps)) in *.
  assert (Hab : (0 < b)%R) by lra.
  replace (1 / a - 1 / b)%R with ((b - a) / (a * b))%R
    by (field; split; lra).
  assert (Hd : (b - a = eps / (a + b))%R).
  { field_simplify_eq; [|lra]. nra. }
  split.
  - apply Rdiv_lt_0_compat; [lra | nra].
  - rewrite Hd. rewrite <- Haa.
    unfold Rdiv. rewrite Rmult_assoc.
    apply Rmult_le_compat_l; [lra|].
    rewrite <- Rinv_mult.
    apply Rinv_le_contravar; [nra|].
    nra.
Qed.

(** ** A linear layer under data-dependent initialization *)

Lemma nth_repeat_lt {A} (a d : A) n i : i < n -> nth i (repeat a n) d = a.
Proof.
  revert i. induction n as [|n IH]; intros i H; [lia|].
  destruct i; cbn; [reflexivity | apply IH; lia].
Qed.

Lemma nth_repeat_default {A} (a : A) n i : nth i (repeat a n) a = a.
Proof.
  revert i. induction n as [|n IH]; intros i; destruct i; cbn; auto.
Qed.

Lemma nth_map_lt {A B} (f : A -> B) l i da db :
  i < length l -> nth i (map f l) db = f (nth i l da).
Proof.
  intros H. rewrite (nth_indep _ db (f da)) by (rewrite length_map; exact H).
  apply map_nth.
Qed.

Lemma matmul_Ok_inv a b c :
  tf.matmul a b = Ok c ->
  exists n k m,
    shape a = [n; k] /\ shape b = [k; m] /\ shape c = [n; m]
    /\ tf.well_formed c.
Proof.
  unfold tf.matmul.
  destruct (shape a) as [|n [|k [|? ?]]]; try discriminate.
  destruct (shape b) as [|k' [|m [|? ?]]]; try discriminate.
  destruct (Nat.eqb_spec k k') as [<-|]; [|discriminate].
  intros H; inversion H; subst c; clear H.
  exists n, k, m. repeat split.
  unfold tf.well_formed. cbn [data shape]. rewrite length_map.
  exact (length_indices [n; m]).
Qed.

Lemma get_zeros s idx : tf.get (tf.zeros s) idx = 0%R.
Proof. unfold tf.get, tf.zeros. cbn. apply nth_repeat_default. Qed.

(* adding a zero bias *)
Lemma add_zeros y n u :
  shape y = [n; u] -> tf.well_formed y -> tf.add y (tf.zeros [u]) = Ok y.
Proof.
  intros Hs Hwf. unfold tf.add, tf.elementwise.
  assert (Hd : tf.last_dim (shape y) = Ok u) by (rewrite Hs; reflexivity).
  change (shape (tf.zeros [u])) with [u].
  rewrite (broadcast_shape_last _ _ Hd). f_equal.
  destruct y as [sh dt]. cbn [shape data] in *. f_equal.
  transitivity (map (tf.get (mkTensor sh dt)) (tf.indices sh));
    [|apply (get_indices _ Hwf)].
  apply map_ext_in. intros idx Hi.
  rewrite get_zeros, Rplus_0_r.
  rewrite (operand_index_self _ _ (In_indices_bound _ _ Hi)). reflexivity.
Qed.

(* the statistics of a matrix: one mean and one variance a column *)
Lemma statistics_shape y n u :
  shape y = [n; u] ->
  shape (statistics_mean y) = [u] /\ shape (correction y) = [u].
Proof.
  intros Hs. unfold correction, statistics_variance, statistics_mean,
    tf.moments, tf.reduce_mean, tf.reduce_sum, tf.map_data, tf.rank.
  cbn [fst snd shape]. rewrite Hs. split; reflexivity.
Qed.

Lemma well_formed_vector t u :
  shape t = [u] -> tf.well_formed t -> length (data t) = u.
Proof.
  unfold tf.well_formed. intros -> H. rewrite H. cbn. lia.
Qed.

Lemma statistics_mean_well_formed y : tf.well_formed (statistics_mean y).
Proof.
  unfold tf.well_formed, statistics_mean, tf.moments, tf.reduce_mean,
    tf.reduce_sum, tf.map_data. cbn.
  rewrite !length_map. apply length_indices.
Qed.

Lemma statistics_variance_well_formed y :
  tf.well_formed (statistics_variance y).
Proof.
  unfold tf.well_formed, statistics_variance, tf.moments, tf.reduce_mean,
    tf.reduce_sum, tf.map_data. cbn.
  rewrite !length_map. apply length_indices.
Qed.

Lemma entry_correction y u j :
  shape (correction y) = [u] -> j < u ->
  entry (correction y) j
  = (1 / sqrt (entry (statistics_variance y) j + data_init_epsilon))%R.
Proof.
  intros Hs Hj. unfold entry, correction, tf.map_data. cbn [data].
  apply (nth_map_lt (fun x => 1 / sqrt (x + data_init_epsilon))%R
           (data (statistics_variance y)) j 0%R 0%R).
  pose proof (statistics_variance_well_formed y) as Hwf.
  unfold correction, tf.map_data in Hs. cbn [shape] in Hs.
  rewrite (well_formed_vector _ u Hs Hwf). exact Hj.
Qed.

Lemma linear_layer_build s W n u w0 :
  shape W = [n; u] ->
  @build (Layers.API tf.ones) s (__init__ (linear_layer W u) true)
  = (Ok tt, w0) ->
  _naked_clone_layer w0
  = Some (Layer.mk "Dense" u true None false true
                   (Some W) (Some (Some (tf.zeros [u]))) None)
  /\ layer w0 = linear_layer W u
  /\ g w0 = Some (tf.ones [u])
  /\ _initialized w0 = Some false
  /\ data_init w0 = true.
Proof.
  intros Hs.
  unfold build, bind, modify, read, lift, ret, raise, layer_build.
  cbn -[Layer.shape_eqb]. rewrite Hs. cbn -[Layer.shape_eqb].
  unfold Layers.add_weights. cbn -[Layer.shape_eqb].
  destruct (tf.last_dim s) as [input_dim|e]; cbn -[Layer.shape_eqb];
    [|discriminate].
  unfold Layer.set_weights. cbn -[Layer.shape_eqb]. rewrite Hs.
  destruct (Layer.shape_eqb [input_dim; u] [n; u]); cbn -[Layer.shape_eqb];
    [|discriminate].
  rewrite shape_eqb_refl. cbn.
  intros H; inversion H; subst; clear H. cbn. repeat split.
Qed.

Lemma linear_layer_call W u x y n act tr :
  tf.matmul x W = Ok y -> shape W = [n; u] ->
  Layers.call (Layer.mk "Dense" u true act tr true
                        (Some W) (Some (Some (tf.zeros [u]))) None) x
  = inr (Layers.activate act y).
Proof.
  intros Hm Hs. unfold Layers.call, Layers.dense_call. cbn. rewrite Hm.
  apply matmul_Ok_inv in Hm as (b & k & m & Hx & Hw & Hy & Hwf).
  assert (m = u) by congruence. subst m.
  rewrite (add_zeros y b u Hy Hwf). reflexivity.
Qed.

Section Claims.
Context {API : LayerAPI}.

Lemma of_layer_no_assertion {A} (r : string + A) :
  never_raises assertion_failure (lift (of_layer r)).
Proof. apply never_raises_lift. destruct r; discriminate. Qed.

Lemma elementwise_no_assertion f a b :
  never_raises assertion_failure (lift (tf.elementwise f a b)).
Proof. apply never_raises_lift. unfold tf.elementwise. result_cases. Qed.

Lemma assign_g_no_assertion x : never_raises assertion_failure (assign_g x).
Proof. unfold assign_g. repeat never_raises_step. Qed.

Lemma assign_bias_no_assertion b x :
  never_raises assertion_failure (assign_bias b x).
Proof. unfold assign_bias. repeat never_raises_step. Qed.

Lemma assign_initialized_no_assertion x :
  never_raises assertion_failure (assign_initialized x).
Proof. unfold assign_initialized. repeat never_raises_step. Qed.

Lemma put_kernel_no_assertion x : never_raises assertion_failure (put_kernel x).
Proof. unfold put_kernel. repeat never_raises_step. Qed.

Lemma _init_norm_no_assertion : never_raises assertion_failure _init_norm.
Proof.
  unfold _init_norm. repeat never_raises_step.
  - apply never_raises_lift. unfold tf.reshape_rows. result_cases.
  - apply never_raises_lift. unfold tf.reshape_vector. result_cases.
  - apply assign_g_no_assertion.
Qed.

Lemma _data_dep_init_no_assertion x :
  never_raises assertion_failure (_data_dep_init x).
Proof.
  unfold _data_dep_init. apply never_raises_bind; [|intro].
  { repeat never_raises_step. }
  apply never_raises_bind; [apply of_layer_no_assertion|intro].
  destruct (tf.moments _ _) as [m_init v_init].
  repeat never_raises_step.
  all: try apply elementwise_no_assertion; try apply assign_g_no_assertion;
    try apply assign_bias_no_assertion.
  all: apply never_raises_lift; unfold dim0, tf.tile; result_cases.
Qed.

Lemma _initialize_weights_false inputs w :
  _initialized w = Some false ->
  _initialize_weights inputs w = initialization inputs w.
Proof.
  intros H. unfold _initialize_weights, bind at 1, getattr at 1.
  rewrite H. reflexivity.
Qed.

Lemma _initialize_weights_true inputs w :
  _initialized w = Some true ->
  _initialize_weights inputs w = (Raise assertion_failure, w).
Proof.
  intros H. unfold _initialize_weights, bind at 1, getattr at 1.
  rewrite H. reflexivity.
Qed.

Lemma initialization_no_assertion x :
  never_raises assertion_failure (initialization x).
Proof.
  unfold initialization. repeat never_raises_step.
  - apply _data_dep_init_no_assertion.
  - apply _init_norm_no_assertion.
  - apply assign_initialized_no_assertion.
Qed.

Lemma compute_weights_no_assertion x g0 :
  never_raises assertion_failure (compute_weights x g0).
Proof.
  unfold compute_weights. repeat never_raises_step.
  - apply elementwise_no_assertion.
  - apply put_kernel_no_assertion.
  - apply of_layer_no_assertion.
Qed.

(* the forward call of a wrapper whose flag is set *)
Lemma call_initialized inputs w :
  _initialized w = Some true ->
  call inputs w = (g0 <- getattr "g" g ;; compute_weights inputs g0) w.
Proof.
  intros H. unfold call, bind at 1, getattr at 1. rewrite H. reflexivity.
Qed.

(* the forward call of a wrapper whose flag is not set *)
Lemma call_uninitialized inputs w :
  _initialized w = Some false ->
  call inputs w =
  (g0 <- (initialization inputs ;;; getattr "g" g) ;;
   compute_weights inputs g0) w.
Proof.
  intros H. unfold call, bind at 1, getattr at 1. rewrite H.
  unfold bind. rewrite (_initialize_weights_false _ _ H). reflexivity.
Qed.

Lemma call_no_flag inputs w :
  _initialized w = None ->
  call inputs w = (Raise (AttributeError "_initialized"), w).
Proof.
  intros H. unfold call, bind at 1, getattr at 1. rewrite H. reflexivity.
Qed.

Lemma call_no_assertion x : never_raises assertion_failure (call x).
Proof.
  assert (H1 : never_raises assertion_failure
                 (g0 <- getattr "g" g ;; compute_weights x g0)).
  { repeat never_raises_step. apply compute_weights_no_assertion. }
  assert (H2 : never_raises assertion_failure
                 (g0 <- (initialization x ;;; getattr "g" g) ;;
                  compute_weights x g0)).
  { repeat never_raises_step.
    - apply initialization_no_assertion.
    - apply compute_weights_no_assertion. }
  intros w. destruct (_initialized w) as [[|]|] eqn:E.
  - rewrite (call_initialized _ _ E). apply H1.
  - rewrite (call_uninitialized _ _ E). apply H2.
  - rewrite (call_no_flag _ _ E). discriminate.
Qed.

(** C7.  [_initialize_weights] first asserts that the flag is false: run
    with the flag set it raises the assertion failure and changes
    nothing; run with the flag unset the assertion passes, whatever
    happens next; and a forward call, which reaches it only while the
    flag is unset, never raises the assertion failure. *)
Theorem initialize_weights_asserts_uninitialized (w : t) (inputs : Tensor) :
  (_initialized w = Some true ->
   _initialize_weights inputs w = (Raise assertion_failure, w))
  /\ (_initialized w = Some false ->
      fst (_initialize_weights inputs w) <> Raise assertion_failure)
  /\ fst (call inputs w) <> Raise assertion_failure.
Proof.
  split; [|split].
  - apply _initialize_weights_true.
  - intros H. rewrite (_initialize_weights_false _ _ H).
    apply initialization_no_assertion.
  - apply call_no_assertion.
Qed.

(** ** Build *)

Lemma build_Ok_inv s w w' :
  build s w = (Ok tt, w') ->
  exists l' k d,
    ensure_built s (layer w) = Ok l'
    /\ kernel_attribute (is_rnn w) l' = Some k
    /\ tf.last_dim (shape k) = Ok d
    /\ layer w' = l' /\ is_rnn w' = is_rnn w /\ data_init w' = data_init w
    /\ v w' = Some k /\ g w' = Some (tf.ones [d])
    /\ layer_depth w' = Some d
    /\ kernel_norm_axes w' = Some (seq 0 (tf.rank k - 1))
    /\ _initialized w' = Some false
    /\ assign_trace w' = assign_trace w
    /\ built w' = true.
Proof.
  unfold build, bind, modify, read, lift, ret, raise. cbn.
  repeat (break_match; cbn in *; try discriminate).
  all: intros H; inversion H; subst; clear H; cbn.
  all: unfold ensure_built, kernel_attribute.
  all: eexists _, _, _; split;
    [repeat match goal with H : _ = _ |- _ => rewrite H end; reflexivity|].
  all: cbn; repeat match goal with H : _ = _ |- _ => rewrite H end.
  all: repeat split; eauto.
Qed.

Lemma set_weights_not_no_kernel l ws :
  Layer.set_weights l ws <> Raise (ValueError no_kernel_message).
Proof.
  unfold Layer.set_weights, Layer.fill.
  repeat (break_match; try discriminate).
Qed.

Lemma build_no_kernel_inv s w w' :
  build s w = (Raise (ValueError no_kernel_message), w') ->
  exists l', ensure_built s (layer w) = Ok l' /\ lacks_kernel (is_rnn w) l'
    /\ g w' = g w /\ _initialized w' = _initialized w /\ v w' = v w
    /\ _naked_clone_layer w' = _naked_clone_layer w /\ built w' = built w.
Proof.
  unfold build, bind, modify, read, lift, ret, raise. cbn.
  repeat (break_match; cbn in *; try discriminate).
  all: intros H; inversion H; subst; clear H; cbn.
  all: try match goal with
         | H : Layer.set_weights _ _ = Raise (ValueError no_kernel_message)
           |- _ => apply set_weights_not_no_kernel in H; contradiction
         | H : of_layer ?x = Raise (ValueError _) |- _ =>
             destruct x; discriminate
         | H : tf.last_dim ?x = Raise (ValueError _) |- _ =>
             unfold tf.last_dim in H; destruct (rev x); discriminate
         end.
  all: unfold ensure_built, lacks_kernel.
  all: eexists; split;
    [repeat match goal with H : _ = _ |- _ => rewrite H end; reflexivity|].
  all: cbn; repeat match goal with H : _ = _ |- _ => rewrite H end.
  all: repeat split; eauto.
Qed.

Lemma build_no_kernel s w l' :
  ensure_built s (layer w) = Ok l' -> lacks_kernel (is_rnn w) l' ->
  fst (build s w) = Raise (ValueError no_kernel_message).
Proof.
  unfold ensure_built, lacks_kernel, build, bind, modify, read, lift, ret, raise.
  cbn. intros H1 H2.
  destruct (Layer.built (layer w)); cbn.
  - inversion H1; subst. destruct (is_rnn w).
    + destruct H2 as (c & -> & ->). reflexivity.
    + rewrite H2. reflexivity.
  - rewrite H1. cbn. destruct (is_rnn w).
    + destruct H2 as (c & -> & ->). reflexivity.
    + rewrite H2. reflexivity.
Qed.

Lemma ensure_built_cell s l l' :
  ensure_built s l = Ok l' -> Layer.is_recurrent l' = Layer.is_recurrent l.
Proof.
  unfold ensure_built, layer_build, Layer.is_recurrent.
  destruct (Layer.built l).
  - intros H; inversion H; reflexivity.
  - destruct (layer_add_weights s l); cbn; intros H; inversion H.
    cbn. destruct (Layer.cell l); reflexivity.
Qed.

Lemma lacks_kernel_iff l :
  lacks_kernel (Layer.is_recurrent l) l <-> kernel_layer_has_kernel l = false.
Proof.
  unfold lacks_kernel, kernel_layer_has_kernel, Layer.is_recurrent.
  destruct (Layer.cell l) as [c|].
  - split.
    + intros (c' & H & Hk). inversion H; subst. rewrite Hk. reflexivity.
    + intros H. exists c. split; [reflexivity|].
      destruct (Cell.kernel c); [discriminate|reflexivity].
  - destruct (Layer.kernel l); split; congruence.
Qed.

(** C6.  [build], run on a wrapper as the constructor leaves it, raises
    the configuration error (the ValueError that names the missing
    kernel) exactly when the wrapped layer, once built, has no [kernel]
    attribute on its kernel layer (its cell when it is recurrent, itself
    otherwise).  The wrapper then holds no scale [g], no flag
    [_initialized], no direction [v] and no clone, and is not built.  The
    constructor is total and creates none of them either: the error
    belongs to build time. *)
Theorem build_raises_iff_no_kernel l di s :
  let r := build s (__init__ l di) in
  (fst r = Raise (ValueError no_kernel_message) <->
   exists l', ensure_built s l = Ok l' /\ kernel_layer_has_kernel l' = false)
  /\ (fst r = Raise (ValueError no_kernel_message) ->
      g (snd r) = None /\ _initialized (snd r) = None /\ v (snd r) = None
      /\ _naked_clone_layer (snd r) = None /\ built (snd r) = false)
  /\ g (__init__ l di) = None /\ _initialized (__init__ l di) = None.
Proof.
  cbv zeta. destruct (build s (__init__ l di)) as [r w'] eqn:E. cbn [fst snd].
  split; [split|split].
  - intros ->. apply build_no_kernel_inv in E as (l' & H1 & H2 & _).
    exists l'. split; [exact H1|]. cbn in H1, H2.
    rewrite <- (ensure_built_cell _ _ _ H1) in H2.
    apply lacks_kernel_iff, H2.
  - intros (l' & H1 & H2). 
    change r with (fst (r, w')). rewrite <- E.
    apply build_no_kernel with (l' := l'); [exact H1|].
    cbn. rewrite <- (ensure_built_cell _ _ _ H1).
    apply lacks_kernel_iff, H2.
  - intros ->. apply build_no_kernel_inv in E as (l' & _ & _ & H).
    cbn in H. exact H.
  - split; reflexivity.
Qed.

(** ** Forward call and removal *)

Lemma put_kernel_inv k w r w' :
  put_kernel k w = (r, w') ->
  (r = Ok tt /\ w' = set_layer (with_kernel_attribute (is_rnn w) k (layer w)) w
   /\ kernel_attribute (is_rnn w) (layer w') = Some k)
  \/ (exists e, r = Raise e /\ w' = w).
Proof.
  unfold put_kernel, bind, read, modify, raise, with_kernel_attribute,
    kernel_attribute. cbn.
  destruct (is_rnn w) eqn:Er; [destruct (Layer.cell (layer w)) eqn:Ec|].
  all: intros H; inversion H; subst; clear H; cbn; eauto.
Qed.

Lemma compute_weights_Ok_inv x g0 w out w' :
  compute_weights x g0 w = (Ok out, w') ->
  exists v0 axes kernel,
    v w = Some v0 /\ kernel_norm_axes w = Some axes
    /\ tf.mul (tf.l2_normalize v0 axes) g0 = Ok kernel
    /\ put_kernel kernel w = (Ok tt, w')
    /\ w' = set_layer (with_kernel_attribute (is_rnn w) kernel (layer w)) w
    /\ kernel_attribute (is_rnn w) (layer w') = Some kernel
    /\ of_layer (layer_call (layer w') x) = Ok out.
Proof.
  unfold compute_weights. intros H.
  apply bind_Ok_inv in H as (v0 & w1 & H1 & H).
  apply getattr_Ok_inv in H1 as [Hv ->].
  apply bind_Ok_inv in H as (axes & w1 & H1 & H).
  apply getattr_Ok_inv in H1 as [Ha ->].
  apply bind_Ok_inv in H as (kernel & w1 & H1 & H).
  unfold lift in H1. inversion H1; subst; clear H1.
  apply bind_Ok_inv in H as ([] & w2 & H1 & H).
  pose proof H1 as Hput.
  apply put_kernel_inv in H1 as [(_ & Hw & Hk) | (e & He & _)];
    [|discriminate].
  unfold bind, read, lift in H. cbn in H. inversion H; subst w'; clear H.
  exists v0, axes, kernel. repeat split; auto.
Qed.

Lemma remove_inv w r w' :
  remove w = (r, w') ->
  (exists v0 axes g0 kernel,
      v w = Some v0 /\ kernel_norm_axes w = Some axes /\ g w = Some g0
      /\ tf.mul (tf.l2_normalize v0 axes) g0 = Ok kernel
      /\ w' = set_layer (with_kernel_attribute (is_rnn w) kernel (layer w)) w
      /\ kernel_attribute (is_rnn w) (layer w') = Some kernel
      /\ r = Ok (layer w'))
  \/ (exists e, r = Raise e /\ w' = w).
Proof.
  unfold remove. intros H.
  apply bind_inv in H as [(v0 & w1 & H1 & H) | (e & H1 & ->)].
  2:{ right. exists e. split; [reflexivity|].
      unfold getattr in H1. destruct (v w); inversion H1; reflexivity. }
  apply getattr_Ok_inv in H1 as [Hv ->].
  apply bind_inv in H as [(axes & w1 & H1 & H) | (e & H1 & ->)].
  2:{ right. exists e. split; [reflexivity|].
      unfold getattr in H1. destruct (kernel_norm_axes w); inversion H1;
        reflexivity. }
  apply getattr_Ok_inv in H1 as [Ha ->].
  apply bind_inv in H as [(g0 & w1 & H1 & H) | (e & H1 & ->)].
  2:{ right. exists e. split; [reflexivity|].
      unfold getattr in H1. destruct (g w); inversion H1; reflexivity. }
  apply getattr_Ok_inv in H1 as [Hg ->].
  apply bind_inv in H as [(kernel & w1 & H1 & H) | (e & H1 & ->)].
  2:{ right. exists e. split; [reflexivity|].
      unfold lift in H1. inversion H1; reflexivity. }
  unfold lift in H1. inversion H1; subst; clear H1.
  apply bind_inv in H as [([] & w2 & H1 & H) | (e & H1 & ->)].
  2:{ right. exists e. split; [reflexivity|].
      apply put_kernel_inv in H1 as [(H1 & _) | (e' & _ & H1)];
        [discriminate|exact H1]. }
  apply put_kernel_inv in H1 as [(_ & -> & Hk) | (e & He & _)];
    [|discriminate].
  unfold read in H. inversion H; subst; clear H.
  left. exists v0, axes, g0, kernel. repeat split; auto.
Qed.

Lemma same_parameters_refl w : same_parameters w w.
Proof. repeat split. Qed.

Lemma same_parameters_trans a b c :
  same_parameters a b -> same_parameters b c -> same_parameters a c.
Proof.
  unfold same_parameters. intros (?&?&?&?&?&?) (?&?&?&?&?&?).
  repeat split; congruence.
Qed.

Ltac respects_same_parameters :=
  pose proof same_parameters_refl; pose proof same_parameters_trans;
  repeat respects_step;
  try (apply respects_modify; intros; repeat split).

Lemma call_same_parameters x : respects same_parameters (call x).
Proof.
  unfold call, _initialize_weights, _data_dep_init, _init_norm,
    compute_weights, assign_g, assign_bias, assign_initialized, put_kernel.
  respects_same_parameters.
Qed.

Lemma remove_same_parameters : respects same_parameters remove.
Proof.
  unfold remove, put_kernel. respects_same_parameters.
Qed.

Lemma after_same_parameters op w : same_parameters w (after op w).
Proof.
  destruct op; cbn.
  - apply call_same_parameters.
  - apply remove_same_parameters.
  - apply same_parameters_refl.
  - apply same_parameters_refl.
Qed.

Lemma after_all_same_parameters ops w : same_parameters w (after_all ops w).
Proof.
  revert w. induction ops as [|op ops IH]; intros w; cbn.
  - apply same_parameters_refl.
  - eapply same_parameters_trans; [apply after_same_parameters | apply IH].
Qed.

Lemma settled_refl w : settled w w.
Proof. intros H; repeat split; assumption. Qed.

Lemma settled_trans a b c : settled a b -> settled b c -> settled a c.
Proof.
  unfold settled. intros H1 H2 Ha.
  destruct (H1 Ha) as (Hb & ? & ? & ?).
  destruct (H2 Hb) as (? & ? & ? & ?).
  repeat split; congruence.
Qed.

Lemma with_kernel_attribute_bias rnn k l :
  Layer.bias (with_kernel_attribute rnn k l) = Layer.bias l.
Proof.
  unfold with_kernel_attribute.
  destruct rnn; [destruct (Layer.cell l)|]; reflexivity.
Qed.

Lemma put_kernel_settled k : respects settled (put_kernel k).
Proof.
  intros w. destruct (put_kernel k w) as [r w'] eqn:E.
  apply put_kernel_inv in E as [(_ & -> & _) | (e & _ & ->)]; cbn.
  - intros H. repeat split; try assumption.
    apply with_kernel_attribute_bias.
  - apply settled_refl.
Qed.

Lemma compute_weights_settled x g0 : respects settled (compute_weights x g0).
Proof.
  pose proof settled_refl; pose proof settled_trans.
  unfold compute_weights. repeat respects_step. apply put_kernel_settled.
Qed.

Lemma call_settled x : respects settled (call x).
Proof.
  pose proof settled_refl; pose proof settled_trans.
  assert (H1 : respects settled
                 (g0 <- getattr "g" g ;; compute_weights x g0)).
  { repeat respects_step. apply compute_weights_settled. }
  intros w. destruct (_initialized w) as [[|]|] eqn:E.
  - rewrite (call_initialized _ _ E). apply H1.
  - intros H'. congruence.
  - intros H'. congruence.
Qed.

Lemma remove_settled : respects settled remove.
Proof.
  pose proof settled_refl; pose proof settled_trans.
  unfold remove. repeat respects_step. apply put_kernel_settled.
Qed.

Lemma after_settled op w : settled w (after op w).
Proof.
  destruct op; cbn.
  - apply call_settled.
  - apply remove_settled.
  - apply settled_refl.
  - apply settled_refl.
Qed.

Lemma after_all_settled ops w : settled w (after_all ops w).
Proof.
  revert w. induction ops as [|op ops IH]; intros w; cbn.
  - apply settled_refl.
  - eapply settled_trans; [apply after_settled | apply IH].
Qed.

(* the forward call, once the scale to use has been read *)
Lemma call_Ok_inv x w out w' :
  call x w = (Ok out, w') ->
  exists wm g1,
    g wm = Some g1 /\ compute_weights x g1 wm = (Ok out, w')
    /\ ((_initialized w = Some true /\ wm = w)
        \/ (_initialized w = Some false
            /\ exists ops, initialization x w = (Ok ops, wm))).
Proof.
  intros H. destruct (_initialized w) as [[|]|] eqn:E.
  - rewrite (call_initialized _ _ E) in H.
    apply bind_Ok_inv in H as (g1 & w1 & H1 & H).
    apply getattr_Ok_inv in H1 as [Hg ->].
    exists w, g1. auto.
  - rewrite (call_uninitialized _ _ E) in H.
    apply bind_Ok_inv in H as (g1 & w1 & H1 & H).
    apply bind_Ok_inv in H1 as (ops & wm & H0 & H1).
    apply getattr_Ok_inv in H1 as [Hg ->].
    exists wm, g1. repeat split; auto. right. split; [reflexivity|].
    exists ops. exact H0.
  - rewrite (call_no_flag _ _ E) in H. discriminate.
Qed.

Lemma assign_g_Ok_inv value w a w' :
  assign_g value w = (Ok a, w') ->
  exists g0, g w = Some g0 /\ shape g0 = shape value
    /\ a = AssignG value /\ w' = traced (AssignG value) (set_g value w).
Proof.
  unfold assign_g, bind, getattr, modify, ret, raise.
  destruct (g w) as [g0|]; [|discriminate].
  unfold Layer.shape_eqb.
  destruct (list_eq_dec Nat.eq_dec (shape g0) (shape value)); [|discriminate].
  intros H; inversion H; subst. exists g0. auto.
Qed.

Lemma assign_bias_Ok_inv b0 value w a w' :
  assign_bias b0 value w = (Ok a, w') ->
  shape b0 = shape value /\ a = AssignBias value
  /\ w' = traced (AssignBias value)
            (set_layer (Layer.set_bias value (layer w)) w).
Proof.
  unfold assign_bias, bind, modify, ret, raise, Layer.shape_eqb.
  destruct (list_eq_dec Nat.eq_dec (shape b0) (shape value)); [|discriminate].
  intros H; inversion H; subst. auto.
Qed.

Lemma assign_initialized_Ok_inv value w a w' :
  assign_initialized value w = (Ok a, w') ->
  a = AssignInitialized value
  /\ w' = traced (AssignInitialized value) (set__initialized value w).
Proof.
  unfold assign_initialized, bind, getattr, modify, ret.
  destruct (_initialized w); [|discriminate].
  intros H; inversion H; subst. auto.
Qed.

Lemma lift_Ok_inv {A} (r : Result A) w a w' :
  lift r w = (Ok a, w') -> r = Ok a /\ w' = w.
Proof. unfold lift. intros H; inversion H; auto. Qed.

Lemma read_Ok_inv {A} (f : t -> A) w a w' :
  read f w = (Ok a, w') -> a = f w /\ w' = w.
Proof. unfold read. intros H; inversion H; auto. Qed.

Lemma ret_Ok_inv {A} (x : A) w a w' :
  ret x w = (Ok a, w') -> a = x /\ w' = w.
Proof. unfold ret. intros H; inversion H; auto. Qed.

Lemma _init_norm_Ok_inv w ops w' :
  _init_norm w = (Ok ops, w') ->
  exists v0 depth v_flat value g0,
    v w = Some v0 /\ layer_depth w = Some depth
    /\ tf.reshape_rows v0 depth = Ok v_flat
    /\ tf.reshape_vector (tf.norm v_flat [0]) depth = Ok value
    /\ g w = Some g0 /\ shape g0 = shape value
    /\ ops = [AssignG value]
    /\ w' = traced (AssignG value) (set_g value w).
Proof.
  unfold _init_norm. intros H.
  apply bind_Ok_inv in H as (v0 & w1 & H1 & H).
  apply getattr_Ok_inv in H1 as [Hv ->].
  apply bind_Ok_inv in H as (depth & w1 & H1 & H).
  apply getattr_Ok_inv in H1 as [Hd ->].
  apply bind_Ok_inv in H as (v_flat & w1 & H1 & H).
  unfold lift in H1. inversion H1; subst; clear H1.
  apply bind_Ok_inv in H as (value & w2 & H1 & H).
  unfold lift in H1. inversion H1; subst; clear H1.
  apply bind_Ok_inv in H as (a & w3 & H1 & H).
  apply assign_g_Ok_inv in H1 as (g0 & Hg & Hs & -> & ->).
  unfold ret in H. inversion H; subst; clear H.
  exists v0, depth, v_flat, value, g0. repeat split; auto.
Qed.

Lemma _data_dep_init_Ok_inv x w ops w' :
  _data_dep_init x w = (Ok ops, w') ->
  exists clone x_init g0 wg scale gv,
    _naked_clone_layer w = Some clone
    /\ layer_call clone x = inr x_init
    /\ g w = Some g0 /\ dim0 (shape g0) = Ok wg
    /\ applied_correction x_init wg scale
    /\ tf.mul g0 scale = Ok gv /\ shape g0 = shape gv
    /\ ((ops = [AssignG gv]
         /\ (forall b, Layer.bias (layer w) <> Some (Some b))
         /\ w' = traced (AssignG gv) (set_g gv w))
        \/ (exists b0 bv,
              Layer.bias (layer w) = Some (Some b0)
              /\ tf.mul (tf.neg (statistics_mean x_init)) scale = Ok bv
              /\ shape b0 = shape bv
              /\ ops = [AssignG gv; AssignBias bv]
              /\ w' = traced (AssignBias bv)
                        (set_layer (Layer.set_bias bv (layer w))
                           (traced (AssignG gv) (set_g gv w))))).
Proof.
  unfold _data_dep_init. intros H.
  apply bind_Ok_inv in H as (clone & w1 & H1 & H).
  apply getattr_Ok_inv in H1 as [Hc ->].
  apply bind_Ok_inv in H as (x_init & w1 & H1 & H).
  apply lift_Ok_inv in H1 as [H1 ->].
  destruct (layer_call clone x) as [msg|x_init'] eqn:Ecall; [discriminate|].
  cbn in H1. inversion H1; subst x_init'; clear H1.
  destruct (tf.moments x_init (seq 0 (tf.rank x_init - 1)))
    as [m_init v_init] eqn:Em.
  assert (Hm : statistics_mean x_init = m_init)
    by (unfold statistics_mean; rewrite Em; reflexivity).
  assert (Hv : correction x_init =
               tf.map_data (fun x => 1 / sqrt (x + data_init_epsilon))%R v_init)
    by (unfold correction, statistics_variance; rewrite Em; reflexivity).
  rewrite <- Hv, <- Hm in H. clear Hv Hm Em.
  apply bind_Ok_inv in H as (ws & w1 & H1 & H).
  apply lift_Ok_inv in H1 as [Hws ->].
  apply bind_Ok_inv in H as (g0 & w1 & H1 & H).
  apply getattr_Ok_inv in H1 as [Hg ->].
  apply bind_Ok_inv in H as (wg & w1 & H1 & H).
  apply lift_Ok_inv in H1 as [Hwg ->].
  apply bind_Ok_inv in H as (scale & w1 & H1 & H).
  assert (Hscale : applied_correction x_init wg scale /\ w1 = w).
  { unfold applied_correction.
    destruct (ws =? wg) eqn:Ew; cbn in H1.
    - apply ret_Ok_inv in H1 as [-> ->]. split; [|reflexivity].
      exists ws. split; [assumption|]. left.
      apply Nat.eqb_eq in Ew. auto.
    - destruct (ws =? 0) eqn:E0; [discriminate|].
      apply lift_Ok_inv in H1 as [H1 ->]. split; [|reflexivity].
      exists ws. split; [assumption|]. right.
      apply Nat.eqb_neq in Ew, E0. auto. }
  destruct Hscale as [Hscale ->]. clear H1.
  apply bind_Ok_inv in H as (g0' & w1 & H1 & H).
  apply getattr_Ok_inv in H1 as [Hg' ->].
  rewrite Hg in Hg'. inversion Hg'; subst g0'; clear Hg'.
  apply bind_Ok_inv in H as (gv & w1 & H1 & H).
  apply lift_Ok_inv in H1 as [Hgv ->].
  apply bind_Ok_inv in H as (a & w1 & H1 & H).
  apply assign_g_Ok_inv in H1 as (g0' & Hg' & Hs & -> & ->).
  rewrite Hg in Hg'. inversion Hg'; subst g0'; clear Hg'.
  apply bind_Ok_inv in H as (l & w1 & H1 & H).
  apply read_Ok_inv in H1 as [-> ->].
  cbn in H.
  exists clone, x_init, g0, wg, scale, gv.
  repeat (split; [assumption|]).
  destruct (Layer.bias (layer w)) as [[b0|]|] eqn:Eb.
  - right.
    apply bind_Ok_inv in H as (bv & w1 & H1 & H).
    apply lift_Ok_inv in H1 as [Hbv ->].
    apply bind_Ok_inv in H as (a & w1 & H1 & H).
    apply assign_bias_Ok_inv in H1 as (Hsb & -> & ->).
    apply ret_Ok_inv in H as [-> ->].
    exists b0, bv. repeat split; auto.
  - left. apply ret_Ok_inv in H as [-> ->].
    repeat split; auto. intros b; discriminate.
  - left. apply ret_Ok_inv in H as [-> ->].
    repeat split; auto. intros b; discriminate.
Qed.

Lemma initialization_Ok_inv x w ops wm :
  initialization x w = (Ok ops, wm) ->
  exists policy wp,
    (if data_init w then _data_dep_init x w else _init_norm w)
    = (Ok policy, wp)
    /\ ops = policy ++ [AssignInitialized true]
    /\ wm = traced (AssignInitialized true) (set__initialized true wp).
Proof.
  unfold initialization. intros H.
  apply bind_Ok_inv in H as (di & w1 & H1 & H).
  apply read_Ok_inv in H1 as [-> ->].
  apply bind_Ok_inv in H as (policy & wp & H1 & H).
  apply bind_Ok_inv in H as (a & w2 & H2 & H).
  apply assign_initialized_Ok_inv in H2 as [-> ->].
  apply ret_Ok_inv in H as [-> ->].
  exists policy, wp. repeat split.
  destruct (data_init w); exact H1.
Qed.

(* the state the policy of an initialization leaves *)
Lemma policy_Ok_inv x w policy wp :
  (if data_init w then _data_dep_init x w else _init_norm w)
  = (Ok policy, wp) ->
  policy_assignments wp policy
  /\ assign_trace wp = assign_trace w ++ policy
  /\ _initialized wp = _initialized w.
Proof.
  unfold policy_assignments. destruct (data_init w); intros H.
  - apply _data_dep_init_Ok_inv in H
      as (clone & x_init & g0 & wg & scale & gv & _ & _ & _ & _ & _ & _ & _
          & [(-> & _ & ->) | (b0 & bv & _ & _ & _ & -> & ->)]); cbn.
    + repeat split. exists gv. auto.
    + repeat split; [|rewrite <- app_assoc; reflexivity].
      exists gv. split; [reflexivity|]. right. exists bv. auto.
  - apply _init_norm_Ok_inv in H
      as (v0 & depth & v_flat & value & g0 & _ & _ & _ & _ & _ & _ & -> & ->).
    cbn. repeat split. exists value. auto.
Qed.

(** C4.  On a wrapper that [build] has just completed the flag is false
    and nothing has been assigned.  A first forward call that returns
    leaves the flag true; what it assigned is the assignments of the
    initialization policy followed by the one assignment of [True] to the
    flag.  From then on every operation of the wrapper (forward call,
    removal, shape inference, configuration), returning or raising,
    leaves the flag true and assigns nothing: the scale and the bias of
    the wrapped layer keep the values the first call gave them. *)
Theorem initialized_exactly_once l di s w0 :
  build s (__init__ l di) = (Ok tt, w0) ->
  _initialized w0 = Some false /\ assign_trace w0 = []
  /\ forall x out w1,
      call x w0 = (Ok out, w1) ->
      _initialized w1 = Some true
      /\ (exists policy,
             policy_assignments w1 policy
             /\ assign_trace w1 = policy ++ [AssignInitialized true])
      /\ forall ops,
          _initialized (after_all ops w1) = Some true
          /\ g (after_all ops w1) = g w1
          /\ Layer.bias (layer (after_all ops w1)) = Layer.bias (layer w1)
          /\ assign_trace (after_all ops w1) = assign_trace w1.
Proof.
  intros Hb.
  apply build_Ok_inv in Hb
    as (l' & k & d & _ & _ & _ & _ & _ & _ & _ & _ & _ & _ & Hi & Ht & _).
  cbn in Ht. split; [exact Hi|]. split; [exact Ht|].
  intros x out w1 Hc.
  apply call_Ok_inv in Hc as (wm & g1 & Hg & Hcw & [[Hi' _] | [_ (iops & Ho)]]);
    [congruence|].
  apply initialization_Ok_inv in Ho as (policy & wp & Hp & _ & ->).
  apply policy_Ok_inv in Hp as (Hpol & Htr & _).
  pose proof (compute_weights_settled x g1
                (traced (AssignInitialized true) (set__initialized true wp)))
    as Hs.
  rewrite Hcw in Hs. cbn [snd] in Hs.
  destruct (Hs eq_refl) as (Hi1 & Hg1 & Hb1 & Ht1).
  split; [exact Hi1|]. split.
  - exists policy. split.
    + destruct Hpol as (gv & Hgv & Hcase). exists gv.
      split; [rewrite Hg1; exact Hgv|].
      destruct Hcase as [-> | (bv & Hbv & ->)]; [left; reflexivity|].
      right. exists bv. split; [rewrite Hb1; exact Hbv | reflexivity].
    + rewrite Ht1. cbn. rewrite Htr, Ht. reflexivity.
  - intros ops. exact (after_all_settled ops w1 Hi1).
Qed.

Lemma initialization_same_parameters x :
  respects same_parameters (initialization x).
Proof.
  unfold initialization, _data_dep_init, _init_norm,
    assign_g, assign_bias, assign_initialized.
  respects_same_parameters.
Qed.

Lemma same_scale_shape_refl w : same_scale_shape w w.
Proof. reflexivity. Qed.

Lemma same_scale_shape_trans a b c :
  same_scale_shape a b -> same_scale_shape b c -> same_scale_shape a c.
Proof. unfold same_scale_shape. congruence. Qed.

Lemma assign_g_same_scale_shape value :
  respects same_scale_shape (assign_g value).
Proof.
  intros w. unfold same_scale_shape, assign_g, bind, getattr, modify, ret,
    raise, Layer.shape_eqb.
  destruct (g w) as [g0|] eqn:E; cbn; [|rewrite E; reflexivity].
  destruct (list_eq_dec Nat.eq_dec (shape g0) (shape value)); cbn.
  - congruence.
  - rewrite E. reflexivity.
Qed.

Ltac respects_same_scale_shape :=
  pose proof same_scale_shape_refl; pose proof same_scale_shape_trans;
  repeat respects_step;
  try apply assign_g_same_scale_shape;
  try (apply respects_modify; intros; reflexivity).

Lemma call_same_scale_shape x : respects same_scale_shape (call x).
Proof.
  unfold call, _initialize_weights, _data_dep_init, _init_norm,
    compute_weights, assign_bias, assign_initialized, put_kernel.
  respects_same_scale_shape.
Qed.

Lemma remove_same_scale_shape : respects same_scale_shape remove.
Proof.
  unfold remove, put_kernel. respects_same_scale_shape.
Qed.

Lemma initialization_same_scale_shape x :
  respects same_scale_shape (initialization x).
Proof.
  unfold initialization, _data_dep_init, _init_norm,
    assign_bias, assign_initialized.
  respects_same_scale_shape.
Qed.

Lemma after_all_same_scale_shape ops w : same_scale_shape w (after_all ops w).
Proof.
  revert w. induction ops as [|op ops IH]; intros w; cbn.
  - reflexivity.
  - eapply same_scale_shape_trans; [|apply IH].
    destruct op; cbn.
    + apply call_same_scale_shape.
    + apply remove_same_scale_shape.
    + reflexivity.
    + reflexivity.
Qed.

(* the state in which a returning forward call computes the weight *)
Lemma call_Ok_parameters x w out w' :
  call x w = (Ok out, w') ->
  exists wm g1,
    g wm = Some g1 /\ compute_weights x g1 wm = (Ok out, w')
    /\ same_parameters w wm /\ same_scale_shape w wm.
Proof.
  intros H.
  apply call_Ok_inv in H as (wm & g1 & Hg & Hcw & [[_ ->] | [_ (ops & Ho)]]).
  - exists w, g1. repeat split; auto.
  - exists wm, g1. split; [exact Hg|]. split; [exact Hcw|].
    pose proof (initialization_same_parameters x w) as H1.
    pose proof (initialization_same_scale_shape x w) as H2.
    rewrite Ho in H1, H2. auto.
Qed.

(** C1.  On every forward call of a built wrapper that reaches the wrapped
    layer and returns, whatever operations came before: the direction [v]
    is still the kernel [build] found; the tensor
    l2_normalize(v, all axes but the last) * g, with [g] the scale as the
    call leaves it, is bound to the kernel attribute of the wrapped layer
    ([kernel], or the cell's [recurrent_kernel] of a recurrent layer);
    its entry at [idx, j] is
    v[idx, j] / sqrt(max(sum of v[., j]^2, 1e-12)) * g[j]; and the output
    is that of the wrapped layer's own forward computation run on the
    layer with the attribute so bound. *)
Theorem call_substitutes_normalized_weight l di s w0 ops x out w' :
  build s (__init__ l di) = (Ok tt, w0) ->
  call x (after_all ops w0) = (Ok out, w') ->
  exists v0 depth g1 kernel,
    v w0 = Some v0 /\ v w' = Some v0
    /\ tf.last_dim (shape v0) = Ok depth
    /\ g w' = Some g1 /\ shape g1 = [depth]
    /\ tf.mul (tf.l2_normalize v0 (seq 0 (tf.rank v0 - 1))) g1 = Ok kernel
    /\ shape kernel = shape v0
    /\ (forall idx j,
          In idx (tf.indices (removelast (shape v0))) -> j < depth ->
          tf.get kernel (idx ++ [j])
          = (tf.get v0 (idx ++ [j])
             * / sqrt (Rmax (channel_square_sum v0 j) tf.l2_normalize_epsilon)
             * entry g1 j)%R)
    /\ kernel_attribute (is_rnn w') (layer w') = Some kernel
    /\ of_layer (layer_call (layer w') x) = Ok out.
Proof.
  intros Hb Hc.
  apply build_Ok_inv in Hb
    as (l' & k & d & _ & _ & Hd & _ & _ & _ & Hv & Hg & _ & Ha & _).
  destruct (after_all_same_parameters ops w0) as (Hv1 & Ha1 & _).
  pose proof (after_all_same_scale_shape ops w0) as Hs1.
  apply call_Ok_parameters in Hc as (wm & g1 & Hg1 & Hcw & Hp & Hs2).
  destruct Hp as (Hv2 & Ha2 & _).
  apply compute_weights_Ok_inv in Hcw
    as (v0 & axes & kernel & Hv3 & Ha3 & Hk & _ & -> & Hka & Hout).
  assert (v0 = k) by congruence. subst v0.
  assert (axes = seq 0 (tf.rank k - 1)) by congruence. subst axes.
  assert (Hsg : shape g1 = [d]).
  { unfold same_scale_shape in Hs1, Hs2.
    rewrite Hs1, Hg, Hg1 in Hs2. cbn in Hs2. congruence. }
  pose proof (last_dim_inv _ _ Hd) as Hshape.
  destruct (mul_last_entries (tf.l2_normalize k (seq 0 (tf.rank k - 1))) g1
              (removelast (shape k)) d kernel Hshape Hsg Hk) as [Hsk He].
  exists k, d, g1, kernel. repeat split; auto; try congruence.
  intros idx j Hi Hj. rewrite (He idx j Hi Hj).
  rewrite (l2_normalize_leading_axes k (removelast (shape k)) d idx j
             Hshape Hi Hj).
  reflexivity.
Qed.

(* binding the kernel attribute twice to the same tensor *)
Lemma with_kernel_attribute_twice rnn k l :
  with_kernel_attribute rnn k (with_kernel_attribute rnn k l)
  = with_kernel_attribute rnn k l.
Proof.
  unfold with_kernel_attribute.
  destruct rnn; [destruct (Layer.cell l) eqn:E|]; cbn; try rewrite E;
    reflexivity.
Qed.

Lemma put_kernel_Ok k w w' :
  put_kernel k w = (Ok tt, w') ->
  put_kernel k w' = (Ok tt, w').
Proof.
  unfold put_kernel, bind, read, modify, raise. cbn.
  destruct (is_rnn w) eqn:Er; [destruct (Layer.cell (layer w)) eqn:Ec|].
  all: intros H; inversion H; subst; clear H; cbn; rewrite ?Er; reflexivity.
Qed.

Lemma remove_Ok w v0 axes g0 kernel w' :
  v w = Some v0 -> kernel_norm_axes w = Some axes -> g w = Some g0 ->
  tf.mul (tf.l2_normalize v0 axes) g0 = Ok kernel ->
  put_kernel kernel w = (Ok tt, w') ->
  remove w = (Ok (layer w'), w').
Proof.
  intros Hv Ha Hg Hk Hp. unfold remove, bind, getattr, lift, read.
  rewrite Hv, Ha, Hg, Hk, Hp. reflexivity.
Qed.

Lemma put_kernel_frame k w r w' :
  put_kernel k w = (r, w') ->
  v w' = v w /\ kernel_norm_axes w' = kernel_norm_axes w /\ g w' = g w.
Proof.
  intros H. apply put_kernel_inv in H as [(_ & -> & _) | (e & _ & ->)];
    repeat split.
Qed.

(** C5 (amended).  A forward call that returns leaves the flag true and
    [remove], called next, returns the wrapped layer, whose own forward
    computation on the same input returns the output of the call: its
    kernel attribute holds l2_normalize(v, all axes but the last) * g as
    they are at removal.  And for every wrapper whose initialization has
    run (flag true), the layer [remove] returns gives on every input the
    output a forward call of the wrapper returns from that same state. *)
Theorem removed_layer_output (w : t) (x out : Tensor) (w1 : t) :
  call x w = (Ok out, w1) ->
  _initialized w1 = Some true
  /\ (remove w1 = (Ok (layer w1), w1)
      /\ of_layer (layer_call (layer w1) x) = Ok out)
  /\ (_initialized w = Some true ->
      exists l' w2, remove w = (Ok l', w2)
                    /\ of_layer (layer_call l' x) = Ok out).
Proof.
  intros Hc.
  apply call_Ok_inv in Hc as (wm & g1 & Hg & Hcw & Hcase).
  apply compute_weights_Ok_inv in Hcw
    as (v0 & axes & kernel & Hv & Ha & Hk & Hput & Hw1 & _ & Hout).
  destruct (put_kernel_frame _ _ _ _ Hput) as (Hv1 & Ha1 & Hg1).
  split; [|split; [split|]].
  - rewrite Hw1. cbn [_initialized set_layer].
    destruct Hcase as [[Hi ->] | [_ (ops & Ho)]]; [exact Hi|].
    apply initialization_Ok_inv in Ho as (policy & wp & _ & _ & ->).
    reflexivity.
  - apply remove_Ok with (v0 := v0) (axes := axes) (g0 := g1)
                         (kernel := kernel); try congruence.
    apply put_kernel_Ok with (w := wm). exact Hput.
  - exact Hout.
  - intros Hi. destruct Hcase as [[_ ->] | [Hi' _]]; [|congruence].
    exists (layer w1), w1. split; [|exact Hout].
    apply remove_Ok with (v0 := v0) (axes := axes) (g0 := g1)
                         (kernel := kernel); assumption.
Qed.

Lemma set_layer_same w : set_layer (layer w) w = w.
Proof. destruct w; reflexivity. Qed.

Lemma remove_frame w :
  snd (remove w) = set_layer (layer (snd (remove w))) w
  /\ (layer (snd (remove w)) = layer w
      \/ exists k, layer (snd (remove w))
                   = with_kernel_attribute (is_rnn w) k (layer w))
  /\ forall l', fst (remove w) = Ok l' -> l' = layer (snd (remove w)).
Proof.
  destruct (remove w) as [r w'] eqn:E. cbn [fst snd].
  apply remove_inv in E
    as [(v0 & axes & g0 & kernel & _ & _ & _ & _ & -> & _ & ->)
       | (e & -> & ->)]; cbn.
  - split; [reflexivity|]. split; [right; eauto|].
    intros l' H; inversion H; reflexivity.
  - split; [symmetry; apply set_layer_same|]. split; [left; reflexivity|].
    intros l' H; discriminate.
Qed.

(** C10.  Whatever the state of the wrapper, [remove] changes nothing of
    the wrapper but its wrapped layer, and of the wrapped layer nothing
    but the kernel attribute ([kernel], or the cell's [recurrent_kernel]
    of a recurrent layer): the scale [g], the direction [v], the flag and
    the bias keep their values, nothing is assigned, and the layer
    returned is the wrapper's own.  On a wrapper that [build] has just
    completed, [remove] returns, and the kernel it bakes in is
    l2_normalize(original kernel, all axes but the last) * ones. *)
Theorem remove_changes_only_kernel_attribute :
  (forall w,
      snd (remove w) = set_layer (layer (snd (remove w))) w
      /\ g (snd (remove w)) = g w /\ v (snd (remove w)) = v w
      /\ _initialized (snd (remove w)) = _initialized w
      /\ assign_trace (snd (remove w)) = assign_trace w
      /\ Layer.bias (layer (snd (remove w))) = Layer.bias (layer w)
      /\ (layer (snd (remove w)) = layer w
          \/ exists k, layer (snd (remove w))
                       = with_kernel_attribute (is_rnn w) k (layer w))
      /\ forall l', fst (remove w) = Ok l' -> l' = layer (snd (remove w)))
  /\ (forall l di s w0,
         build s (__init__ l di) = (Ok tt, w0) ->
         exists k0 d baked,
           kernel_attribute (is_rnn w0) (layer w0) = Some k0
           /\ tf.last_dim (shape k0) = Ok d
           /\ g w0 = Some (tf.ones [d])
           /\ tf.mul (tf.l2_normalize k0 (seq 0 (tf.rank k0 - 1)))
                     (tf.ones [d]) = Ok baked
           /\ fst (remove w0)
              = Ok (with_kernel_attribute (is_rnn w0) baked (layer w0))
           /\ kernel_attribute (is_rnn w0) (layer (snd (remove w0)))
              = Some baked).
Proof.
  split.
  - intros w. destruct (remove_frame w) as (H1 & H2 & H3).
    split; [exact H1|].
    repeat split; try (rewrite H1; reflexivity); try assumption.
    destruct H2 as [-> | (k & ->)]; [reflexivity|].
    apply with_kernel_attribute_bias.
  - intros l di s w0 Hb.
    apply build_Ok_inv in Hb
      as (l' & k & d & _ & Hk & Hd & Hl & Hr & _ & Hv & Hg & _ & Ha & _).
    cbn in Hr.
    destruct (mul_last_Ok (tf.l2_normalize k (seq 0 (tf.rank k - 1)))
                (tf.ones [d]) d Hd eq_refl) as (baked & Hm & _).
    exists k, d, baked.
    assert (Hka : kernel_attribute (is_rnn w0) (layer w0) = Some k)
      by (rewrite Hl, Hr; exact Hk).
    split; [exact Hka|]. split; [exact Hd|]. split; [exact Hg|].
    split; [exact Hm|].
    destruct (put_kernel baked w0) as [r w'] eqn:Ep.
    pose proof Ep as Ep'.
    apply put_kernel_inv in Ep' as [(-> & Hw & Hk') | (e & -> & ->)].
    + rewrite (remove_Ok _ _ _ _ _ _ Hv Ha Hg Hm Ep). cbn. subst w'. cbn.
      split; [reflexivity|]. exact Hk'.
    + exfalso. unfold put_kernel, bind, read, modify, raise in Ep.
      unfold kernel_attribute in Hka. cbn in Ep.
      destruct (is_rnn w0); [destruct (Layer.cell (layer w0))|];
        discriminate.
Qed.

(** ** The clone of data-dependent initialization *)

Lemma fill_Ok_inv slot ws o ws' :
  Layer.fill slot ws = Ok (o, ws') ->
  Layer.of_option o ++ ws' = ws /\ (slot = None <-> o = None).
Proof.
  unfold Layer.fill. destruct slot as [old|].
  - destruct ws as [|w0 ws0]; [discriminate|].
    destruct (Layer.shape_eqb (shape old) (shape w0)); [|discriminate].
    intros H; inversion H; subst. split; [reflexivity|]. split; discriminate.
  - intros H; inversion H; subst. split; [reflexivity|]. split; reflexivity.
Qed.

Lemma set_weights_Ok_inv l ws l' :
  Layer.set_weights l ws = Ok l' ->
  Layer.get_weights l' = ws
  /\ Layer.serialize l' = Layer.serialize l
  /\ Layer.built l' = Layer.built l.
Proof.
  unfold Layer.set_weights.
  destruct (Layer.fill (Layer.kernel l) ws) as [[k ws1]|] eqn:E1;
    [|discriminate].
  destruct (Layer.fill _ ws1) as [[b ws2]|] eqn:E2; [|discriminate].
  apply fill_Ok_inv in E1 as [E1 _]. apply fill_Ok_inv in E2 as [E2 Hb].
  destruct (Layer.cell l) as [c|] eqn:Ec.
  - destruct (Layer.fill (Cell.kernel c) ws2) as [[ck ws3]|] eqn:E3;
      [|discriminate].
    destruct (Layer.fill (Cell.recurrent_kernel c) ws3) as [[cr ws4]|] eqn:E4;
      [|discriminate].
    destruct (Layer.fill (Cell.bias c) ws4) as [[cb ws5]|] eqn:E5;
      [|discriminate].
    apply fill_Ok_inv in E3 as [E3 _]. apply fill_Ok_inv in E4 as [E4 _].
    apply fill_Ok_inv in E5 as [E5 _].
    destruct ws5; [|discriminate]. intros H; inversion H; subst; clear H.
    unfold Layer.get_weights, Layer.serialize, Layer.is_recurrent. cbn.
    rewrite Ec. repeat split.
    rewrite app_nil_r.
    destruct b as [b'|]; cbn.
    + reflexivity.
    + destruct (Layer.bias l) as [[b0|]|]; cbn; try reflexivity.
      destruct Hb as [_ Hb]. specialize (Hb eq_refl). discriminate.
  - destruct ws2; [|discriminate]. intros H; inversion H; subst; clear H.
    unfold Layer.get_weights, Layer.serialize, Layer.is_recurrent. cbn.
    rewrite Ec. repeat split.
    destruct b as [b'|]; cbn.
    + reflexivity.
    + destruct (Layer.bias l) as [[b0|]|]; cbn; try reflexivity.
      destruct Hb as [_ Hb]. specialize (Hb eq_refl). discriminate.
Qed.

Lemma layer_build_Ok_inv s l l' :
  of_layer (layer_build s l) = Ok l' ->
  Layer.serialize l' = Layer.serialize l /\ Layer.built l' = true.
Proof.
  unfold layer_build. destruct (layer_add_weights s l); [discriminate|].
  cbn. intros H; inversion H; subst.
  unfold Layer.serialize, Layer.is_recurrent. cbn.
  destruct (Layer.cell l); auto.
Qed.

Lemma build_clone_inv s w w' :
  build s w = (Ok tt, w') -> data_init w = true ->
  exists c1 c2,
    of_layer (layer_build s
                (Layer.deserialize
                   (Layer.config_set_trainable false
                      (Layer.serialize (layer w'))))) = Ok c1
    /\ Layer.set_weights c1 (Layer.get_weights (layer w')) = Ok c2
    /\ _naked_clone_layer w'
       = Some (if is_rnn w then c2 else Layer.set_activation None c2).
Proof.
  unfold build, bind, modify, read, lift, ret, raise. cbn.
  repeat (break_match; cbn in *; try discriminate).
  all: intros H; inversion H; subst; clear H; cbn.
  all: intros; try discriminate.
  all: eexists _, _; split; [eassumption|]; split; [eassumption|reflexivity].
Qed.

Lemma serialize_deserialize c : Layer.serialize (Layer.deserialize c) = c.
Proof.
  destruct c as [n u b a tr r]. unfold Layer.serialize, Layer.deserialize,
    Layer.is_recurrent. cbn. destruct r; reflexivity.
Qed.

(** C9 (amended).  With data-dependent initialization, a [build] that
    returns has made a clone of the wrapped layer that is built, is not
    trainable, has the class and the configuration of the wrapped layer,
    and carries the weights of the wrapped layer.  The activation of the
    clone is disabled when the wrapped layer is not recurrent; the clone of
    a recurrent layer keeps the activation of the wrapped layer. *)
Theorem clone_is_frozen_copy l s w0 :
  build s (__init__ l true) = (Ok tt, w0) ->
  exists clone,
    _naked_clone_layer w0 = Some clone
    /\ Layer.trainable clone = false
    /\ Layer.built clone = true
    /\ Layer.get_weights clone = Layer.get_weights (layer w0)
    /\ Layer.class_name clone = Layer.class_name (layer w0)
    /\ Layer.units clone = Layer.units (layer w0)
    /\ Layer.use_bias clone = Layer.use_bias (layer w0)
    /\ (is_rnn w0 = false -> Layer.activation clone = None)
    /\ (is_rnn w0 = true ->
        Layer.activation clone = Layer.activation (layer w0)).
Proof.
  intros Hb.
  destruct (build_clone_inv _ _ _ Hb eq_refl) as (c1 & c2 & H1 & H2 & Hc).
  apply build_Ok_inv in Hb
    as (l' & k & d & _ & _ & _ & _ & Hr & _).
  apply layer_build_Ok_inv in H1 as [Hs1 Hb1].
  apply set_weights_Ok_inv in H2 as (Hw & Hs2 & Hb2).
  rewrite Hs1, serialize_deserialize in Hs2.
  cbn [is_rnn __init__] in Hc.
  assert (Hcfg : Layer.class_name c2 = Layer.class_name (layer w0)
                 /\ Layer.units c2 = Layer.units (layer w0)
                 /\ Layer.use_bias c2 = Layer.use_bias (layer w0)
                 /\ Layer.activation c2 = Layer.activation (layer w0)
                 /\ Layer.trainable c2 = false).
  { unfold Layer.serialize, Layer.config_set_trainable in Hs2. cbn in Hs2.
    inversion Hs2. auto. }
  destruct Hcfg as (Hn & Hu & Hub & Ha & Ht).
  rewrite Hr. cbn [is_rnn __init__].
  destruct (Layer.is_recurrent l).
  - exists c2. repeat split; try assumption; congruence.
  - exists (Layer.set_activation None c2). cbn.
    repeat split; try assumption; congruence.
Qed.

(** ** Norm-based initialization *)

(** C2.  With norm-based initialization, once the first forward call of a
    built wrapper has returned, the scale [g] is the Euclidean norm of the
    original kernel (the tensor [build] took as the kernel of the wrapped
    layer: its [kernel], or the [recurrent_kernel] of its cell) over all
    axes but the last, that is
    g[j] = sqrt(sum over the other indices of kernel[..., j]^2). *)
Theorem norm_based_initialization l s w0 k x out w1 :
  build s (__init__ l false) = (Ok tt, w0) ->
  kernel_attribute (is_rnn w0) (layer w0) = Some k ->
  tf.well_formed k ->
  call x w0 = (Ok out, w1) ->
  exists depth,
    tf.last_dim (shape k) = Ok depth
    /\ g w1 = Some (tf.norm k (seq 0 (tf.rank k - 1)))
    /\ tf.norm k (seq 0 (tf.rank k - 1))
       = mkTensor [depth] (map (channel_norm k) (seq 0 depth)).
Proof.
  intros Hb Hk Hwf Hc.
  apply build_Ok_inv in Hb
    as (l' & k' & d & _ & Hk' & Hd & Hl & Hr & Hdi & Hv & _ & Hld & _ & Hi & _).
  rewrite Hl, Hr in Hk.
  assert (k' = k) by congruence. subst k'. cbn in Hdi.
  exists d. split; [exact Hd|].
  split; [|exact (norm_leading_axes k d Hd)].
  rewrite (norm_leading_axes k d Hd).
  apply call_Ok_inv in Hc as (wm & g1 & Hg & Hcw & [[Hi' _] | [_ (ops & Ho)]]);
    [congruence|].
  apply initialization_Ok_inv in Ho as (policy & wp & Hp & _ & ->).
  rewrite Hdi in Hp.
  apply _init_norm_Ok_inv in Hp
    as (v0 & depth & v_flat & value & g0 & Hv0 & Hd0 & Hflat & Hval & _ & _
        & _ & ->).
  assert (v0 = k) by congruence. assert (depth = d) by congruence. subst.
  apply compute_weights_Ok_inv in Hcw
    as (v1 & axes & kernel & _ & _ & _ & _ & -> & _).
  cbn. f_equal.
  apply (norm_of_flattened k d v_flat value Hwf Hd Hflat Hval).
Qed.

(** ** Data-dependent initialization *)

Lemma correction_well_formed x_init : tf.well_formed (correction x_init).
Proof.
  unfold tf.well_formed, correction, statistics_variance, tf.moments,
    tf.reduce_mean, tf.reduce_sum, tf.map_data. cbn.
  rewrite !length_map. apply length_indices.
Qed.

(* the factor a scale of [k] times the width of the statistics receives *)
Lemma applied_correction_tiled x_init wd k scale :
  shape (correction x_init) = [wd] -> 0 < k ->
  applied_correction x_init (k * wd) scale ->
  scale = mkTensor [k * wd] (concat (repeat (data (correction x_init)) k))
  /\ (k = 1 -> scale = correction x_init).
Proof.
  intros Hs Hk (ws & Hws & Hcase). rewrite Hs in Hws. cbn in Hws.
  inversion Hws; subst ws; clear Hws.
  pose proof (correction_well_formed x_init) as Hwf.
  unfold tf.well_formed in Hwf. rewrite Hs in Hwf.
  change (tf.num_elements [wd]) with (wd * 1) in Hwf.
  rewrite Nat.mul_1_r in Hwf.
  destruct Hcase as [[Hw ->] | (Hw & H0 & Ht)].
  - assert (Hcases : k = 1 \/ wd = 0).
    { destruct wd as [|n]; [right; reflexivity|left].
      destruct k as [|[|k']]; [lia | reflexivity | exfalso; cbn in Hw; lia]. }
    split; [|reflexivity].
    destruct (correction x_init) as [sh dt]. cbn in *. subst sh.
    destruct Hcases as [-> | ->].
    + cbn. rewrite app_nil_r. do 2 f_equal. lia.
    + destruct dt; [|cbn in Hwf; lia].
      replace (k * 0) with 0 by lia. f_equal.
      clear. induction k; cbn; auto.
  - rewrite Nat.div_mul in Ht by exact H0.
    rewrite (tile_vector _ wd k Hs) in Ht. inversion Ht; subst scale.
    split; [reflexivity|]. intros ->. lia.
Qed.

(* the scale after the policy, whatever becomes of the bias *)
Lemma _data_dep_init_scale x w clone x_init g0 wd k :
  _naked_clone_layer w = Some clone ->
  layer_call clone x = inr x_init ->
  shape (correction x_init) = [wd] ->
  g w = Some g0 -> shape g0 = [k * wd] -> 0 < k ->
  g (snd (_data_dep_init x w))
  = Some (mkTensor [k * wd]
            (map (fun i =>
                    (nth i (data g0) 0
                     * nth i (concat (repeat (data (correction x_init)) k))
                           0)%R)
                 (seq 0 (k * wd)))).
Proof.
  intros Hc Hcall Hs Hg Hsg Hk.
  unfold _data_dep_init, bind at 1, getattr at 1. rewrite Hc.
  unfold bind at 1, lift at 1. rewrite Hcall. cbn [of_layer].
  destruct (tf.moments x_init (seq 0 (tf.rank x_init - 1)))
    as [m_init v_init] eqn:Em.
  assert (Hv : tf.map_data (fun x => 1 / sqrt (x + data_init_epsilon))%R v_init
               = correction x_init)
    by (unfold correction, statistics_variance; rewrite Em; reflexivity).
  rewrite Hv. clear Hv Em.
  unfold bind at 1, lift at 1. rewrite Hs. cbn [dim0].
  unfold bind at 1, getattr at 1. rewrite Hg.
  unfold bind at 1, lift at 1. rewrite Hsg. cbn [dim0].
  set (tiled := mkTensor [k * wd]
                  (concat (repeat (data (correction x_init)) k))).
  assert (Hscale :
            (if negb (wd =? k * wd)
             then if wd =? 0 then raise ZeroDivisionError
                  else lift (tf.tile (correction x_init) (k * wd / wd))
             else ret (correction x_init)) w = (Ok tiled, w)).
  { destruct (Nat.eqb_spec wd (k * wd)) as [E|E]; cbn [negb].
    - unfold ret. f_equal. f_equal.
      assert (Ha : applied_correction x_init (k * wd) (correction x_init)).
      { exists wd. rewrite Hs. split; [reflexivity|]. left. auto. }
      apply (applied_correction_tiled x_init wd k _ Hs Hk Ha).
    - destruct (Nat.eqb_spec wd 0) as [E0|E0]; [subst wd; lia|].
      unfold lift. f_equal.
      rewrite Nat.div_mul by exact E0.
      apply (tile_vector _ wd k Hs). }
  unfold bind at 1. rewrite Hscale.
  unfold bind at 1, getattr at 1. rewrite Hg.
  unfold bind at 1, lift at 1.
  unfold tf.mul. rewrite (elementwise_vectors Rmult g0 tiled (k * wd) Hsg eq_refl).
  cbn [data tiled].
  unfold bind at 1, assign_g, bind at 1, getattr at 1. rewrite Hg.
  cbn [shape]. rewrite Hsg, shape_eqb_refl.
  unfold bind at 1, modify at 1, ret at 1.
  unfold bind at 1, read at 1. cbn [layer set_g traced].
  destruct (Layer.bias (layer w)) as [[b0|]|]; try reflexivity.
  unfold bind at 1, lift at 1.
  destruct (tf.elementwise Rmult (tf.neg m_init) tiled); [|reflexivity].
  unfold bind at 1, assign_bias.
  destruct (Layer.shape_eqb (shape b0) (shape a)); reflexivity.
Qed.

(** C8.  In data-dependent initialization, when the statistics of the
    output of the clone have width [wd] and the scale [g] has width
    [k * wd] for a positive [k], the factor 1 / sqrt(variance + 1e-10)
    is applied as [k] copies of itself laid side by side: entry
    [r * wd + j] of the new scale is entry [r * wd + j] of the old scale
    times the factor of channel [j], the same for every replica [r].  When
    the widths are equal ([k = 1]) the factor is applied as it is. *)
Theorem correction_tiled_across_replicas w x clone x_init g0 wd k :
  _naked_clone_layer w = Some clone ->
  layer_call clone x = inr x_init ->
  shape (correction x_init) = [wd] ->
  g w = Some g0 -> shape g0 = [k * wd] -> 0 < k ->
  exists scale gv,
    applied_correction x_init (k * wd) scale
    /\ scale = mkTensor [k * wd]
                 (concat (repeat (data (correction x_init)) k))
    /\ (forall r j, r < k -> j < wd ->
         nth (r * wd + j) (data scale) 0%R
         = nth j (data (correction x_init)) 0%R)
    /\ (k = 1 -> scale = correction x_init)
    /\ g (snd (_data_dep_init x w)) = Some gv
    /\ shape gv = [k * wd]
    /\ (forall r j, r < k -> j < wd ->
         nth (r * wd + j) (data gv) 0%R
         = (nth (r * wd + j) (data g0) 0
            * nth j (data (correction x_init)) 0)%R).
Proof.
  intros Hc Hcall Hs Hg Hsg Hk.
  pose proof (correction_well_formed x_init) as Hwf.
  unfold tf.well_formed in Hwf. rewrite Hs in Hwf.
  change (tf.num_elements [wd]) with (wd * 1) in Hwf.
  rewrite Nat.mul_1_r in Hwf.
  assert (Ha : exists scale, applied_correction x_init (k * wd) scale).
  { destruct (Nat.eq_dec wd (k * wd)) as [E|E].
    - exists (correction x_init), wd. rewrite Hs. split; [reflexivity|].
      left. auto.
    - assert (E0 : wd <> 0) by (intros ->; lia).
      exists (mkTensor [k * wd]
                (concat (repeat (data (correction x_init)) k))), wd.
      rewrite Hs. split; [reflexivity|]. right. repeat split; auto.
      rewrite Nat.div_mul by exact E0. apply (tile_vector _ wd k Hs). }
  destruct Ha as (scale & Ha).
  destruct (applied_correction_tiled x_init wd k scale Hs Hk Ha) as [Et E1].
  assert (Hrep : forall r j, r < k -> j < wd ->
                 nth (r * wd + j)
                     (concat (repeat (data (correction x_init)) k)) 0%R
                 = nth j (data (correction x_init)) 0%R).
  { intros r j Hr Hj. rewrite <- Hwf. apply nth_concat_repeat; lia. }
  eexists scale, _. split; [exact Ha|]. split; [exact Et|].
  split; [intros r j Hr Hj; rewrite Et; apply Hrep; assumption|].
  split; [exact E1|].
  split; [apply (_data_dep_init_scale x w clone x_init g0 wd k);
          assumption|].
  split; [reflexivity|].
  intros r j Hr Hj. cbn [data].
  rewrite nth_map_seq by nia. rewrite Hrep by assumption. reflexivity.
Qed.

(* the first forward call under data-dependent initialization *)
Lemma first_call_data_dependent w x out w1 :
  data_init w = true -> _initialized w = Some false ->
  call x w = (Ok out, w1) ->
  exists clone x_init g0 wg scale gv,
    _naked_clone_layer w = Some clone
    /\ layer_call clone x = inr x_init
    /\ g w = Some g0 /\ dim0 (shape g0) = Ok wg
    /\ applied_correction x_init wg scale
    /\ tf.mul g0 scale = Ok gv
    /\ g w1 = Some gv
    /\ ((forall b, Layer.bias (layer w) <> Some (Some b))
        /\ Layer.bias (layer w1) = Layer.bias (layer w)
        \/ exists b0 bv,
            Layer.bias (layer w) = Some (Some b0)
            /\ tf.mul (tf.neg (statistics_mean x_init)) scale = Ok bv
            /\ Layer.bias (layer w1) = Some (Some bv)).
Proof.
  intros Hdi Hi Hc.
  apply call_Ok_inv in Hc as (wm & g1 & Hg & Hcw & [[Hi' _] | [_ (ops & Ho)]]);
    [congruence|].
  apply initialization_Ok_inv in Ho as (policy & wp & Hp & _ & ->).
  rewrite Hdi in Hp.
  apply _data_dep_init_Ok_inv in Hp
    as (clone & x_init & g0 & wg & scale & gv & Hcl & Hcall & Hg0 & Hwg
        & Happ & Hmul & _ & Hcase).
  apply compute_weights_Ok_inv in Hcw
    as (v1 & axes & kernel & _ & _ & _ & _ & -> & _).
  exists clone, x_init, g0, wg, scale, gv.
  repeat (split; [assumption|]).
  cbn [g layer set_layer]. rewrite with_kernel_attribute_bias.
  destruct Hcase as [(_ & Hnb & ->) | (b0 & bv & Hb & Hbv & _ & _ & ->)];
    cbn.
  - split; [reflexivity|]. left. split; [exact Hnb | reflexivity].
  - split; [reflexivity|]. right. exists b0, bv. auto.
Qed.

End Claims.

(** C3.  Data-dependent initialization.  The first forward call of a
    wrapper with [data_init] runs the batch through the clone, takes the
    mean and the variance of the output over all axes but the last, and
    assigns to the scale the old scale times 1 / sqrt(variance + 1e-10)
    (the factor laid out as the scale receives it); when the wrapped layer
    has a bias that is not [None] it assigns to that bias
    - mean * 1 / sqrt(variance + 1e-10), and otherwise leaves the bias
    attribute as it is.  For a Dense layer without activation, of zero
    bias, freshly wrapped (unit scale), with mu and sigma^2 the mean and
    variance by channel of its output on the batch: the scale becomes
    1 / sqrt(sigma^2 + 1e-10) and the bias - mu / sqrt(sigma^2 + 1e-10),
    within 1e-10 / (2 sigma^3) of 1 / sigma and, for the bias, within
    |mu| 1e-10 / (2 sigma^3) of - mu / sigma. *)
Theorem data_dependent_initialization :
  (forall (API : LayerAPI) w x out w1,
      data_init w = true -> _initialized w = Some false ->
      call x w = (Ok out, w1) ->
      exists clone x_init g0 wg scale gv,
        _naked_clone_layer w = Some clone
        /\ layer_call clone x = inr x_init
        /\ g w = Some g0 /\ dim0 (shape g0) = Ok wg
        /\ applied_correction x_init wg scale
        /\ tf.mul g0 scale = Ok gv
        /\ g w1 = Some gv
        /\ ((forall b, Layer.bias (layer w) <> Some (Some b))
            /\ Layer.bias (layer w1) = Layer.bias (layer w)
            \/ exists b0 bv,
                Layer.bias (layer w) = Some (Some b0)
                /\ tf.mul (tf.neg (statistics_mean x_init)) scale = Ok bv
                /\ Layer.bias (layer w1) = Some (Some bv)))
  /\ (forall W n u s w0 x y out w1,
         shape W = [n; u] ->
         @build (Layers.API tf.ones) s (__init__ (linear_layer W u) true)
         = (Ok tt, w0) ->
         tf.matmul x W = Ok y ->
         @call (Layers.API tf.ones) x w0 = (Ok out, w1) ->
         Layers.call (linear_layer W u) x = inr y
         /\ exists g1 b1,
             g w1 = Some g1 /\ Layer.bias (layer w1) = Some (Some b1)
             /\ shape g1 = [u] /\ shape b1 = [u]
             /\ forall j, j < u ->
                let mu := entry (statistics_mean y) j in
                let var := entry (statistics_variance y) j in
                entry g1 j = (1 * (1 / sqrt (var + data_init_epsilon)))%R
                /\ entry b1 j
                   = (- mu * (1 / sqrt (var + data_init_epsilon)))%R
                /\ ((0 < var)%R ->
                    (Rabs (entry g1 j - 1 / sqrt var)
                     <= data_init_epsilon / (2 * var * sqrt var))%R
                    /\ (Rabs (entry b1 j - - mu / sqrt var)
                        <= Rabs mu
                           * (data_init_epsilon / (2 * var * sqrt var)))%R)).
Proof.
  split; [exact @first_call_data_dependent|].
  intros W n u s w0 x y out w1 Hs Hb Hm Hc.
  split; [apply (linear_layer_call W u x y n None true Hm Hs)|].
  destruct (linear_layer_build s W n u w0 Hs Hb) as (Hcl & Hl & Hg & Hi & Hdi).
  destruct (@first_call_data_dependent (Layers.API tf.ones) w0 x out w1
              Hdi Hi Hc)
    as (clone & x_init & g0 & wg & scale & gv & Hcl' & Hcall & Hg0 & Hwg
        & Happ & Hmul & Hg1 & Hbias).
  rewrite Hcl in Hcl'. inversion Hcl'; subst clone; clear Hcl'.
  cbn [layer_call Layers.API] in Hcall.
  rewrite (linear_layer_call W u x y n None false Hm Hs) in Hcall.
  cbn in Hcall. inversion Hcall; subst x_init; clear Hcall.
  rewrite Hg in Hg0. inversion Hg0; subst g0; clear Hg0.
  cbn in Hwg. inversion Hwg; subst wg; clear Hwg.
  pose proof Hm as Hm'.
  apply matmul_Ok_inv in Hm' as (b & k & m & _ & Hw & Hy & Hwf).
  assert (m = u) by congruence. subst m.
  destruct (statistics_shape y b u Hy) as [Hsm Hsc].
  assert (scale = correction y).
  { destruct Happ as (ws & Hws & [[_ ->] | (Hne & _)]); [reflexivity|].
    rewrite Hsc in Hws. cbn in Hws. congruence. }
  subst scale.
  unfold tf.mul in Hmul.
  rewrite (elementwise_vectors Rmult (tf.ones [u]) (correction y) u
             eq_refl Hsc) in Hmul.
  inversion Hmul; subst gv; clear Hmul.
  destruct Hbias as [[Hnb _] | (b0 & bv & Hb0 & Hbv & Hb1)].
  { exfalso. apply (Hnb (tf.zeros [u])). rewrite Hl. reflexivity. }
  unfold tf.mul in Hbv.
  rewrite (elementwise_vectors Rmult (tf.neg (statistics_mean y))
             (correction y) u Hsm Hsc) in Hbv.
  inversion Hbv; subst bv; clear Hbv.
  eexists _, _. split; [exact Hg1|]. split; [exact Hb1|].
  split; [reflexivity|]. split; [reflexivity|].
  intros j Hj mu var.
  assert (Eg : entry
                 {| shape := [u];
                    data := map (fun i =>
                                   (nth i (data (tf.ones [u])) 0
                                    * nth i (data (correction y)) 0)%R)
                                (seq 0 u) |} j
               = (1 * (1 / sqrt (var + data_init_epsilon)))%R).
  { unfold entry at 1. cbn [data]. rewrite nth_map_seq by exact Hj.
    change (nth j (data (correction y)) 0%R) with (entry (correction y) j).
    rewrite (entry_correction y u j Hsc Hj).
    unfold tf.ones. cbn [data].
    rewrite nth_repeat_lt by (cbn; lia). reflexivity. }
  assert (Eb : entry
                 {| shape := [u];
                    data := map (fun i =>
                                   (nth i (data (tf.neg (statistics_mean y))) 0
                                    * nth i (data (correction y)) 0)%R)
                                (seq 0 u) |} j
               = (- mu * (1 / sqrt (var + data_init_epsilon)))%R).
  { unfold entry at 1. cbn [data]. rewrite nth_map_seq by exact Hj.
    change (nth j (data (correction y)) 0%R) with (entry (correction y) j).
    rewrite (entry_correction y u j Hsc Hj).
    unfold tf.neg, tf.map_data. cbn [data].
    rewrite (nth_map_lt Ropp (data (statistics_mean y)) j 0%R 0%R)
      by (rewrite (well_formed_vector _ u Hsm
                     (statistics_mean_well_formed y)); exact Hj).
    reflexivity. }
  split; [exact Eg|]. split; [exact Eb|].
  intros Hvar.
  destruct (inv_sqrt_shift_bound var data_init_epsilon Hvar
              data_init_epsilon_pos) as [Hlo Hhi].
  set (f := (1 / sqrt (var + data_init_epsilon))%R) in *.
  set (bound := (data_init_epsilon / (2 * var * sqrt var))%R) in *.
  match goal with
  | |- (Rabs (?a - _) <= _)%R /\ (Rabs (?b - _) <= _)%R =>
      replace a with (1 * f)%R by (symmetry; exact Eg);
      replace b with (- mu * f)%R by (symmetry; exact Eb)
  end.
  split.
  - replace (1 * f - 1 / sqrt var)%R with (- (1 / sqrt var - f))%R by ring.
    rewrite Rabs_Ropp, Rabs_pos_eq by lra. exact Hhi.
  - replace (- mu * f - - mu / sqrt var)%R
      with (mu * (1 / sqrt var - f))%R by (unfold Rdiv; ring).
    rewrite Rabs_mult, (Rabs_pos_eq (1 / sqrt var - f)) by lra.
    apply Rmult_le_compat_l; [apply Rabs_pos | exact Hhi].
Qed.

(** * Further properties *)

(** ** Repeated forward calls and removals *)

Section Repetition.
Context {API : LayerAPI}.

Lemma call_Ok_flag x w out w1 :
  call x w = (Ok out, w1) -> _initialized w1 = Some true.
Proof.
  intros Hc.
  apply call_Ok_inv in Hc as (wm & g1 & Hg & Hcw & Hcase).
  apply compute_weights_Ok_inv in Hcw
    as (v0 & axes & kernel & Hv & Ha & Hk & Hput & Hw1 & _ & Hout).
  rewrite Hw1. cbn [_initialized set_layer].
  destruct Hcase as [[Hi ->] | [_ (ops & Ho)]]; [exact Hi|].
  apply initialization_Ok_inv in Ho as (policy & wp & _ & _ & ->).
  reflexivity.
Qed.

(** X1.  Once a forward call has returned, the wrapper no longer changes:
    every further forward call, on any input, returns exactly what the
    wrapped layer's own forward computation returns on the layer as it
    stands and leaves the wrapper as it is.  In particular the same input
    gives the same output again. *)
Theorem forward_call_reaches_fixed_point (w : t) (x out : Tensor) (w1 : t) :
  call x w = (Ok out, w1) ->
  (forall y, call y w1 = (of_layer (layer_call (layer w1) y), w1))
  /\ call x w1 = (Ok out, w1).
Proof.
  intros Hc. pose proof (call_Ok_flag _ _ _ _ Hc) as Hflag.
  apply call_Ok_inv in Hc as (wm & g1 & Hg & Hcw & _).
  apply compute_weights_Ok_inv in Hcw
    as (v0 & axes & kernel & Hv & Ha & Hk & Hput & Hw1 & _ & Hout).
  destruct (put_kernel_frame _ _ _ _ Hput) as (Hv1 & Ha1 & Hg1).
  pose proof (put_kernel_Ok _ _ _ Hput) as Hput1.
  assert (Hall : forall y,
             call y w1 = (of_layer (layer_call (layer w1) y), w1)).
  { intros y. rewrite (call_initialized _ _ Hflag).
    unfold bind, getattr, compute_weights, bind, getattr, lift, read.
    rewrite Hg1, Hg, Hv1, Hv, Ha1, Ha, Hk, Hput1. reflexivity. }
  split; [exact Hall|]. rewrite Hall, Hout. reflexivity.
Qed.

Lemma put_kernel_of_attribute k w :
  kernel_attribute (is_rnn w) (with_kernel_attribute (is_rnn w) k (layer w))
  = Some k ->
  put_kernel k w
  = (Ok tt, set_layer (with_kernel_attribute (is_rnn w) k (layer w)) w).
Proof.
  unfold put_kernel, bind, read, modify, raise, with_kernel_attribute,
    kernel_attribute. cbn.
  destruct (is_rnn w); [destruct (Layer.cell (layer w)) eqn:Ec|]; cbn;
    try reflexivity.
  rewrite Ec. discriminate.
Qed.

Lemma remove_Ok_put_kernel w l w1 :
  remove w = (Ok l, w1) ->
  exists v0 axes g0 kernel,
    v w = Some v0 /\ kernel_norm_axes w = Some axes /\ g w = Some g0
    /\ tf.mul (tf.l2_normalize v0 axes) g0 = Ok kernel
    /\ put_kernel kernel w = (Ok tt, w1) /\ l = layer w1.
Proof.
  intros H. apply remove_inv in H
    as [(v0 & axes & g0 & kernel & Hv & Ha & Hg & Hk & Hw & Hka & Hl)
       | (e & He & _)]; [|discriminate].
  inversion Hl; subst l; clear Hl.
  exists v0, axes, g0, kernel. repeat split; auto.
  rewrite Hw in Hka. cbn [layer set_layer is_rnn] in Hka.
  rewrite (put_kernel_of_attribute _ _ Hka), Hw. reflexivity.
Qed.

(** X2.  A [remove] that has returned can be repeated: the second
    [remove] returns the same layer and changes nothing. *)
Theorem remove_twice (w : t) (l : Layer.t) (w1 : t) :
  remove w = (Ok l, w1) -> remove w1 = (Ok l, w1).
Proof.
  intros H. apply remove_Ok_put_kernel in H
    as (v0 & axes & g0 & kernel & Hv & Ha & Hg & Hk & Hput & ->).
  destruct (put_kernel_frame _ _ _ _ Hput) as (Hv1 & Ha1 & Hg1).
  apply remove_Ok with (v0 := v0) (axes := axes) (g0 := g0)
                       (kernel := kernel); try congruence.
  apply put_kernel_Ok with (w := w). exact Hput.
Qed.

End Repetition.

(** ** The configuration *)

Section Configuration.
Context {API : LayerAPI}.

Lemma same_configuration_refl w : same_configuration w w.
Proof. split; reflexivity. Qed.

Lemma same_configuration_trans a b c :
  same_configuration a b -> same_configuration b c -> same_configuration a c.
Proof. unfold same_configuration. intros [? ?] [? ?]. split; congruence. Qed.

Lemma serialize_with_kernel_attribute rnn k l :
  Layer.serialize (with_kernel_attribute rnn k l) = Layer.serialize l.
Proof.
  unfold with_kernel_attribute, Layer.serialize, Layer.is_recurrent.
  destruct rnn; [destruct (Layer.cell l) eqn:E|]; cbn; rewrite ?E; reflexivity.
Qed.

Lemma put_kernel_same_configuration k :
  respects same_configuration (put_kernel k).
Proof.
  intros w. destruct (put_kernel k w) as [r w'] eqn:E.
  apply put_kernel_inv in E as [(_ & -> & _) | (e & _ & ->)]; cbn.
  - split; [apply serialize_with_kernel_attribute | reflexivity].
  - apply same_configuration_refl.
Qed.

Ltac respects_same_configuration :=
  pose proof same_configuration_refl; pose proof same_configuration_trans;
  repeat first [ apply put_kernel_same_configuration | respects_step ];
  try (apply respects_modify; intros; split; reflexivity).

Lemma call_same_configuration x : respects same_configuration (call x).
Proof.
  unfold call, _initialize_weights, _data_dep_init, _init_norm,
    compute_weights, assign_g, assign_bias, assign_initialized.
  respects_same_configuration.
Qed.

Lemma remove_same_configuration : respects same_configuration remove.
Proof. unfold remove. respects_same_configuration. Qed.

Lemma layer_build_serialize s l l' :
  layer_build s l = inr l' -> Layer.serialize l' = Layer.serialize l.
Proof.
  unfold layer_build. destruct (layer_add_weights s l); [discriminate|].
  intros H; inversion H; subst; clear H.
  unfold Layer.serialize, Layer.with_variables, Layer.is_recurrent. cbn.
  destruct (Layer.cell l); reflexivity.
Qed.

Lemma build_same_configuration s : respects same_configuration (build s).
Proof.
  intros w. unfold build, bind, modify, read, lift, ret, raise. cbn.
  repeat (break_match; cbn in *; try discriminate).
  all: split; cbn; try reflexivity.
  all: try match goal with
         | H : of_layer (layer_build ?s0 ?l0) = Ok _ |- _ =>
             destruct (layer_build s0 l0) eqn:Eb; cbn in H;
             [discriminate|]; inversion H; subst;
             apply (layer_build_serialize _ _ _ Eb)
         end.
Qed.

(** X3.  The configuration [get_config] returns is the serialized wrapped
    layer and the [data_init] flag the constructor was given; [build],
    forward calls, removals, shape inference and [get_config] itself,
    returning or raising, never change it.  The scale, the direction and
    the initialized flag are no part of it. *)
Theorem configuration_never_changes :
  (forall s w, get_config (snd (build s w)) = get_config w)
  /\ (forall ops w, get_config (after_all ops w) = get_config w)
  /\ (forall l di, get_config (__init__ l di) = (Layer.serialize l, di)).
Proof.
  assert (H : forall w w', same_configuration w w' ->
                           get_config w' = get_config w).
  { intros w w' [H1 H2]. unfold get_config. rewrite H1, H2. reflexivity. }
  split; [|split].
  - intros s w. apply H, build_same_configuration.
  - intros ops. induction ops as [|op ops IH]; intros w; [reflexivity|].
    cbn [after_all fold_left]. 
    change (get_config (after_all ops (after op w)) = get_config w).
    rewrite IH. apply H. destruct op; cbn.
    + apply call_same_configuration.
    + apply remove_same_configuration.
    + apply same_configuration_refl.
    + apply same_configuration_refl.
  - reflexivity.
Qed.

End Configuration.

(** ** What [build] leaves *)

Section Frames.
Context {API : LayerAPI}.

(** X4.  No sequence of operations of the wrapper, returning or raising,
    changes the direction [v], the axes of the norm, the depth, the clone,
    [is_rnn] or [data_init], nor the shape of the scale [g]. *)
Theorem operations_keep_parameters (ops : list Op) (w : t) :
  v (after_all ops w) = v w
  /\ kernel_norm_axes (after_all ops w) = kernel_norm_axes w
  /\ layer_depth (after_all ops w) = layer_depth w
  /\ _naked_clone_layer (after_all ops w) = _naked_clone_layer w
  /\ is_rnn (after_all ops w) = is_rnn w
  /\ data_init (after_all ops w) = data_init w
  /\ option_map shape (g (after_all ops w)) = option_map shape (g w).
Proof.
  destruct (after_all_same_parameters ops w) as (H1 & H2 & H3 & H4 & H5 & H6).
  pose proof (after_all_same_scale_shape ops w) as H7.
  repeat split; assumption.
Qed.

Lemma build_Ok_more s w w' :
  build s w = (Ok tt, w') ->
  input_spec w' = Some (None :: map (@Some nat) (tl s))
  /\ (data_init w = false -> _naked_clone_layer w' = _naked_clone_layer w).
Proof.
  unfold build, bind, modify, read, lift, ret, raise. cbn.
  repeat (break_match; cbn in *; try discriminate).
  all: intros H; inversion H; subst; clear H; cbn.
  all: split; [reflexivity|]; intros; congruence.
Qed.

Lemma ensure_built_built s l l' :
  ensure_built s l = Ok l' -> Layer.built l' = true.
Proof.
  unfold ensure_built. destruct (Layer.built l) eqn:E.
  - intros H; inversion H; subst; exact E.
  - intros H. apply layer_build_Ok_inv in H as [_ H]. exact H.
Qed.

(** X5.  A [build] that returns leaves: the direction [v] bound to the
    kernel of the wrapped layer ([kernel], or the [recurrent_kernel] of
    its cell), the scale [g] a vector of ones with one entry for each
    index of the last axis of that kernel, [layer_depth] that size,
    [kernel_norm_axes] all axes of the kernel but the last, the input
    specification [None] followed by the input shape without its first
    dimension, the wrapper and the wrapped layer built, and no clone when
    [data_init] is false. *)
Theorem build_postconditions l di s w0 :
  build s (__init__ l di) = (Ok tt, w0) ->
  exists k d,
    kernel_attribute (Layer.is_recurrent l) (layer w0) = Some k
    /\ tf.last_dim (shape k) = Ok d
    /\ v w0 = Some k
    /\ g w0 = Some (tf.ones [d])
    /\ layer_depth w0 = Some d
    /\ kernel_norm_axes w0 = Some (seq 0 (tf.rank k - 1))
    /\ input_spec w0 = Some (None :: map (@Some nat) (tl s))
    /\ built w0 = true
    /\ Layer.built (layer w0) = true
    /\ is_rnn w0 = Layer.is_recurrent l
    /\ data_init w0 = di
    /\ (di = false -> _naked_clone_layer w0 = None).
Proof.
  intros Hb. destruct (build_Ok_more _ _ _ Hb) as [Hs Hc].
  apply build_Ok_inv in Hb
    as (l' & k & d & He & Hk & Hd & Hl & Hr & Hdi & Hv & Hg & Hdep & Ha & _
        & _ & Hbuilt).
  cbn in He, Hk, Hr, Hdi, Hc.
  exists k, d. subst l'. repeat split; auto.
  apply (ensure_built_built _ _ _ He).
Qed.

End Frames.

Section Built.
Context {API : LayerAPI}.

Lemma build_inv_built s w r w' :
  build s w = (r, w') ->
  (r = Ok tt /\ built w' = true) \/ ((exists e, r = Raise e) /\ built w' = built w).
Proof.
  unfold build, bind, modify, read, lift, ret, raise. cbn.
  repeat (break_match; cbn in *; try discriminate).
  all: intros H; inversion H; subst; clear H; cbn.
  all: first [ left; split; reflexivity | right; split; [eexists|]; reflexivity ].
Qed.

Lemma build_inv_layer s w r w' :
  build s w = (r, w') -> Layer.built (layer w) = true -> layer w' = layer w.
Proof.
  unfold build, bind, modify, read, lift, ret, raise. cbn.
  repeat (break_match; cbn in *; try discriminate).
  all: intros H; inversion H; subst; clear H; cbn.
  all: intros; congruence.
Qed.

(** X6.  [build] marks the wrapper built exactly when it returns: a
    [build] that raises, at whatever step, leaves [built] false.  A wrapped
    layer that is already built is never built again nor changed by
    [build], whether [build] returns or raises. *)
Theorem build_marks_built_only_on_return l di s :
  let r := build s (__init__ l di) in
  (built (snd r) = true <-> fst r = Ok tt)
  /\ (Layer.built l = true -> layer (snd r) = l).
Proof.
  cbv zeta. destruct (build s (__init__ l di)) as [r w'] eqn:E. cbn [fst snd].
  split.
  - apply build_inv_built in E as [[-> H] | [[e ->] H]]; cbn in H.
    + split; auto.
    + split; [congruence | discriminate].
  - intros H. apply (build_inv_layer _ _ _ _ E H).
Qed.

End Built.

(** ** Widths that do not fit in data-dependent initialization *)

Section Widths.
Context {API : LayerAPI}.

Lemma broadcast_shape_vectors a b :
  tf.broadcast_shape [a] [b]
  = if a =? b then Some [a]
    else if a =? 1 then Some [b]
    else if b =? 1 then Some [a]
    else None.
Proof.
  unfold tf.broadcast_shape. cbn.
  destruct (a =? b), (a =? 1), (b =? 1); reflexivity.
Qed.

Lemma statistics_mean_shape x_init :
  shape (statistics_mean x_init) = shape (correction x_init).
Proof. reflexivity. Qed.

(** X7.  Data-dependent initialization when the width of the scale [g] is
    no multiple of the width of the statistics of the clone's output: the
    first forward call raises and changes nothing, so that the flag stays
    false.  It raises ZeroDivisionError when the statistics have width 0,
    the shape error of the assignment when [g] has width 1 (the product
    then has width 0), and the shape error of the product otherwise. *)
Theorem scale_width_not_multiple_fails w x clone x_init g0 ws wg :
  data_init w = true -> _initialized w = Some false ->
  _naked_clone_layer w = Some clone ->
  layer_call clone x = inr x_init ->
  shape (correction x_init) = [ws] ->
  g w = Some g0 -> shape g0 = [wg] ->
  (forall k, wg <> k * ws) ->
  call x w
  = (Raise (if ws =? 0 then ZeroDivisionError
            else if wg =? 1 then ValueError assign_message
            else InvalidArgumentError "Incompatible shapes"), w).
Proof.
  intros Hdi Hflag Hc Hcall Hs Hg Hsg Hk.
  rewrite (call_uninitialized _ _ Hflag).
  unfold bind at 1. unfold bind at 1. unfold initialization.
  unfold bind at 1, read at 1. rewrite Hdi.
  unfold bind at 1.
  unfold _data_dep_init, bind at 1, getattr at 1. rewrite Hc.
  unfold bind at 1, lift at 1. rewrite Hcall. cbn [of_layer].
  destruct (tf.moments x_init (seq 0 (tf.rank x_init - 1)))
    as [m_init v_init] eqn:Em.
  assert (Hv : tf.map_data (fun x => 1 / sqrt (x + data_init_epsilon))%R v_init
               = correction x_init)
    by (unfold correction, statistics_variance; rewrite Em; reflexivity).
  rewrite Hv. clear Hv Em.
  unfold bind at 1, lift at 1. rewrite Hs. cbn [dim0].
  unfold bind at 1, getattr at 1. rewrite Hg.
  unfold bind at 1, lift at 1. rewrite Hsg. cbn [dim0].
  assert (Hne : ws <> wg) by (intros ->; apply (Hk 1); lia).
  destruct (Nat.eqb_spec ws wg) as [E|_]; [contradiction|]. cbn [negb].
  destruct (Nat.eqb_spec ws 0) as [E0|E0]; [reflexivity|].
  unfold bind at 1, lift at 1.
  rewrite (tile_vector _ ws (wg / ws) Hs).
  unfold bind at 1, getattr at 1. rewrite Hg.
  unfold bind at 1, lift at 1.
  unfold tf.mul, tf.elementwise. cbn [shape]. rewrite Hsg.
  rewrite broadcast_shape_vectors.
  assert (H1 : wg <> wg / ws * ws) by apply Hk.
  assert (H2 : wg / ws * ws <> 1).
  { intros E. apply Nat.eq_mul_1 in E as [E1 E2]. subst ws.
    apply (Hk wg). lia. }
  destruct (Nat.eqb_spec wg (wg / ws * ws)) as [E|_]; [contradiction|].
  destruct (Nat.eqb_spec (wg / ws * ws) 1) as [E|_]; [contradiction|].
  destruct (Nat.eqb_spec wg 1) as [E1|E1]; [|reflexivity].
  unfold bind at 1, assign_g, bind at 1, getattr at 1. rewrite Hg.
  cbn [shape]. rewrite Hsg.
  assert (H3 : wg / ws * ws = 0).
  { subst wg. assert (1 < ws).
    { destruct ws as [|[|n]]; [lia| |lia]. exfalso. apply (Hk 1). lia. }
    rewrite Nat.div_small by lia. reflexivity. }
  rewrite H3, E1. reflexivity.
Qed.

(** X8.  Data-dependent initialization when the factor is tiled ([g] is
    [k >= 2] times as wide as the statistics, of width at least 2) and the
    wrapped layer has a bias that is not [None]: the mean is not tiled, the
    product of the mean and the tiled factor raises the shape error, and
    the forward call raises after the scale has been assigned.  The scale
    is then multiplied by the tiled factor, while the bias is unchanged
    and the flag is still false. *)
Theorem tiled_correction_fails_on_bias w x clone x_init g0 b0 ws k :
  data_init w = true -> _initialized w = Some false ->
  _naked_clone_layer w = Some clone ->
  layer_call clone x = inr x_init ->
  shape (correction x_init) = [ws] ->
  g w = Some g0 -> shape g0 = [k * ws] ->
  2 <= k -> 2 <= ws ->
  Layer.bias (layer w) = Some (Some b0) ->
  exists gv w',
    call x w = (Raise (InvalidArgumentError "Incompatible shapes"), w')
    /\ w' = traced (AssignG gv) (set_g gv w)
    /\ shape gv = [k * ws]
    /\ (forall r j, r < k -> j < ws ->
         nth (r * ws + j) (data gv) 0%R
         = (nth (r * ws + j) (data g0) 0
            * nth j (data (correction x_init)) 0)%R)
    /\ _initialized w' = Some false
    /\ Layer.bias (layer w') = Some (Some b0).
Proof.
  intros Hdi Hflag Hc Hcall Hs Hg Hsg Hk Hws Hb.
  set (tiled := mkTensor [k * ws]
                  (concat (repeat (data (correction x_init)) k))).
  set (gv := mkTensor [k * ws]
               (map (fun i => (nth i (data g0) 0 * nth i (data tiled) 0)%R)
                    (seq 0 (k * ws)))).
  exists gv, (traced (AssignG gv) (set_g gv w)).
  split; [|split; [reflexivity|split; [reflexivity|split; [|split]]]].
  - rewrite (call_uninitialized _ _ Hflag).
    unfold bind at 1. unfold bind at 1. unfold initialization.
    unfold bind at 1, read at 1. rewrite Hdi.
    unfold bind at 1.
    unfold _data_dep_init, bind at 1, getattr at 1. rewrite Hc.
    unfold bind at 1, lift at 1. rewrite Hcall. cbn [of_layer].
    pose proof (statistics_mean_shape x_init) as Hms. rewrite Hs in Hms.
    destruct (tf.moments x_init (seq 0 (tf.rank x_init - 1)))
      as [m_init v_init] eqn:Em.
    assert (Hv : tf.map_data (fun x => 1 / sqrt (x + data_init_epsilon))%R
                   v_init = correction x_init)
      by (unfold correction, statistics_variance; rewrite Em; reflexivity).
    assert (Hm : shape m_init = [ws])
      by (unfold statistics_mean in Hms; rewrite Em in Hms; exact Hms).
    rewrite Hv. clear Hv Em.
    unfold bind at 1, lift at 1. rewrite Hs. cbn [dim0].
    unfold bind at 1, getattr at 1. rewrite Hg.
    unfold bind at 1, lift at 1. rewrite Hsg. cbn [dim0].
    destruct (Nat.eqb_spec ws (k * ws)) as [E|_]; [exfalso; nia|].
    cbn [negb].
    destruct (Nat.eqb_spec ws 0) as [E0|E0]; [lia|].
    unfold bind at 1, lift at 1.
    rewrite Nat.div_mul by exact E0.
    rewrite (tile_vector _ ws k Hs). fold tiled.
    unfold bind at 1, getattr at 1. rewrite Hg.
    unfold bind at 1, lift at 1.
    unfold tf.mul.
    rewrite (elementwise_vectors Rmult g0 tiled (k * ws) Hsg eq_refl).
    fold gv.
    unfold bind at 1, assign_g, bind at 1, getattr at 1. rewrite Hg.
    cbn [shape gv]. rewrite Hsg, shape_eqb_refl.
    unfold bind at 1, modify at 1, ret at 1.
    unfold bind at 1, read at 1. cbn [layer set_g traced]. rewrite Hb.
    unfold bind at 1, lift at 1.
    unfold tf.elementwise. cbn [shape tf.neg tf.map_data tiled]. rewrite Hm.
    rewrite broadcast_shape_vectors.
    destruct (Nat.eqb_spec ws (k * ws)) as [E|_]; [exfalso; nia|].
    destruct (Nat.eqb_spec ws 1) as [E|_]; [lia|].
    destruct (Nat.eqb_spec (k * ws) 1) as [E|_]; [exfalso; nia|].
    reflexivity.
  - intros r j Hr Hj. cbn [data gv].
    assert (Hlt : r * ws + j < k * ws) by nia.
    rewrite (nth_map_seq _ _ _ _ Hlt). f_equal. cbn [data tiled].
    pose proof (correction_well_formed x_init) as Hwf.
    apply (well_formed_vector _ ws Hs) in Hwf.
    rewrite <- Hwf at 1. apply nth_concat_repeat; [exact Hr | lia].
  - exact Hflag.
  - exact Hb.
Qed.

End Widths.

(** ** The kernel a forward call binds *)

Lemma elementwise_well_formed f a b c :
  tf.elementwise f a b = Ok c -> tf.well_formed c.
Proof.
  unfold tf.elementwise, tf.well_formed.
  destruct (tf.broadcast_shape (shape a) (shape b)); [|discriminate].
  intros H; inversion H; subst; clear H. cbn.
  rewrite length_map. apply length_indices.
Qed.

Lemma tensor_ext a b :
  shape a = shape b -> tf.well_formed a -> tf.well_formed b ->
  (forall idx, In idx (tf.indices (shape a)) -> tf.get a idx = tf.get b idx) ->
  a = b.
Proof.
  intros Hs Ha Hb H.
  pose proof (get_indices a Ha) as Ea. pose proof (get_indices b Hb) as Eb.
  rewrite <- Hs in Eb.
  destruct a as [sa da], b as [sb db]. cbn in *. subst sb. f_equal.
  rewrite <- Ea, <- Eb. apply map_ext_in. exact H.
Qed.

Lemma In_indices_app_inv pre d idx :
  In idx (tf.indices (pre ++ [d])) ->
  exists p j, idx = p ++ [j] /\ In p (tf.indices pre) /\ j < d.
Proof.
  rewrite indices_app. intros H. apply in_flat_map in H as (p & Hp & H).
  apply in_map_iff in H as (j & <- & Hj). apply in_seq in Hj.
  exists p, j. repeat split; [exact Hp | lia].
Qed.

Lemma l2_normalize_epsilon_pos : (0 < tf.l2_normalize_epsilon)%R.
Proof. unfold tf.l2_normalize_epsilon. apply Rinv_0_lt_compat. lra. Qed.

(* normalizing and scaling by the norm gives the tensor back *)
Lemma normalize_times_norm k d kernel :
  tf.well_formed k -> tf.last_dim (shape k) = Ok d ->
  (forall j, j < d -> (tf.l2_normalize_epsilon <= channel_square_sum k j)%R) ->
  tf.mul (tf.l2_normalize k (seq 0 (tf.rank k - 1)))
         (mkTensor [d] (map (channel_norm k) (seq 0 d))) = Ok kernel ->
  kernel = k.
Proof.
  intros Hwf Hd Hch Hk.
  pose proof (last_dim_inv _ _ Hd) as Hshape.
  destruct (mul_last_entries
              (tf.l2_normalize k (seq 0 (tf.rank k - 1)))
              (mkTensor [d] (map (channel_norm k) (seq 0 d)))
              (removelast (shape k)) d kernel Hshape eq_refl Hk) as [Hsk He].
  cbn [shape tf.l2_normalize] in Hsk.
  apply tensor_ext; [exact Hsk | exact (elementwise_well_formed _ _ _ _ Hk)
                    | exact Hwf |].
  intros idx Hi. rewrite Hsk, Hshape in Hi.
  apply In_indices_app_inv in Hi as (p & j & -> & Hp & Hj).
  rewrite (He p j Hp Hj).
  rewrite (l2_normalize_leading_axes k _ d p j Hshape Hp Hj).
  unfold entry. cbn [data]. rewrite (nth_map_seq _ _ _ _ Hj).
  unfold channel_norm. specialize (Hch j Hj).
  pose proof l2_normalize_epsilon_pos as Hpos.
  rewrite Rmax_left by exact Hch.
  rewrite Rmult_assoc, Rinv_l; [lra|].
  apply Rgt_not_eq, sqrt_lt_R0. lra.
Qed.

Section NormKeeps.
Context {API : LayerAPI}.

Lemma with_kernel_attribute_same rnn k l :
  kernel_attribute rnn l = Some k -> with_kernel_attribute rnn k l = l.
Proof.
  unfold kernel_attribute, with_kernel_attribute.
  destruct rnn; [destruct (Layer.cell l) as [c|] eqn:Ec|].
  - intros H. destruct l, c; cbn in *. subst. reflexivity.
  - reflexivity.
  - intros H. destruct l; cbn in *. subst. reflexivity.
Qed.

(** X9.  Norm-based initialization keeps the function of the wrapped
    layer: when every channel of the kernel has a square sum of at least
    1e-12, the first forward call binds a kernel equal to the original one
    (the direction scaled by its own norm), leaves the wrapped layer as
    [build] left it and returns what the wrapped layer itself returns on
    that input. *)
Theorem norm_initialization_keeps_function l s w0 k d x out w1 :
  build s (__init__ l false) = (Ok tt, w0) ->
  kernel_attribute (is_rnn w0) (layer w0) = Some k ->
  tf.well_formed k ->
  tf.last_dim (shape k) = Ok d ->
  (forall j, j < d -> (tf.l2_normalize_epsilon <= channel_square_sum k j)%R) ->
  call x w0 = (Ok out, w1) ->
  layer w1 = layer w0
  /\ of_layer (layer_call (layer w0) x) = Ok out.
Proof.
  intros Hb Hka Hwf Hd Hch Hc.
  apply build_Ok_inv in Hb
    as (l' & k' & d' & _ & Hk' & Hd' & Hl & Hr & Hdi & Hv & Hg & Hdep & Ha
        & Hflag & _).
  cbn in Hdi. subst l'. rewrite <- Hr in Hk'.
  assert (k' = k) by congruence. subst k'.
  assert (d' = d) by congruence. subst d'.
  apply call_Ok_inv in Hc as (wm & g1 & Hg1 & Hcw & [[Hi _] | [_ (ops & Ho)]]);
    [congruence|].
  apply initialization_Ok_inv in Ho as (policy & wp & Hp & _ & ->).
  rewrite Hdi in Hp.
  apply _init_norm_Ok_inv in Hp
    as (v0 & depth & v_flat & value & g0 & Hv0 & Hdep0 & Hflat & Hval & _ & _
        & _ & ->).
  assert (v0 = k) by congruence. subst v0.
  assert (depth = d) by congruence. subst depth.
  pose proof (norm_of_flattened k d v_flat value Hwf Hd Hflat Hval) as ->.
  cbn [g traced set__initialized set_g] in Hg1.
  inversion Hg1; subst g1; clear Hg1.
  apply compute_weights_Ok_inv in Hcw
    as (v1 & axes & kernel & Hv1 & Ha1 & Hk & _ & -> & _ & Hout).
  cbn [v kernel_norm_axes traced set__initialized set_g] in Hv1, Ha1.
  assert (v1 = k) by congruence. subst v1.
  assert (axes = seq 0 (tf.rank k - 1)) by congruence. subst axes.
  apply (normalize_times_norm k d kernel Hwf Hd Hch) in Hk. subst kernel.
  cbn [layer is_rnn set_layer traced set__initialized set_g] in Hout |- *.
  rewrite (with_kernel_attribute_same _ _ _ Hka) in Hout |- *.
  split; [reflexivity | exact Hout].
Qed.

End NormKeeps.

Lemma Rsum_map_scale {A} (f : A -> R) c l :
  Rsum (map (fun a => f a * c)%R l) = (Rsum (map f l) * c)%R.
Proof.
  unfold Rsum. induction l as [|a l IH]; cbn [map fold_right]; [lra|].
  rewrite IH. lra.
Qed.

Lemma Rsum_squares_nonneg {A} (f : A -> R) l :
  (0 <= Rsum (map (fun a => f a * f a) l))%R.
Proof.
  unfold Rsum. induction l as [|a l IH]; cbn [map fold_right]; [lra|].
  pose proof (Rle_0_sqr (f a)) as H. unfold Rsqr in H. lra.
Qed.

Lemma channel_square_sum_nonneg k j : (0 <= channel_square_sum k j)%R.
Proof. apply Rsum_squares_nonneg. Qed.

(* the channels of a direction scaled entry by entry *)
Lemma channel_square_sum_scaled kernel v0 pre d j (c : R) :
  shape kernel = pre ++ [d] -> shape v0 = pre ++ [d] ->
  (forall idx, In idx (tf.indices pre) ->
               tf.get kernel (idx ++ [j]) = (tf.get v0 (idx ++ [j]) * c)%R) ->
  channel_square_sum kernel j = (channel_square_sum v0 j * (c * c))%R.
Proof.
  intros Hk Hv H. unfold channel_square_sum.
  rewrite Hk, Hv, !removelast_last.
  rewrite <- Rsum_map_scale. f_equal. apply map_ext_in.
  intros idx Hi. rewrite (H idx Hi). ring.
Qed.

Section ChannelNorm.
Context {API : LayerAPI}.

(* the kernel a forward call of a built wrapper binds *)
Lemma built_call_kernel l di s w0 ops x out w' :
  build s (__init__ l di) = (Ok tt, w0) ->
  call x (after_all ops w0) = (Ok out, w') ->
  exists v0 depth g1 kernel,
    v w' = Some v0
    /\ shape v0 = removelast (shape v0) ++ [depth]
    /\ g w' = Some g1 /\ shape g1 = [depth]
    /\ tf.mul (tf.l2_normalize v0 (seq 0 (tf.rank v0 - 1))) g1 = Ok kernel
    /\ kernel_attribute (is_rnn w') (layer w') = Some kernel.
Proof.
  intros Hb Hc.
  apply build_Ok_inv in Hb
    as (l' & k & d & _ & _ & Hd & _ & _ & _ & Hv & Hg & _ & Ha & _).
  destruct (after_all_same_parameters ops w0) as (Hv1 & Ha1 & _).
  pose proof (after_all_same_scale_shape ops w0) as Hs1.
  apply call_Ok_parameters in Hc as (wm & g1 & Hg1 & Hcw & Hp & Hs2).
  destruct Hp as (Hv2 & Ha2 & _).
  apply compute_weights_Ok_inv in Hcw
    as (v0 & axes & kernel & Hv3 & Ha3 & Hk & _ & -> & Hka & Hout).
  assert (v0 = k) by congruence. subst v0.
  assert (axes = seq 0 (tf.rank k - 1)) by congruence. subst axes.
  assert (Hsg : shape g1 = [d]).
  { unfold same_scale_shape in Hs1, Hs2.
    rewrite Hs1, Hg, Hg1 in Hs2. cbn in Hs2. congruence. }
  exists k, d, g1, kernel. repeat split; auto.
  apply last_dim_inv, Hd.
Qed.

(** X10.  The norm of each channel of the kernel a forward call binds is
    the absolute value of the entry of the scale [g] for that channel,
    whenever the square sum of the channel of [v] is at least 1e-12; it is
    never more than that. *)
Theorem effective_kernel_channel_norm l di s w0 ops x out w' :
  build s (__init__ l di) = (Ok tt, w0) ->
  call x (after_all ops w0) = (Ok out, w') ->
  exists v0 depth g1 kernel,
    v w' = Some v0 /\ tf.last_dim (shape v0) = Ok depth
    /\ g w' = Some g1
    /\ kernel_attribute (is_rnn w') (layer w') = Some kernel
    /\ forall j, j < depth ->
        (channel_norm kernel j <= Rabs (entry g1 j))%R
        /\ ((tf.l2_normalize_epsilon <= channel_square_sum v0 j)%R ->
            channel_norm kernel j = Rabs (entry g1 j)).
Proof.
  intros Hb Hc.
  destruct (built_call_kernel _ _ _ _ _ _ _ _ Hb Hc)
    as (v0 & d & g1 & kernel & Hv & Hshape & Hg & Hsg & Hk & Hka).
  exists v0, d, g1, kernel.
  split; [exact Hv|]. split; [rewrite Hshape; apply last_dim_app|].
  split; [exact Hg|]. split; [exact Hka|].
  intros j Hj.
  destruct (mul_last_entries (tf.l2_normalize v0 (seq 0 (tf.rank v0 - 1))) g1
              (removelast (shape v0)) d kernel Hshape Hsg Hk) as [Hsk He].
  cbn [shape tf.l2_normalize] in Hsk.
  set (m := Rmax (channel_square_sum v0 j) tf.l2_normalize_epsilon).
  assert (Hm : (0 < m)%R).
  { pose proof l2_normalize_epsilon_pos.
    pose proof (Rmax_r (channel_square_sum v0 j) tf.l2_normalize_epsilon).
    unfold m. lra. }
  assert (Hss : channel_square_sum kernel j
                = (channel_square_sum v0 j
                   * ((/ sqrt m * entry g1 j) * (/ sqrt m * entry g1 j)))%R).
  { apply (channel_square_sum_scaled kernel v0 (removelast (shape v0)) d);
      [congruence | exact Hshape |].
    intros idx Hi. rewrite (He idx j Hi Hj).
    rewrite (l2_normalize_leading_axes v0 _ d idx j Hshape Hi Hj).
    fold m. ring. }
  assert (Hsq : (/ sqrt m * / sqrt m = / m)%R).
  { rewrite <- Rinv_mult, sqrt_sqrt by lra. reflexivity. }
  assert (Hss' : channel_square_sum kernel j
                 = (channel_square_sum v0 j * / m
                    * (entry g1 j * entry g1 j))%R).
  { rewrite Hss.
    replace (/ sqrt m * entry g1 j * (/ sqrt m * entry g1 j))%R
      with ((/ sqrt m * / sqrt m) * (entry g1 j * entry g1 j))%R by ring.
    rewrite Hsq. ring. }
  pose proof (channel_square_sum_nonneg v0 j) as Hnn.
  assert (Hratio : (0 <= channel_square_sum v0 j * / m <= 1)%R).
  { split.
    - apply Rmult_le_pos; [exact Hnn|]. left. apply Rinv_0_lt_compat, Hm.
    - apply (Rmult_le_reg_r m); [exact Hm|].
      rewrite Rmult_assoc, Rinv_l by lra.
      pose proof (Rmax_l (channel_square_sum v0 j) tf.l2_normalize_epsilon).
      fold m in H. lra. }
  assert (Hg2 : (0 <= entry g1 j * entry g1 j)%R).
  { pose proof (Rle_0_sqr (entry g1 j)) as H. unfold Rsqr in H. exact H. }
  assert (Habs : sqrt (entry g1 j * entry g1 j) = Rabs (entry g1 j)).
  { apply sqrt_Rsqr_abs. }
  unfold channel_norm. split.
  - rewrite <- Habs. apply sqrt_le_1_alt. rewrite Hss'. nra.
  - intros Hbig. rewrite <- Habs. f_equal. rewrite Hss'.
    unfold m. rewrite Rmax_left by exact Hbig.
    pose proof l2_normalize_epsilon_pos.
    rewrite Rinv_r by lra. ring.
Qed.

End ChannelNorm.

Section NormCompletes.
Context {API : LayerAPI}.

Lemma kernel_attribute_rebound rnn k k' l :
  kernel_attribute rnn l = Some k ->
  kernel_attribute rnn (with_kernel_attribute rnn k' l) = Some k'.
Proof.
  unfold kernel_attribute, with_kernel_attribute.
  destruct rnn; [destruct (Layer.cell l)|]; cbn; congruence.
Qed.

Lemma reshape_rows_channels k d :
  tf.well_formed k -> tf.last_dim (shape k) = Ok d -> 0 < d ->
  tf.reshape_rows k d
  = Ok (mkTensor [tf.num_elements (removelast (shape k)); d] (data k)).
Proof.
  intros Hwf Hd Hpos. apply last_dim_inv in Hd.
  unfold tf.well_formed in Hwf. rewrite Hd, num_elements_app in Hwf.
  unfold tf.reshape_rows. rewrite Hwf.
  destruct (Nat.eqb_spec d 0) as [E|_]; [lia|].
  rewrite Nat.Div0.mod_mul, Nat.eqb_refl, Nat.div_mul by lia. reflexivity.
Qed.

(** X11.  With norm-based initialization, a well-formed kernel and at
    least one channel, the first forward call of a built wrapper always
    completes the initialization and reaches the wrapped layer: it fails
    only where the wrapped layer's own forward computation fails.
    Returning or not, it leaves the flag true, the scale the norm of the
    kernel over all axes but the last, the kernel attribute bound to
    l2_normalize(kernel) * norm, and exactly two assignments executed:
    the scale, then the flag. *)
Theorem norm_initialization_completes l s w0 k d x :
  build s (__init__ l false) = (Ok tt, w0) ->
  kernel_attribute (is_rnn w0) (layer w0) = Some k ->
  tf.well_formed k -> tf.last_dim (shape k) = Ok d -> 0 < d ->
  exists kernel w1,
    call x w0 = (of_layer (layer_call (layer w1) x), w1)
    /\ _initialized w1 = Some true
    /\ g w1 = Some (tf.norm k (seq 0 (tf.rank k - 1)))
    /\ tf.mul (tf.l2_normalize k (seq 0 (tf.rank k - 1)))
              (tf.norm k (seq 0 (tf.rank k - 1))) = Ok kernel
    /\ kernel_attribute (is_rnn w1) (layer w1) = Some kernel
    /\ assign_trace w1
       = [AssignG (tf.norm k (seq 0 (tf.rank k - 1))); AssignInitialized true].
Proof.
  intros Hb Hka Hwf Hd Hpos.
  apply build_Ok_inv in Hb
    as (l' & k' & d' & _ & Hk' & Hd' & Hl & Hr & Hdi & Hv & Hg & Hdep & Ha
        & Hflag & Htr & _).
  cbn in Hdi, Htr. subst l'. rewrite <- Hr in Hk'.
  assert (k' = k) by congruence. subst k'.
  assert (d' = d) by congruence. subst d'.
  set (value := tf.norm k (seq 0 (tf.rank k - 1))).
  assert (Hvalue : value = mkTensor [d] (map (channel_norm k) (seq 0 d)))
    by (apply norm_leading_axes; exact Hd).
  pose proof (reshape_rows_channels k d Hwf Hd Hpos) as Hflat.
  set (v_flat := mkTensor [tf.num_elements (removelast (shape k)); d] (data k))
    in *.
  assert (Hvec : tf.reshape_vector (tf.norm v_flat [0]) d = Ok value).
  { assert (H0 : exists value0,
               tf.reshape_vector (tf.norm v_flat [0]) d = Ok value0).
    { rewrite (norm_rows v_flat _ d eq_refl).
      unfold tf.reshape_vector. cbn [data].
      rewrite length_map, length_seq, Nat.eqb_refl. eexists. reflexivity. }
    destruct H0 as (value0 & H0). rewrite H0. f_equal.
    rewrite Hvalue.
    apply (norm_of_flattened k d v_flat value0 Hwf Hd Hflat H0). }
  assert (Hsv : shape value = [d]) by (rewrite Hvalue; reflexivity).
  destruct (mul_last_Ok (tf.l2_normalize k (seq 0 (tf.rank k - 1))) value d
              Hd Hsv) as (kernel & Hmul & _).
  set (wm := traced (AssignInitialized true)
               (set__initialized true
                  (traced (AssignG value) (set_g value w0)))).
  exists kernel,
    (set_layer (with_kernel_attribute (is_rnn wm) kernel (layer wm)) wm).
  split; [|split; [reflexivity|split; [reflexivity|split; [exact Hmul|split]]]].
  - rewrite (call_uninitialized _ _ Hflag).
    assert (Hinit : initialization x w0
                    = (Ok [AssignG value; AssignInitialized true], wm)).
    { unfold initialization, bind at 1, read at 1. rewrite Hdi.
      unfold bind at 1.
      unfold _init_norm, bind at 1, getattr at 1. rewrite Hv.
      unfold bind at 1, getattr at 1. rewrite Hdep.
      unfold bind at 1, lift at 1. rewrite Hflat.
      unfold bind at 1, lift at 1. rewrite Hvec.
      unfold bind at 1, assign_g, bind at 1, getattr at 1. rewrite Hg.
      cbn [shape tf.ones]. rewrite Hsv, shape_eqb_refl.
      unfold bind at 1, modify at 1, ret at 1. unfold ret at 1.
      unfold bind at 1, assign_initialized, bind at 1, getattr at 1.
      cbn [_initialized traced set_g]. rewrite Hflag.
      unfold bind at 1, modify at 1, ret at 1. reflexivity. }
    assert (Hgm : g wm = Some value) by reflexivity.
    assert (Hvm : v wm = Some k) by exact Hv.
    assert (Ham : kernel_norm_axes wm = Some (seq 0 (tf.rank k - 1)))
      by exact Ha.
    unfold bind at 1. unfold bind at 1. rewrite Hinit.
    unfold getattr at 1. rewrite Hgm.
    unfold compute_weights, bind at 1, getattr at 1. rewrite Hvm.
    unfold bind at 1, getattr at 1. rewrite Ham.
    unfold bind at 1, lift at 1. fold value. rewrite Hmul.
    unfold bind at 1.
    rewrite (put_kernel_of_attribute kernel _).
    + unfold bind at 1, read at 1, lift. reflexivity.
    + apply (kernel_attribute_rebound _ k). exact Hka.
  - cbn. apply (kernel_attribute_rebound _ k). exact Hka.
  - cbn. rewrite Htr. reflexivity.
Qed.

End NormCompletes.

(** ** Statistics by channel *)

Lemma reduced_count_leading q pre d :
  tf.reduced_count q (seq 0 (q + length pre)) (pre ++ [d])
  = tf.num_elements pre.
Proof.
  revert q. induction pre as [|p pre IH]; intros q;
    cbn [app tf.reduced_count length].
  - rewrite in_axes_seq.
    destruct (Nat.ltb_spec q (q + 0)); [lia | reflexivity].
  - rewrite in_axes_seq.
    destruct (Nat.ltb_spec q (q + S (length pre))); [|lia].
    replace (q + S (length pre)) with (S q + length pre) by lia.
    rewrite IH. reflexivity.
Qed.

Lemma length_channel_values x j :
  length (channel_values x j) = tf.num_elements (removelast (shape x)).
Proof. unfold channel_values. rewrite length_map. apply length_indices. Qed.

(* tf.reduce_mean over all axes but the last, entry by entry *)
Lemma reduce_mean_leading_axes x pre d :
  shape x = pre ++ [d] ->
  shape (tf.reduce_mean x (seq 0 (length pre))) = [d]
  /\ forall j, j < d ->
       entry (tf.reduce_mean x (seq 0 (length pre))) j
       = mean_of (channel_values x j).
Proof.
  intros Hs.
  unfold tf.reduce_mean, tf.map_data, tf.reduce_sum, entry.
  cbn [shape data]. rewrite Hs, (drop_axes_all_but_last pre d).
  split; [reflexivity|]. intros j Hj.
  rewrite indices_vector, !map_map.
  rewrite (nth_map_seq _ d j 0%R Hj).
  rewrite (reduced_entries_leading x pre d j Hs Hj).
  unfold mean_of. rewrite length_channel_values.
  unfold channel_values. rewrite Hs, removelast_last.
  pose proof (reduced_count_leading 0 pre d) as Hc. cbn [Nat.add] in Hc.
  rewrite Hc. reflexivity.
Qed.

(* tf.nn.moments over all axes but the last, entry by entry *)
Lemma moments_by_channel x d :
  tf.last_dim (shape x) = Ok d ->
  shape (statistics_mean x) = [d]
  /\ shape (statistics_variance x) = [d]
  /\ forall j, j < d ->
       entry (statistics_mean x) j = channel_mean x j
       /\ entry (statistics_variance x) j = channel_variance x j.
Proof.
  intros Hd. apply last_dim_inv in Hd.
  set (pre := removelast (shape x)) in *.
  assert (Hr : tf.rank x - 1 = length pre).
  { unfold tf.rank. rewrite Hd, length_app. cbn. lia. }
  unfold statistics_mean, statistics_variance, tf.moments. rewrite Hr.
  cbn [fst snd].
  destruct (reduce_mean_leading_axes x pre d Hd) as [Hsm Hm].
  set (mean := tf.reduce_mean x (seq 0 (length pre))) in *.
  set (sqdiff := mkTensor (shape x) _).
  assert (Hq : shape sqdiff = pre ++ [d]) by exact Hd.
  destruct (reduce_mean_leading_axes sqdiff pre d Hq) as [Hsv Hv].
  split; [exact Hsm|]. split; [exact Hsv|]. intros j Hj.
  split; [exact (Hm j Hj)|].
  rewrite (Hv j Hj). unfold channel_variance. f_equal.
  unfold channel_values. rewrite Hq, removelast_last. fold pre.
  rewrite map_map. apply map_ext_in. intros p Hp.
  unfold sqdiff. rewrite Hd at 1 2.
  rewrite (get_of_indices (pre ++ [d]) _ (p ++ [j])
             (In_indices_app pre d p j Hp Hj)).
  assert (Hdrop : tf.drop_axes 0 (seq 0 (length pre)) (p ++ [j]) = [j]).
  { rewrite <- (In_indices_length _ _ Hp). apply drop_axes_all_but_last. }
  rewrite Hdrop.
  assert (Hg : tf.get mean [j] = channel_mean x j).
  { unfold tf.get. rewrite Hsm. cbn [tf.offset tf.num_elements fold_right].
    replace (j * 1 + 0) with j by lia. exact (Hm j Hj). }
  rewrite Hg. reflexivity.
Qed.

(* a well-formed vector is the list of its entries *)
Lemma vector_entries t d :
  shape t = [d] -> tf.well_formed t ->
  t = mkTensor [d] (map (entry t) (seq 0 d)).
Proof.
  intros Hs Hwf. pose proof (well_formed_vector t d Hs Hwf) as Hl.
  destruct t as [sh dt]. cbn in *. subst sh. f_equal.
  rewrite <- Hl. symmetry. apply map_nth_seq_all.
Qed.

(** X12.  The statistics of data-dependent initialization, taken by
    [tf.nn.moments] over all axes but the last, are by channel [j] the
    mean of the values x[p, j] over the indices [p] of the other axes and
    their population variance (the mean of the squared differences to
    that mean). *)
Theorem statistics_by_channel x d :
  tf.last_dim (shape x) = Ok d ->
  statistics_mean x = mkTensor [d] (map (channel_mean x) (seq 0 d))
  /\ statistics_variance x
     = mkTensor [d] (map (channel_variance x) (seq 0 d)).
Proof.
  intros Hd. destruct (moments_by_channel x d Hd) as (Hsm & Hsv & He).
  split.
  - rewrite (vector_entries _ d Hsm (statistics_mean_well_formed x)) at 1.
    f_equal. apply map_ext_in. intros j Hj. apply in_seq in Hj.
    apply He. lia.
  - rewrite (vector_entries _ d Hsv (statistics_variance_well_formed x)) at 1.
    f_equal. apply map_ext_in. intros j Hj. apply in_seq in Hj.
    apply He. lia.
Qed.

Lemma Rsum_nonneg l : Forall (fun y => 0 <= y)%R l -> (0 <= Rsum l)%R.
Proof.
  unfold Rsum. induction 1 as [|y l Hy _ IH]; cbn [fold_right]; lra.
Qed.

Lemma mean_of_nonneg l : Forall (fun y => 0 <= y)%R l -> (0 <= mean_of l)%R.
Proof.
  intros H. unfold mean_of, Rdiv. apply Rmult_le_pos; [apply Rsum_nonneg, H|].
  destruct (length l) as [|n].
  - cbn. rewrite Rinv_0. lra.
  - left. apply Rinv_0_lt_compat. apply lt_0_INR. lia.
Qed.

Lemma channel_variance_nonneg x j : (0 <= channel_variance x j)%R.
Proof.
  unfold channel_variance. apply mean_of_nonneg. apply Forall_map.
  apply Forall_forall. intros y _.
  pose proof (Rle_0_sqr (y - channel_mean x j)) as H. exact H.
Qed.





Lemma In_indices_matrix n m i j :
  i < n -> j < m -> In [i; j] (tf.indices [n; m]).
Proof.
  intros Hi Hj. apply (In_indices_app [n] m [i] j); [|exact Hj].
  rewrite indices_vector. apply in_map_iff. exists i.
  split; [reflexivity | apply in_seq; lia].
Qed.

Lemma matmul_entries a b c n k m :
  shape a = [n; k] -> shape b = [k; m] -> tf.matmul a b = Ok c ->
  shape c = [n; m]
  /\ forall i j, i < n -> j < m ->
       tf.get c [i; j]
       = Rsum (map (fun p => (tf.get a [i; p] * tf.get b [p; j])%R)
                   (seq 0 k)).
Proof.
  intros Ha Hb. unfold tf.matmul. rewrite Ha, Hb, Nat.eqb_refl.
  intros H; inversion H; subst c; clear H. split; [reflexivity|].
  intros i j Hi Hj.
  rewrite (get_of_indices [n; m] _ [i; j] (In_indices_matrix n m i j Hi Hj)).
  reflexivity.
Qed.

Lemma elementwise_last_entries f a b pre d c :
  shape a = pre ++ [d] -> shape b = [d] -> tf.elementwise f a b = Ok c ->
  shape c = shape a
  /\ forall idx j,
      In idx (tf.indices pre) -> j < d ->
      tf.get c (idx ++ [j]) = f (tf.get a (idx ++ [j])) (entry b j).
Proof.
  intros Ha Hb. unfold tf.elementwise.
  rewrite Hb, Ha, (broadcast_shape_last _ _ (last_dim_app pre d)).
  intros H; inversion H; subst c; clear H. split; [reflexivity|].
  intros idx j Hi Hj.
  pose proof (In_indices_app pre d idx j Hi Hj) as Hin.
  rewrite (get_of_indices (pre ++ [d]) _ (idx ++ [j]) Hin).
  rewrite (operand_index_self _ _ (In_indices_bound _ _ Hin)).
  rewrite (operand_index_last d idx j Hj).
  f_equal. unfold tf.get, entry. rewrite Hb. cbn. f_equal. lia.
Qed.

(* the state a first forward call with data-dependent initialization
   leaves in a wrapper of a linear layer *)
Lemma linear_first_call W n u s w0 x y out w1 :
  shape W = [n; u] ->
  @build (Layers.API tf.ones) s (__init__ (linear_layer W u) true)
  = (Ok tt, w0) ->
  tf.matmul x W = Ok y ->
  @call (Layers.API tf.ones) x w0 = (Ok out, w1) ->
  exists gv bv kernel,
    tf.mul (tf.ones [u]) (correction y) = Ok gv
    /\ tf.mul (tf.neg (statistics_mean y)) (correction y) = Ok bv
    /\ tf.mul (tf.l2_normalize W (seq 0 (tf.rank W - 1))) gv = Ok kernel
    /\ exists z, tf.matmul x kernel = Ok z /\ tf.add z bv = Ok out.
Proof.
  intros Hs Hb Hm Hc.
  pose proof Hb as Hb'.
  apply build_Ok_inv in Hb'
    as (l' & k & d & He & Hk & _ & _ & Hr & _ & Hv & _ & _ & Ha & _).
  cbn in He, Hk, Hr. inversion He; subst l'; clear He.
  cbn in Hk. inversion Hk; subst k; clear Hk.
  destruct (linear_layer_build s W n u w0 Hs Hb)
    as (Hcl & Hl & Hg & Hi & Hdi).
  apply call_Ok_inv in Hc as (wm & g1 & Hg1 & Hcw & [[Hi' _] | [_ (ops & Ho)]]);
    [congruence|].
  apply initialization_Ok_inv in Ho as (policy & wp & Hp & _ & ->).
  rewrite Hdi in Hp.
  apply _data_dep_init_Ok_inv in Hp
    as (clone & x_init & g0 & wg & scale & gv & Hcl' & Hcall & Hg0 & Hwg
        & Happ & Hmul & _ & Hcase).
  rewrite Hcl in Hcl'. inversion Hcl'; subst clone; clear Hcl'.
  cbn [layer_call Layers.API] in Hcall.
  rewrite (linear_layer_call W u x y n None false Hm Hs) in Hcall.
  cbn in Hcall. inversion Hcall; subst x_init; clear Hcall.
  rewrite Hg in Hg0. inversion Hg0; subst g0; clear Hg0.
  cbn in Hwg. inversion Hwg; subst wg; clear Hwg.
  pose proof Hm as Hm'.
  apply matmul_Ok_inv in Hm' as (b & k & m & _ & Hw & Hy & Hwf).
  assert (m = u) by congruence. subst m.
  destruct (statistics_shape y b u Hy) as [Hsm Hsc].
  assert (scale = correction y).
  { destruct Happ as (ws & Hws & [[_ ->] | (Hne & _)]); [reflexivity|].
    rewrite Hsc in Hws. cbn in Hws. congruence. }
  subst scale.
  destruct Hcase as [(_ & Hnb & _) | (b0 & bv & Hb0 & Hbv & _ & _ & ->)].
  { exfalso. apply (Hnb (tf.zeros [u])). rewrite Hl. reflexivity. }
  cbn [g traced set__initialized set_layer set_g] in Hg1.
  inversion Hg1; subst g1; clear Hg1.
  apply compute_weights_Ok_inv in Hcw
    as (v1 & axes & kernel & Hv1 & Ha1 & Hker & _ & -> & _ & Hout).
  cbn [v kernel_norm_axes traced set__initialized set_layer set_g]
    in Hv1, Ha1.
  assert (v1 = W) by congruence. subst v1.
  assert (axes = seq 0 (tf.rank W - 1)) by congruence. subst axes.
  exists gv, bv, kernel. repeat split; try assumption.
  cbn [layer is_rnn traced set__initialized set_layer set_g] in Hout.
  rewrite Hr, Hl in Hout. cbn in Hout.
  destruct (tf.matmul x kernel) as [z|e]; [|discriminate].
  exists z. split; [reflexivity|].
  destruct (tf.add z bv) as [o|e]; [|discriminate].
  cbn in Hout. inversion Hout; subst o. reflexivity.
Qed.

Lemma mean_of_map_scale {A} (f : A -> R) c l :
  mean_of (map (fun a => f a * c)%R l) = (mean_of (map f l) * c)%R.
Proof.
  unfold mean_of. rewrite Rsum_map_scale, !length_map. unfold Rdiv. ring.
Qed.

Lemma Rsum_map_minus l m :
  Rsum (map (fun y => y - m)%R l) = (Rsum l - INR (length l) * m)%R.
Proof.
  unfold Rsum. induction l as [|y l IH]; cbn [map fold_right length].
  - cbn. lra.
  - rewrite IH, S_INR. lra.
Qed.

(* centring a list on its mean and scaling it *)
Lemma mean_of_standardized l s :
  l <> [] ->
  mean_of (map (fun y => (y - mean_of l) * s)%R l) = 0%R.
Proof.
  intros Hne.
  rewrite (mean_of_map_scale (fun y => y - mean_of l)%R s l).
  unfold mean_of at 1. rewrite Rsum_map_minus, length_map.
  unfold mean_of.
  assert (INR (length l) <> 0%R)
    by (apply not_0_INR; destruct l; [contradiction | discriminate]).
  field. assumption.
Qed.

Lemma Ok_inj {A} (a b : A) : Ok a = Ok b -> a = b.
Proof. intros H. inversion H. reflexivity. Qed.

Lemma entry_mk s l j : entry (mkTensor s l) j = nth j l 0%R.
Proof. reflexivity. Qed.

Lemma matrix_channel_values t b u j :
  shape t = [b; u] ->
  channel_values t j = map (fun i => tf.get t [i; j]) (seq 0 b).
Proof.
  intros Hs. unfold channel_values. rewrite Hs. cbn [removelast].
  rewrite indices_vector, map_map. reflexivity.
Qed.

(** X14.  The output of the first forward call with data-dependent
    initialization, for a Dense layer without activation, of zero bias,
    freshly wrapped, on a batch of [b > 0] samples; [y] is the output of
    the layer on the batch before wrapping, [mu] and [var] its mean and
    variance by channel.  The output is
    (y[i, j] / sqrt(max(square sum of column j of the kernel, 1e-12)) - mu)
    / sqrt(var + 1e-10).  When column [j] of the kernel has norm 1 it is
    the standardized (y[i, j] - mu) / sqrt(var + 1e-10), of mean 0 and of
    variance var / (var + 1e-10) over the batch. *)
Theorem data_dependent_first_output W n u s w0 x b y out w1 :
  shape W = [n; u] -> shape x = [b; n] -> 0 < b ->
  @build (Layers.API tf.ones) s (__init__ (linear_layer W u) true)
  = (Ok tt, w0) ->
  tf.matmul x W = Ok y ->
  @call (Layers.API tf.ones) x w0 = (Ok out, w1) ->
  shape out = [b; u]
  /\ forall j, j < u ->
       let mu := channel_mean y j in
       let var := channel_variance y j in
       (forall i, i < b ->
          tf.get out [i; j]
          = ((tf.get y [i; j]
              * / sqrt (Rmax (channel_square_sum W j) tf.l2_normalize_epsilon)
              - mu)
             * (1 / sqrt (var + data_init_epsilon)))%R)
       /\ (channel_square_sum W j = 1%R ->
           (forall i, i < b ->
              tf.get out [i; j]
              = ((tf.get y [i; j] - mu)
                 * (1 / sqrt (var + data_init_epsilon)))%R)
           /\ channel_mean out j = 0%R
           /\ channel_variance out j = (var / (var + data_init_epsilon))%R).
Proof.
  intros Hs Hx Hb Hbuild Hm Hc.
  destruct (linear_first_call W n u s w0 x y out w1 Hs Hbuild Hm Hc)
    as (gv & bv & kernel & Hgv & Hbv & Hk & z & Ez & Eo).
  destruct (matmul_entries x W y b n u Hx Hs Hm) as [Hy Hye].
  destruct (statistics_shape y b u Hy) as [Hsm Hsc].
  unfold tf.mul in Hgv, Hbv.
  rewrite (elementwise_vectors Rmult (tf.ones [u]) (correction y) u
             eq_refl Hsc) in Hgv.
  rewrite (elementwise_vectors Rmult (tf.neg (statistics_mean y))
             (correction y) u Hsm Hsc) in Hbv.
  apply Ok_inj in Hgv. apply Ok_inj in Hbv.
  assert (Hsgv : shape gv = [u]) by (rewrite <- Hgv; reflexivity).
  assert (Hsbv : shape bv = [u]) by (rewrite <- Hbv; reflexivity).
  assert (HsW : shape W = [n] ++ [u]) by exact Hs.
  destruct (mul_last_entries (tf.l2_normalize W (seq 0 (tf.rank W - 1))) gv
              [n] u kernel HsW Hsgv Hk) as [Hsk Hke].
  cbn [shape tf.l2_normalize] in Hsk. rewrite Hs in Hsk.
  destruct (matmul_entries x kernel z b n u Hx Hsk Ez) as [Hz Hze].
  assert (Hsz : shape z = [b] ++ [u]) by exact Hz.
  destruct (elementwise_last_entries Rplus z bv [b] u out Hsz Hsbv Eo)
    as [Hso Hoe].
  rewrite Hz in Hso. split; [exact Hso|].
  intros j Hj mu var.
  set (sc := (1 / sqrt (var + data_init_epsilon))%R).
  set (m := Rmax (channel_square_sum W j) tf.l2_normalize_epsilon).
  destruct (moments_by_channel y u) as (_ & _ & He);
    [rewrite Hy; reflexivity|].
  destruct (He j Hj) as [Emu Evar]. clear He.
  assert (Eg : entry gv j = (1 * sc)%R).
  { rewrite <- Hgv, entry_mk, nth_map_seq by exact Hj.
    change (nth j (data (correction y)) 0%R) with (entry (correction y) j).
    rewrite (entry_correction y u j Hsc Hj), Evar.
    unfold tf.ones. cbn [data].
    rewrite nth_repeat_lt by (cbn; lia). reflexivity. }
  assert (Eb : entry bv j = (- mu * sc)%R).
  { rewrite <- Hbv, entry_mk, nth_map_seq by exact Hj.
    change (nth j (data (correction y)) 0%R) with (entry (correction y) j).
    rewrite (entry_correction y u j Hsc Hj), Evar.
    unfold tf.neg, tf.map_data. cbn [data].
    rewrite (nth_map_lt Ropp (data (statistics_mean y)) j 0%R 0%R)
      by (rewrite (well_formed_vector _ u Hsm
                     (statistics_mean_well_formed y)); exact Hj).
    change (nth j (data (statistics_mean y)) 0%R)
      with (entry (statistics_mean y) j).
    rewrite Emu. reflexivity. }
  assert (Hentry : forall i, i < b ->
            tf.get out [i; j]
            = ((tf.get y [i; j] * / sqrt m - mu) * sc)%R).
  { intros i Hi.
    assert (Hini : In [i] (tf.indices [b])).
    { rewrite indices_vector. apply in_map_iff. exists i.
      split; [reflexivity | apply in_seq; lia]. }
    change [i; j] with ([i] ++ [j]) at 1.
    rewrite (Hoe [i] j Hini Hj). cbn [app].
    rewrite (Hze i j Hi Hj), (Hye i j Hi Hj), Eb.
    rewrite (map_ext_in _ (fun p => (tf.get x [i; p] * tf.get W [p; j])
                                    * (/ sqrt m * (1 * sc)))%R).
    - rewrite Rsum_map_scale. ring.
    - intros p Hp. apply in_seq in Hp.
      assert (Hinp : In [p] (tf.indices [n])).
      { rewrite indices_vector. apply in_map_iff. exists p.
        split; [reflexivity | apply in_seq; lia]. }
      change [p; j] with ([p] ++ [j]).
      rewrite (Hke [p] j Hinp Hj), Eg.
      rewrite (l2_normalize_leading_axes W [n] u [p] j HsW Hinp Hj).
      fold m. ring. }
  split; [exact Hentry|].
  intros Hunit.
  assert (Hm1 : m = 1%R).
  { unfold m. rewrite Hunit. apply Rmax_left.
    unfold tf.l2_normalize_epsilon. lra. }
  assert (Hentry1 : forall i, i < b ->
            tf.get out [i; j] = ((tf.get y [i; j] - mu) * sc)%R).
  { intros i Hi. rewrite (Hentry i Hi), Hm1, sqrt_1. field. }
  split; [exact Hentry1|].
  assert (Hvals : channel_values out j
                  = map (fun yv => ((yv - mu) * sc)%R) (channel_values y j)).
  { rewrite (matrix_channel_values out b u j Hso),
      (matrix_channel_values y b u j Hy), map_map.
    apply map_ext_in. intros i Hi. apply in_seq in Hi.
    apply Hentry1. lia. }
  assert (Hne : channel_values y j <> []).
  { rewrite (matrix_channel_values y b u j Hy).
    destruct b; [lia | discriminate]. }
  assert (Hmean : channel_mean out j = 0%R).
  { unfold channel_mean. rewrite Hvals.
    apply (mean_of_standardized (channel_values y j) sc Hne). }
  split; [exact Hmean|].
  unfold channel_variance at 1. rewrite Hmean, Hvals, map_map.
  rewrite (map_ext _ (fun yv => ((yv - mu) * (yv - mu)) * (sc * sc))%R)
    by (intros yv; ring).
  rewrite (mean_of_map_scale (fun yv => (yv - mu) * (yv - mu))%R).
  fold (channel_variance y j). fold var.
  pose proof (channel_variance_nonneg y j) as Hnn. fold var in Hnn.
  pose proof data_init_epsilon_pos as Hpos.
  assert (Hsq : (sc * sc = / (var + data_init_epsilon))%R).
  { unfold sc, Rdiv. rewrite Rmult_1_l, <- Rinv_mult, sqrt_sqrt by lra.
    reflexivity. }
  rewrite Hsq. reflexivity.
Qed.

(** ** Forward calls do not look at the kernel attribute *)

Lemma with_kernel_attribute_overwrite rnn k d l :
  with_kernel_attribute rnn k (with_kernel_attribute rnn d l)
  = with_kernel_attribute rnn k l.
Proof.
  unfold with_kernel_attribute.
  destruct rnn; [destruct (Layer.cell l) eqn:E|]; cbn; rewrite ?E; reflexivity.
Qed.

Lemma rebind_rebind k d w : rebind k (rebind d w) = rebind k w.
Proof.
  unfold rebind. cbn [is_rnn layer set_layer].
  rewrite with_kernel_attribute_overwrite. reflexivity.
Qed.

Lemma same_but_kernel_rebind k w : same_but_kernel w (rebind k w).
Proof. unfold same_but_kernel. rewrite rebind_rebind. reflexivity. Qed.

Lemma same_but_kernel_refl w : same_but_kernel w w.
Proof. reflexivity. Qed.

Lemma rebind_same k a b : same_but_kernel a b -> rebind k a = rebind k b.
Proof.
  intros H. rewrite <- (rebind_rebind k (mkTensor [] []) a), H.
  apply rebind_rebind.
Qed.

Section Observations.
Variables a b : t.
Hypothesis H : same_but_kernel a b.

Lemma same_but_kernel_fields :
  is_rnn a = is_rnn b /\ data_init a = data_init b /\ g a = g b
  /\ v a = v b /\ _initialized a = _initialized b
  /\ layer_depth a = layer_depth b
  /\ kernel_norm_axes a = kernel_norm_axes b
  /\ _naked_clone_layer a = _naked_clone_layer b
  /\ Layer.bias (layer a) = Layer.bias (layer b)
  /\ (Layer.cell (layer a) = None <-> Layer.cell (layer b) = None).
Proof.
  unfold same_but_kernel, rebind in H.
  assert (Hb : Layer.bias (layer a) = Layer.bias (layer b)).
  { rewrite <- (with_kernel_attribute_bias (is_rnn a) (mkTensor [] []) (layer a)),
      <- (with_kernel_attribute_bias (is_rnn b) (mkTensor [] []) (layer b)).
    apply (f_equal layer) in H. cbn in H. rewrite H. reflexivity. }
  assert (Hc : Layer.cell (layer a) = None <-> Layer.cell (layer b) = None).
  { pose proof (f_equal layer H) as Hl. pose proof (f_equal is_rnn H) as Hr.
    cbn in Hl, Hr. rewrite Hr in Hl. unfold with_kernel_attribute in Hl.
    destruct (is_rnn b).
    - destruct (Layer.cell (layer a)) eqn:Ea, (Layer.cell (layer b)) eqn:Eb;
        try (split; congruence).
      + apply (f_equal Layer.cell) in Hl. cbn in Hl. congruence.
      + apply (f_equal Layer.cell) in Hl. cbn in Hl. congruence.
    - apply (f_equal Layer.cell) in Hl. cbn in Hl. rewrite Hl. reflexivity. }
  destruct a, b. cbn in *. inversion H. subst. repeat split; auto; apply Hc.
Qed.

End Observations.

Lemma kernel_blind_ret {A} (x : A) : kernel_blind (ret x).
Proof. intros a b H. split; [reflexivity | exact H]. Qed.

Lemma kernel_blind_raise {A} e : kernel_blind (@raise A e).
Proof. intros a b H. split; [reflexivity | exact H]. Qed.

Lemma kernel_blind_lift {A} (r : Result A) : kernel_blind (lift r).
Proof. intros a b H. split; [reflexivity | exact H]. Qed.

Lemma kernel_blind_read {A} (f : t -> A) :
  (forall a b, same_but_kernel a b -> f a = f b) -> kernel_blind (read f).
Proof. intros Hf a b H. cbn. split; [f_equal; apply Hf, H | exact H]. Qed.

Lemma kernel_blind_getattr {A} name (f : t -> option A) :
  (forall a b, same_but_kernel a b -> f a = f b) ->
  kernel_blind (getattr name f).
Proof.
  intros Hf a b H. unfold getattr. rewrite (Hf a b H).
  destruct (f b); cbn; split; auto.
Qed.

Lemma kernel_blind_modify f :
  (forall a b, same_but_kernel a b -> same_but_kernel (f a) (f b)) ->
  kernel_blind (modify f).
Proof. intros Hf a b H. cbn. split; [reflexivity | apply Hf, H]. Qed.

Lemma kernel_blind_bind {A B} (c : M A) (k : A -> M B) :
  kernel_blind c -> (forall x, kernel_blind (k x)) -> kernel_blind (bind c k).
Proof.
  intros Hc Hk a b H. unfold bind. destruct (Hc a b H) as [H1 H2].
  destruct (c a) as [[x|e] a'], (c b) as [[y|e'] b']; cbn in *;
    try discriminate.
  - inversion H1; subst y. apply Hk, H2.
  - split; [congruence | exact H2].
Qed.

(* reading the layer for its bias only *)
Lemma kernel_blind_read_bias {A} (k : Layer.t -> M A) :
  (forall l, k l = k (Layer.mk "" 0 false None false false None
                               (Layer.bias l) None)) ->
  (forall y, kernel_blind (k (Layer.mk "" 0 false None false false None
                                       y None))) ->
  kernel_blind (bind (read layer) k).
Proof.
  intros Hk Hk' a b H. unfold bind, read. rewrite (Hk (layer a)), (Hk (layer b)).
  destruct (same_but_kernel_fields a b H)
    as (_ & _ & _ & _ & _ & _ & _ & _ & Hb & _).
  rewrite Hb. apply Hk', H.
Qed.

Lemma kernel_forgetting_bind {A B} (c : M A) (k : A -> M B) :
  kernel_blind c -> (forall x, kernel_forgetting (k x)) ->
  kernel_forgetting (bind c k).
Proof.
  intros Hc Hk a b H. unfold bind. destruct (Hc a b H) as [H1 H2].
  destruct (c a) as [[x|e] a'], (c b) as [[y|e'] b']; cbn in *;
    try discriminate.
  - inversion H1; subst y. apply Hk, H2.
  - split; [congruence | discriminate].
Qed.

Lemma put_kernel_rebind k w :
  put_kernel k w
  = if is_rnn w
    then match Layer.cell (layer w) with
         | None => (Raise (AttributeError "cell"), w)
         | Some _ => (Ok tt, rebind k w)
         end
    else (Ok tt, rebind k w).
Proof.
  unfold put_kernel, bind, read, modify, raise, rebind, with_kernel_attribute.
  cbn. destruct (is_rnn w); [destruct (Layer.cell (layer w))|]; reflexivity.
Qed.

Lemma kernel_forgetting_put_kernel {A} k (rest : M A) :
  kernel_forgetting (put_kernel k ;;; rest).
Proof.
  intros a b H. unfold bind. rewrite !put_kernel_rebind.
  destruct (same_but_kernel_fields a b H)
    as (Hr & _ & _ & _ & _ & _ & _ & _ & _ & Hc).
  rewrite <- Hr, (rebind_same k a b H).
  destruct (is_rnn a).
  - destruct (Layer.cell (layer a)) eqn:Ea, (Layer.cell (layer b)) eqn:Eb.
    + split; [reflexivity | intros; reflexivity].
    + destruct Hc as [_ Hc]. specialize (Hc eq_refl). discriminate.
    + destruct Hc as [Hc _]. specialize (Hc eq_refl). discriminate.
    + cbn. split; [reflexivity | discriminate].
  - split; [reflexivity | intros; reflexivity].
Qed.

Section Blind.
Context {API : LayerAPI}.

Ltac observed :=
  let a := fresh "a" in let b := fresh "b" in let H := fresh "H" in
  intros a b H;
  destruct (same_but_kernel_fields a b H)
    as (? & ? & ? & ? & ? & ? & ? & ? & ? & ?); assumption.

Lemma same_but_kernel_update (f : t -> t) :
  (forall k w, f (rebind k w) = rebind k (f w)) ->
  forall a b, same_but_kernel a b -> same_but_kernel (f a) (f b).
Proof.
  intros Hf a b H. unfold same_but_kernel in *. rewrite <- !Hf, H.
  reflexivity.
Qed.

Lemma with_kernel_attribute_set_bias rnn k x l :
  with_kernel_attribute rnn k (Layer.set_bias x l)
  = Layer.set_bias x (with_kernel_attribute rnn k l).
Proof.
  unfold with_kernel_attribute.
  destruct rnn; [destruct (Layer.cell l) eqn:E|]; cbn; rewrite ?E; reflexivity.
Qed.

Ltac blind_step :=
  match goal with
  | |- kernel_blind (bind (read layer) _) =>
      apply kernel_blind_read_bias;
      [intros; reflexivity | intro; cbn [Layer.bias]]
  | |- kernel_blind (bind _ _) => apply kernel_blind_bind; [|intro]
  | |- kernel_blind (ret _) => apply kernel_blind_ret
  | |- kernel_blind (raise _) => apply kernel_blind_raise
  | |- kernel_blind (lift _) => apply kernel_blind_lift
  | |- kernel_blind (read _) => apply kernel_blind_read; observed
  | |- kernel_blind (getattr _ _) => apply kernel_blind_getattr; observed
  | |- kernel_blind (modify _) =>
      apply kernel_blind_modify, same_but_kernel_update;
      intros; unfold rebind; cbn;
      rewrite ?with_kernel_attribute_set_bias; reflexivity
  | |- kernel_blind (if ?b then _ else _) => destruct b
  | |- kernel_blind (match ?x with _ => _ end) => destruct x
  | |- kernel_blind (let '(_, _) := ?x in _) => destruct x
  end.

Lemma _initialize_weights_kernel_blind x :
  kernel_blind (_initialize_weights x).
Proof.
  unfold _initialize_weights, _data_dep_init, _init_norm, assign_g,
    assign_bias, assign_initialized.
  repeat blind_step.
Qed.

Lemma call_kernel_forgetting x : kernel_forgetting (call x).
Proof.
  unfold call, compute_weights.
  apply kernel_forgetting_bind; [blind_step|]. intros init.
  apply kernel_forgetting_bind.
  { destruct init; [blind_step|].
    apply kernel_blind_bind; [apply _initialize_weights_kernel_blind|].
    intros _. blind_step. }
  intros g0.
  apply kernel_forgetting_bind; [blind_step|]. intros v0.
  apply kernel_forgetting_bind; [blind_step|]. intros axes.
  apply kernel_forgetting_bind; [blind_step|]. intros kernel.
  apply kernel_forgetting_put_kernel.
Qed.

(** X15.  [remove] does not disable the wrapper: a forward call made after
    a [remove], returned or raised, returns or raises what it would have
    without the [remove], and when it returns it leaves the same wrapper. *)
Theorem forward_call_after_remove (x : Tensor) (w : t) :
  fst (call x (snd (remove w))) = fst (call x w)
  /\ forall out w1,
      call x w = (Ok out, w1) -> call x (snd (remove w)) = (Ok out, w1).
Proof.
  assert (Hs : same_but_kernel w (snd (remove w))).
  { destruct (remove_frame w) as (Hw & [Hl | (k & Hl)] & _).
    - rewrite Hw, Hl, set_layer_same. apply same_but_kernel_refl.
    - rewrite Hw, Hl. apply same_but_kernel_rebind. }
  destruct (call_kernel_forgetting x w (snd (remove w)) Hs) as [H1 H2].
  split; [symmetry; exact H1|].
  intros out w1 Hc. rewrite Hc in H1, H2. cbn in H1, H2.
  specialize (H2 out eq_refl).
  destruct (call x (snd (remove w))) as [r w2]. cbn in H1, H2.
  subst. reflexivity.
Qed.

End Blind.

(** * The properties on concrete wrappers *)

Import Examples.

Ltac run := vm_compute; reflexivity.

(** C1 on the Dense wrapper, at its second forward call. *)
Lemma call_substitutes_normalized_weight_witness :
  @build api [2; 1] (__init__ dense_layer false) = (Ok tt, dense_norm_built)
  /\ @call api sample (@after_all api [OpCall sample] dense_norm_built)
     = (Ok dense_norm_output_2, dense_norm_called_2)
  /\ exists v0 depth g1 kernel,
      v dense_norm_built = Some v0 /\ v dense_norm_called_2 = Some v0
      /\ tf.last_dim (shape v0) = Ok depth
      /\ g dense_norm_called_2 = Some g1 /\ shape g1 = [depth]
      /\ tf.mul (tf.l2_normalize v0 (seq 0 (tf.rank v0 - 1))) g1 = Ok kernel
      /\ shape kernel = shape v0
      /\ (forall idx j,
            In idx (tf.indices (removelast (shape v0))) -> j < depth ->
            tf.get kernel (idx ++ [j])
            = (tf.get v0 (idx ++ [j])
               * / sqrt (Rmax (channel_square_sum v0 j)
                              tf.l2_normalize_epsilon)
               * entry g1 j)%R)
      /\ kernel_attribute (is_rnn dense_norm_called_2)
                          (layer dense_norm_called_2) = Some kernel
      /\ of_layer (@layer_call api (layer dense_norm_called_2) sample)
         = Ok dense_norm_output_2.
Proof.
  assert (H1 : @build api [2; 1] (__init__ dense_layer false)
               = (Ok tt, dense_norm_built)) by run.
  assert (H2 : @call api sample
                 (@after_all api [OpCall sample] dense_norm_built)
               = (Ok dense_norm_output_2, dense_norm_called_2)) by run.
  split; [exact H1|]. split; [exact H2|].
  exact (@call_substitutes_normalized_weight api dense_layer false [2; 1]
           dense_norm_built [OpCall sample] sample dense_norm_output_2
           dense_norm_called_2 H1 H2).
Defined.

(** C2 on the Dense wrapper: the kernel [[2]] has one channel. *)
Lemma norm_based_initialization_witness :
  @build api [2; 1] (__init__ dense_layer false) = (Ok tt, dense_norm_built)
  /\ kernel_attribute (is_rnn dense_norm_built) (layer dense_norm_built)
     = Some kernel_2
  /\ tf.well_formed kernel_2
  /\ @call api sample dense_norm_built
     = (Ok dense_norm_output, dense_norm_called)
  /\ exists depth,
      tf.last_dim (shape kernel_2) = Ok depth
      /\ g dense_norm_called
         = Some (tf.norm kernel_2 (seq 0 (tf.rank kernel_2 - 1)))
      /\ tf.norm kernel_2 (seq 0 (tf.rank kernel_2 - 1))
         = mkTensor [depth] (map (channel_norm kernel_2) (seq 0 depth)).
Proof.
  assert (H1 : @build api [2; 1] (__init__ dense_layer false)
               = (Ok tt, dense_norm_built)) by run.
  assert (H2 : kernel_attribute (is_rnn dense_norm_built)
                 (layer dense_norm_built) = Some kernel_2) by run.
  assert (H3 : tf.well_formed kernel_2) by run.
  assert (H4 : @call api sample dense_norm_built
               = (Ok dense_norm_output, dense_norm_called)) by run.
  split; [exact H1|]. split; [exact H2|]. split; [exact H3|].
  split; [exact H4|].
  exact (@norm_based_initialization api dense_layer [2; 1] dense_norm_built
           kernel_2 sample dense_norm_output dense_norm_called H1 H2 H3 H4).
Defined.

(** C4 on the Dense wrapper. *)
Lemma initialized_exactly_once_witness :
  @build api [2; 1] (__init__ dense_layer false) = (Ok tt, dense_norm_built)
  /\ @call api sample dense_norm_built
     = (Ok dense_norm_output, dense_norm_called)
  /\ _initialized dense_norm_built = Some false
  /\ assign_trace dense_norm_built = []
  /\ _initialized dense_norm_called = Some true
  /\ (exists policy,
         policy_assignments dense_norm_called policy
         /\ assign_trace dense_norm_called
            = policy ++ [AssignInitialized true])
  /\ forall ops,
      _initialized (@after_all api ops dense_norm_called) = Some true
      /\ g (@after_all api ops dense_norm_called) = g dense_norm_called
      /\ Layer.bias (layer (@after_all api ops dense_norm_called))
         = Layer.bias (layer dense_norm_called)
      /\ assign_trace (@after_all api ops dense_norm_called)
         = assign_trace dense_norm_called.
Proof.
  assert (H1 : @build api [2; 1] (__init__ dense_layer false)
               = (Ok tt, dense_norm_built)) by run.
  assert (H2 : @call api sample dense_norm_built
               = (Ok dense_norm_output, dense_norm_called)) by run.
  split; [exact H1|]. split; [exact H2|].
  destruct (@initialized_exactly_once api dense_layer false [2; 1]
              dense_norm_built H1) as (Hi & Ht & Hcall).
  split; [exact Hi|]. split; [exact Ht|].
  exact (Hcall sample dense_norm_output dense_norm_called H2).
Defined.

(** C5 on the Dense wrapper, removed after its second forward call. *)
Lemma removed_layer_output_witness :
  @call api sample dense_norm_called
  = (Ok dense_norm_output_2, dense_norm_called_2)
  /\ _initialized dense_norm_called = Some true
  /\ _initialized dense_norm_called_2 = Some true
  /\ (remove dense_norm_called_2
      = (Ok (layer dense_norm_called_2), dense_norm_called_2)
      /\ of_layer (@layer_call api (layer dense_norm_called_2) sample)
         = Ok dense_norm_output_2)
  /\ exists l' w2,
      remove dense_norm_called = (Ok l', w2)
      /\ of_layer (@layer_call api l' sample) = Ok dense_norm_output_2.
Proof.
  assert (H1 : @call api sample dense_norm_called
               = (Ok dense_norm_output_2, dense_norm_called_2)) by run.
  assert (H2 : _initialized dense_norm_called = Some true) by run.
  split; [exact H1|]. split; [exact H2|].
  destruct (@removed_layer_output api dense_norm_called sample
              dense_norm_output_2 dense_norm_called_2 H1) as (Hi & Ha & Hb).
  split; [exact Hi|]. split; [exact Ha | exact (Hb H2)].
Defined.

(** C5 as stated fails on a wrapper that was never called.  The Dense
    wrapper of kernel [[2]], norm-initialized, on the input [[1]]: a
    forward call would return [[2]] (the scale becomes the norm 2 of the
    kernel), whereas the layer [remove] returns from that same state
    computes [[1]] (the scale is still ones). *)
Lemma removed_before_first_call_differs :
  _initialized dense_norm_built = Some false
  /\ @call api sample dense_norm_built
     = (Ok dense_norm_output, dense_norm_called)
  /\ remove dense_norm_built = (Ok dense_removed_layer, dense_removed)
  /\ of_layer (@layer_call api dense_removed_layer sample)
     = Ok dense_removed_output
  /\ dense_norm_output = mkTensor [1; 1] [2%R]
  /\ dense_removed_output = mkTensor [1; 1] [1%R]
  /\ dense_removed_output <> dense_norm_output.
Proof.
  assert (Hs : sqrt (2 * 2 + 0) = 2%R).
  { replace (2 * 2 + 0)%R with (2 * 2)%R by ring. apply sqrt_square. lra. }
  assert (Hm : Rmax (2 * 2 + 0) tf.l2_normalize_epsilon = (2 * 2 + 0)%R).
  { apply Rmax_left. unfold tf.l2_normalize_epsilon. lra. }
  assert (Ec : dense_norm_output
               = mkTensor [1; 1]
                   [(1 * (2 * / sqrt (Rmax (2 * 2 + 0) tf.l2_normalize_epsilon)
                          * sqrt (2 * 2 + 0)) + 0 + 0)%R]) by run.
  assert (Er : dense_removed_output
               = mkTensor [1; 1]
                   [(1 * (2 * / sqrt (Rmax (2 * 2 + 0) tf.l2_normalize_epsilon)
                          * 1) + 0 + 0)%R]) by run.
  rewrite Hm, Hs in Ec, Er.
  assert (Ec' : dense_norm_output = mkTensor [1; 1] [2%R]).
  { rewrite Ec. do 2 f_equal. field. }
  assert (Er' : dense_removed_output = mkTensor [1; 1] [1%R]).
  { rewrite Er. do 2 f_equal. field. }
  split; [run|]. split; [run|]. split; [run|]. split; [run|].
  split; [exact Ec'|]. split; [exact Er'|].
  rewrite Ec', Er'. intros H. inversion H. lra.
Qed.

(** C6 on a layer without weights. *)
Lemma build_raises_iff_no_kernel_witness :
  (exists l', @ensure_built api [2; 1] relu_layer = Ok l'
              /\ kernel_layer_has_kernel l' = false)
  /\ fst (@build api [2; 1] (__init__ relu_layer true))
     = Raise (ValueError no_kernel_message)
  /\ g (snd (@build api [2; 1] (__init__ relu_layer true))) = None
  /\ _initialized (snd (@build api [2; 1] (__init__ relu_layer true))) = None
  /\ v (snd (@build api [2; 1] (__init__ relu_layer true))) = None
  /\ _naked_clone_layer (snd (@build api [2; 1] (__init__ relu_layer true)))
     = None
  /\ built (snd (@build api [2; 1] (__init__ relu_layer true))) = false.
Proof.
  assert (H1 : exists l', @ensure_built api [2; 1] relu_layer = Ok l'
                          /\ kernel_layer_has_kernel l' = false).
  { eexists. split; [vm_compute; reflexivity | reflexivity]. }
  destruct (@build_raises_iff_no_kernel api relu_layer true [2; 1])
    as (Hiff & Himp & _).
  split; [exact H1|].
  split; [exact (proj2 Hiff H1) | exact (Himp (proj2 Hiff H1))].
Defined.

(** C7 on the Dense wrapper, before and after its first forward call. *)
Lemma initialize_weights_asserts_uninitialized_witness :
  _initialized dense_norm_called = Some true
  /\ _initialized dense_norm_built = Some false
  /\ @_initialize_weights api sample dense_norm_called
     = (Raise assertion_failure, dense_norm_called)
  /\ fst (@_initialize_weights api sample dense_norm_built)
     <> Raise assertion_failure
  /\ fst (@call api sample dense_norm_built) <> Raise assertion_failure.
Proof.
  assert (H1 : _initialized dense_norm_called = Some true) by run.
  assert (H2 : _initialized dense_norm_built = Some false) by run.
  split; [exact H1|]. split; [exact H2|].
  destruct (@initialize_weights_asserts_uninitialized api dense_norm_called
              sample) as (Ha & _ & _).
  destruct (@initialize_weights_asserts_uninitialized api dense_norm_built
              sample) as (_ & Hb & Hc).
  split; [exact (Ha H1)|]. split; [exact (Hb H2) | exact Hc].
Defined.

(** C8 on the recurrent wrapper: statistics of width 1, a scale of width
    3. *)
Lemma correction_tiled_across_replicas_witness :
  _naked_clone_layer gru_data_built = Some gru_clone
  /\ @layer_call api gru_clone batch = inr gru_clone_output
  /\ shape (correction gru_clone_output) = [1]
  /\ g gru_data_built = Some (tf.ones [3])
  /\ shape (tf.ones [3]) = [3 * 1]
  /\ 0 < 3
  /\ exists scale gv,
      applied_correction gru_clone_output (3 * 1) scale
      /\ scale = mkTensor [3 * 1]
                   (concat (repeat (data (correction gru_clone_output)) 3))
      /\ (forall r j, r < 3 -> j < 1 ->
           nth (r * 1 + j) (data scale) 0%R
           = nth j (data (correction gru_clone_output)) 0%R)
      /\ (3 = 1 -> scale = correction gru_clone_output)
      /\ g (snd (@_data_dep_init api batch gru_data_built)) = Some gv
      /\ shape gv = [3 * 1]
      /\ (forall r j, r < 3 -> j < 1 ->
           nth (r * 1 + j) (data gv) 0%R
           = Rmult (nth (r * 1 + j) (data (tf.ones [3])) 0%R)
                   (nth j (data (correction gru_clone_output)) 0%R)).
Proof.
  assert (H1 : _naked_clone_layer gru_data_built = Some gru_clone) by run.
  assert (H2 : @layer_call api gru_clone batch = inr gru_clone_output) by run.
  assert (H3 : shape (correction gru_clone_output) = [1]) by run.
  assert (H4 : g gru_data_built = Some (tf.ones [3])) by run.
  assert (H5 : shape (tf.ones [3]) = [3 * 1]) by reflexivity.
  assert (H6 : 0 < 3) by lia.
  split; [exact H1|]. split; [exact H2|]. split; [exact H3|].
  split; [exact H4|]. split; [exact H5|]. split; [exact H6|].
  exact (@correction_tiled_across_replicas api gru_data_built batch gru_clone
           gru_clone_output (tf.ones [3]) 1 3 H1 H2 H3 H4 H5 H6).
Defined.

(** C9 on the Dense wrapper. *)
Lemma clone_is_frozen_copy_witness :
  @build api [2; 1] (__init__ dense_layer true) = (Ok tt, dense_data_built)
  /\ exists clone,
      _naked_clone_layer dense_data_built = Some clone
      /\ Layer.trainable clone = false
      /\ Layer.built clone = true
      /\ Layer.get_weights clone = Layer.get_weights (layer dense_data_built)
      /\ Layer.class_name clone = Layer.class_name (layer dense_data_built)
      /\ Layer.units clone = Layer.units (layer dense_data_built)
      /\ Layer.use_bias clone = Layer.use_bias (layer dense_data_built)
      /\ (is_rnn dense_data_built = false -> Layer.activation clone = None)
      /\ (is_rnn dense_data_built = true ->
          Layer.activation clone = Layer.activation (layer dense_data_built)).
Proof.
  assert (H1 : @build api [2; 1] (__init__ dense_layer true)
               = (Ok tt, dense_data_built)) by run.
  split; [exact H1|].
  exact (@clone_is_frozen_copy api dense_layer [2; 1] dense_data_built H1).
Defined.

(** C9 as stated fails on a recurrent layer: [build] returns, and the
    clone it made still has the activation of the wrapped layer. *)
Lemma recurrent_clone_keeps_activation :
  @build api [2; 1] (__init__ gru_layer true) = (Ok tt, gru_data_built)
  /\ _naked_clone_layer gru_data_built = Some gru_clone
  /\ Layer.trainable gru_clone = false
  /\ Layer.get_weights gru_clone = Layer.get_weights (layer gru_data_built)
  /\ Layer.activation gru_clone = Some tanh
  /\ ~ (forall clone,
           _naked_clone_layer gru_data_built = Some clone ->
           Layer.activation clone = None).
Proof.
  assert (H1 : _naked_clone_layer gru_data_built = Some gru_clone) by run.
  assert (H2 : Layer.activation gru_clone = Some tanh)
    by (vm_compute; reflexivity).
  split; [run|]. split; [exact H1|]. split; [run|]. split; [run|].
  split; [exact H2|].
  intros H. specialize (H gru_clone H1). rewrite H in H2. discriminate H2.
Qed.

(** C10 on the Dense wrapper, removed before any forward call. *)
Lemma remove_changes_only_kernel_attribute_witness :
  @build api [2; 1] (__init__ dense_layer false) = (Ok tt, dense_norm_built)
  /\ fst (remove dense_norm_built) = Ok (layer (snd (remove dense_norm_built)))
  /\ g (snd (remove dense_norm_built)) = Some (tf.ones [1])
  /\ Layer.bias (layer (snd (remove dense_norm_built)))
     = Layer.bias (layer dense_norm_built)
  /\ exists k0 d baked,
      kernel_attribute (is_rnn dense_norm_built) (layer dense_norm_built)
      = Some k0
      /\ tf.last_dim (shape k0) = Ok d
      /\ g dense_norm_built = Some (tf.ones [d])
      /\ tf.mul (tf.l2_normalize k0 (seq 0 (tf.rank k0 - 1))) (tf.ones [d])
         = Ok baked
      /\ fst (remove dense_norm_built)
         = Ok (with_kernel_attribute (is_rnn dense_norm_built) baked
                 (layer dense_norm_built))
      /\ kernel_attribute (is_rnn dense_norm_built)
                          (layer (snd (remove dense_norm_built)))
         = Some baked.
Proof.
  assert (H1 : @build api [2; 1] (__init__ dense_layer false)
               = (Ok tt, dense_norm_built)) by run.
  assert (H2 : fst (remove dense_norm_built)
               = Ok (with_kernel_attribute false
                       (returned_tensor
                          (tf.mul (tf.l2_normalize kernel_2 [0]) (tf.ones [1])))
                       dense_layer)) by run.
  destruct (@remove_changes_only_kernel_attribute api) as [Hframe Hfresh].
  destruct (Hframe dense_norm_built)
    as (_ & Hg & _ & _ & _ & Hb & _ & Hret).
  split; [exact H1|].
  split; [rewrite <- (Hret _ H2); exact H2|].
  split; [rewrite Hg; run|]. split; [exact Hb|].
  exact (Hfresh dense_layer false [2; 1] dense_norm_built H1).
Defined.

(** C3 on the Dense wrapper and the batch [[1], [3]]. *)
Lemma data_dependent_initialization_witness :
  data_init dense_data_built = true
  /\ _initialized dense_data_built = Some false
  /\ shape kernel_2 = [1; 1]
  /\ @build api [2; 1] (__init__ (linear_layer kernel_2 1) true)
     = (Ok tt, dense_data_built)
  /\ tf.matmul batch kernel_2 = Ok dense_preactivation
  /\ @call api batch dense_data_built = (Ok dense_data_output, dense_data_called)
  /\ (exists clone x_init g0 wg scale gv,
         _naked_clone_layer dense_data_built = Some clone
         /\ @layer_call api clone batch = inr x_init
         /\ g dense_data_built = Some g0 /\ dim0 (shape g0) = Ok wg
         /\ applied_correction x_init wg scale
         /\ tf.mul g0 scale = Ok gv
         /\ g dense_data_called = Some gv
         /\ ((forall b, Layer.bias (layer dense_data_built) <> Some (Some b))
             /\ Layer.bias (layer dense_data_called)
                = Layer.bias (layer dense_data_built)
             \/ exists b0 bv,
                 Layer.bias (layer dense_data_built) = Some (Some b0)
                 /\ tf.mul (tf.neg (statistics_mean x_init)) scale = Ok bv
                 /\ Layer.bias (layer dense_data_called) = Some (Some bv)))
  /\ Layers.call (linear_layer kernel_2 1) batch = inr dense_preactivation
  /\ exists g1 b1,
      g dense_data_called = Some g1
      /\ Layer.bias (layer dense_data_called) = Some (Some b1)
      /\ shape g1 = [1] /\ shape b1 = [1]
      /\ forall j, j < 1 ->
         let mu := entry (statistics_mean dense_preactivation) j in
         let var := entry (statistics_variance dense_preactivation) j in
         entry g1 j = (1 * (1 / sqrt (var + data_init_epsilon)))%R
         /\ entry b1 j = (- mu * (1 / sqrt (var + data_init_epsilon)))%R
         /\ ((0 < var)%R ->
             (Rabs (entry g1 j - 1 / sqrt var)
              <= data_init_epsilon / (2 * var * sqrt var))%R
             /\ (Rabs (entry b1 j - - mu / sqrt var)
                 <= Rabs mu * (data_init_epsilon / (2 * var * sqrt var)))%R).
Proof.
  assert (H1 : data_init dense_data_built = true) by run.
  assert (H2 : _initialized dense_data_built = Some false) by run.
  assert (H3 : shape kernel_2 = [1; 1]) by reflexivity.
  assert (H4 : @build api [2; 1] (__init__ (linear_layer kernel_2 1) true)
               = (Ok tt, dense_data_built)) by run.
  assert (H5 : tf.matmul batch kernel_2 = Ok dense_preactivation) by run.
  assert (H6 : @call api batch dense_data_built
               = (Ok dense_data_output, dense_data_called)) by run.
  destruct data_dependent_initialization as [Ha Hb].
  split; [exact H1|]. split; [exact H2|]. split; [exact H3|].
  split; [exact H4|]. split; [exact H5|]. split; [exact H6|].
  split; [exact (Ha api dense_data_built batch dense_data_output
                    dense_data_called H1 H2 H6)|].
  exact (Hb kernel_2 1 1 [2; 1] dense_data_built batch dense_preactivation
            dense_data_output dense_data_called H3 H4 H5 H6).
Defined.

Import MoreExamples.

(** ** The further properties on concrete wrappers *)

(** X1 on the Dense wrapper: its first forward call, then any other. *)
Lemma forward_call_reaches_fixed_point_witness :
  @call api sample dense_norm_built
  = (Ok dense_norm_output, dense_norm_called)
  /\ (forall y, @call api y dense_norm_called
                = (of_layer (@layer_call api (layer dense_norm_called) y),
                   dense_norm_called))
  /\ @call api sample dense_norm_called
     = (Ok dense_norm_output, dense_norm_called).
Proof.
  assert (H1 : @call api sample dense_norm_built
               = (Ok dense_norm_output, dense_norm_called)) by run.
  split; [exact H1|].
  exact (@forward_call_reaches_fixed_point api dense_norm_built sample
           dense_norm_output dense_norm_called H1).
Defined.

(** X2 on the Dense wrapper, removed before any forward call. *)
Lemma remove_twice_witness :
  remove dense_norm_built = (Ok dense_removed_layer, dense_removed)
  /\ remove dense_removed = (Ok dense_removed_layer, dense_removed).
Proof.
  assert (H1 : remove dense_norm_built
               = (Ok dense_removed_layer, dense_removed)) by run.
  split; [exact H1|].
  exact (remove_twice dense_norm_built dense_removed_layer dense_removed H1).
Defined.

(** X5 on the Dense wrapper. *)
Lemma build_postconditions_witness :
  @build api [2; 1] (__init__ dense_layer false) = (Ok tt, dense_norm_built)
  /\ exists k d,
      kernel_attribute (Layer.is_recurrent dense_layer)
                       (layer dense_norm_built) = Some k
      /\ tf.last_dim (shape k) = Ok d
      /\ v dense_norm_built = Some k
      /\ g dense_norm_built = Some (tf.ones [d])
      /\ layer_depth dense_norm_built = Some d
      /\ kernel_norm_axes dense_norm_built = Some (seq 0 (tf.rank k - 1))
      /\ input_spec dense_norm_built
         = Some (None :: map (@Some nat) (tl [2; 1]))
      /\ built dense_norm_built = true
      /\ Layer.built (layer dense_norm_built) = true
      /\ is_rnn dense_norm_built = Layer.is_recurrent dense_layer
      /\ data_init dense_norm_built = false
      /\ (false = false -> _naked_clone_layer dense_norm_built = None).
Proof.
  assert (H1 : @build api [2; 1] (__init__ dense_layer false)
               = (Ok tt, dense_norm_built)) by run.
  split; [exact H1|].
  exact (@build_postconditions api dense_layer false [2; 1] dense_norm_built
           H1).
Defined.

(** X6 on the Dense layer, which is built when it is wrapped. *)
Lemma build_marks_built_only_on_return_witness :
  Layer.built dense_layer = true
  /\ fst (@build api [2; 1] (__init__ dense_layer true)) = Ok tt
  /\ built (snd (@build api [2; 1] (__init__ dense_layer true))) = true
  /\ layer (snd (@build api [2; 1] (__init__ dense_layer true)))
     = dense_layer.
Proof.
  assert (H1 : Layer.built dense_layer = true) by reflexivity.
  assert (H2 : fst (@build api [2; 1] (__init__ dense_layer true)) = Ok tt)
    by run.
  destruct (@build_marks_built_only_on_return api dense_layer true [2; 1])
    as [Hiff Hl].
  split; [exact H1|]. split; [exact H2|].
  split; [exact (proj2 Hiff H2) | exact (Hl H1)].
Defined.

(** X7 on the transposed layer: statistics of width 2, a scale of width
    3. *)
Lemma scale_width_not_multiple_fails_witness :
  data_init transposed_3_built = true
  /\ _initialized transposed_3_built = Some false
  /\ _naked_clone_layer transposed_3_built
     = Some (clone_of transposed_3_built)
  /\ @layer_call Transposed.API (clone_of transposed_3_built) frame_3
     = inr (clone_output transposed_3_built frame_3)
  /\ shape (correction (clone_output transposed_3_built frame_3)) = [2]
  /\ g transposed_3_built = Some (tf.ones [3])
  /\ shape (tf.ones [3]) = [3]
  /\ (forall k, 3 <> k * 2)
  /\ @call Transposed.API frame_3 transposed_3_built
     = (Raise (if 2 =? 0 then ZeroDivisionError
               else if 3 =? 1 then ValueError assign_message
               else InvalidArgumentError "Incompatible shapes"),
        transposed_3_built).
Proof.
  assert (H1 : data_init transposed_3_built = true) by run.
  assert (H2 : _initialized transposed_3_built = Some false) by run.
  assert (H3 : _naked_clone_layer transposed_3_built
               = Some (clone_of transposed_3_built)) by run.
  assert (H4 : @layer_call Transposed.API (clone_of transposed_3_built)
                 frame_3
               = inr (clone_output transposed_3_built frame_3)) by run.
  assert (H5 : shape (correction (clone_output transposed_3_built frame_3))
               = [2]) by run.
  assert (H6 : g transposed_3_built = Some (tf.ones [3])) by run.
  assert (H7 : shape (tf.ones [3]) = [3]) by reflexivity.
  assert (H8 : forall k, 3 <> k * 2) by (intros k; lia).
  split; [exact H1|]. split; [exact H2|]. split; [exact H3|].
  split; [exact H4|]. split; [exact H5|]. split; [exact H6|].
  split; [exact H7|]. split; [exact H8|].
  exact (@scale_width_not_multiple_fails Transposed.API transposed_3_built
           frame_3 (clone_of transposed_3_built)
           (clone_output transposed_3_built frame_3) (tf.ones [3]) 2 3
           H1 H2 H3 H4 H5 H6 H7 H8).
Defined.

(** X8 on the transposed layer: statistics of width 2, a scale of width
    4, a bias. *)
Lemma tiled_correction_fails_on_bias_witness :
  data_init transposed_4_built = true
  /\ _initialized transposed_4_built = Some false
  /\ _naked_clone_layer transposed_4_built
     = Some (clone_of transposed_4_built)
  /\ @layer_call Transposed.API (clone_of transposed_4_built) frame_4
     = inr (clone_output transposed_4_built frame_4)
  /\ shape (correction (clone_output transposed_4_built frame_4)) = [2]
  /\ g transposed_4_built = Some (tf.ones [4])
  /\ shape (tf.ones [4]) = [2 * 2]
  /\ 2 <= 2
  /\ Layer.bias (layer transposed_4_built) = Some (Some (tf.zeros [2]))
  /\ exists gv w',
      @call Transposed.API frame_4 transposed_4_built
      = (Raise (InvalidArgumentError "Incompatible shapes"), w')
      /\ w' = traced (AssignG gv) (set_g gv transposed_4_built)
      /\ shape gv = [2 * 2]
      /\ (forall r j, r < 2 -> j < 2 ->
           nth (r * 2 + j) (data gv) 0%R
           = Rmult (nth (r * 2 + j) (data (tf.ones [4])) 0%R)
                   (nth j (data (correction
                                   (clone_output transposed_4_built
                                      frame_4))) 0%R))
      /\ _initialized w' = Some false
      /\ Layer.bias (layer w') = Some (Some (tf.zeros [2])).
Proof.
  assert (H1 : data_init transposed_4_built = true) by run.
  assert (H2 : _initialized transposed_4_built = Some false) by run.
  assert (H3 : _naked_clone_layer transposed_4_built
               = Some (clone_of transposed_4_built)) by run.
  assert (H4 : @layer_call Transposed.API (clone_of transposed_4_built)
                 frame_4
               = inr (clone_output transposed_4_built frame_4)) by run.
  assert (H5 : shape (correction (clone_output transposed_4_built frame_4))
               = [2]) by run.
  assert (H6 : g transposed_4_built = Some (tf.ones [4])) by run.
  assert (H7 : shape (tf.ones [4]) = [2 * 2]) by reflexivity.
  assert (H8 : 2 <= 2) by lia.
  assert (H9 : Layer.bias (layer transposed_4_built)
               = Some (Some (tf.zeros [2]))) by run.
  split; [exact H1|]. split; [exact H2|]. split; [exact H3|].
  split; [exact H4|]. split; [exact H5|]. split; [exact H6|].
  split; [exact H7|]. split; [exact H8|]. split; [exact H9|].
  exact (@tiled_correction_fails_on_bias Transposed.API transposed_4_built
           frame_4 (clone_of transposed_4_built)
           (clone_output transposed_4_built frame_4) (tf.ones [4])
           (tf.zeros [2]) 2 2 H1 H2 H3 H4 H5 H6 H7 H8 H8 H9).
Defined.

(** X9 on the Dense wrapper: the column of the kernel [[2]] has the
    square sum 4. *)
Lemma norm_initialization_keeps_function_witness :
  @build api [2; 1] (__init__ dense_layer false) = (Ok tt, dense_norm_built)
  /\ kernel_attribute (is_rnn dense_norm_built) (layer dense_norm_built)
     = Some kernel_2
  /\ tf.well_formed kernel_2
  /\ tf.last_dim (shape kernel_2) = Ok 1
  /\ (forall j, j < 1 ->
        (tf.l2_normalize_epsilon <= channel_square_sum kernel_2 j)%R)
  /\ @call api sample dense_norm_built
     = (Ok dense_norm_output, dense_norm_called)
  /\ layer dense_norm_called = layer dense_norm_built
  /\ of_layer (@layer_call api (layer dense_norm_built) sample)
     = Ok dense_norm_output.
Proof.
  assert (H1 : @build api [2; 1] (__init__ dense_layer false)
               = (Ok tt, dense_norm_built)) by run.
  assert (H2 : kernel_attribute (is_rnn dense_norm_built)
                                (layer dense_norm_built) = Some kernel_2)
    by run.
  assert (H3 : tf.well_formed kernel_2) by reflexivity.
  assert (H4 : tf.last_dim (shape kernel_2) = Ok 1) by reflexivity.
  assert (H5 : forall j, j < 1 ->
                 (tf.l2_normalize_epsilon <= channel_square_sum kernel_2 j)%R).
  { intros j Hj. destruct j as [|j]; [|lia].
    unfold tf.l2_normalize_epsilon, channel_square_sum. cbn. lra. }
  assert (H6 : @call api sample dense_norm_built
               = (Ok dense_norm_output, dense_norm_called)) by run.
  split; [exact H1|]. split; [exact H2|]. split; [exact H3|].
  split; [exact H4|]. split; [exact H5|]. split; [exact H6|].
  exact (@norm_initialization_keeps_function api dense_layer [2; 1]
           dense_norm_built kernel_2 1 sample dense_norm_output
           dense_norm_called H1 H2 H3 H4 H5 H6).
Defined.

(** X10 on the Dense wrapper, at its second forward call. *)
Lemma effective_kernel_channel_norm_witness :
  @build api [2; 1] (__init__ dense_layer false) = (Ok tt, dense_norm_built)
  /\ @call api sample (@after_all api [OpCall sample] dense_norm_built)
     = (Ok dense_norm_output_2, dense_norm_called_2)
  /\ exists v0 depth g1 kernel,
      v dense_norm_called_2 = Some v0
      /\ tf.last_dim (shape v0) = Ok depth
      /\ g dense_norm_called_2 = Some g1
      /\ kernel_attribute (is_rnn dense_norm_called_2)
                          (layer dense_norm_called_2) = Some kernel
      /\ forall j, j < depth ->
          (channel_norm kernel j <= Rabs (entry g1 j))%R
          /\ ((tf.l2_normalize_epsilon <= channel_square_sum v0 j)%R ->
              channel_norm kernel j = Rabs (entry g1 j)).
Proof.
  assert (H1 : @build api [2; 1] (__init__ dense_layer false)
               = (Ok tt, dense_norm_built)) by run.
  assert (H2 : @call api sample
                 (@after_all api [OpCall sample] dense_norm_built)
               = (Ok dense_norm_output_2, dense_norm_called_2)) by run.
  split; [exact H1|]. split; [exact H2|].
  exact (@effective_kernel_channel_norm api dense_layer false [2; 1]
           dense_norm_built [OpCall sample] sample dense_norm_output_2
           dense_norm_called_2 H1 H2).
Defined.

(** X11 on the Dense wrapper. *)
Lemma norm_initialization_completes_witness :
  @build api [2; 1] (__init__ dense_layer false) = (Ok tt, dense_norm_built)
  /\ kernel_attribute (is_rnn dense_norm_built) (layer dense_norm_built)
     = Some kernel_2
  /\ tf.well_formed kernel_2
  /\ tf.last_dim (shape kernel_2) = Ok 1
  /\ 0 < 1
  /\ exists kernel w1,
      @call api sample dense_norm_built
      = (of_layer (@layer_call api (layer w1) sample), w1)
      /\ _initialized w1 = Some true
      /\ g w1 = Some (tf.norm kernel_2 (seq 0 (tf.rank kernel_2 - 1)))
      /\ tf.mul (tf.l2_normalize kernel_2 (seq 0 (tf.rank kernel_2 - 1)))
                (tf.norm kernel_2 (seq 0 (tf.rank kernel_2 - 1)))
         = Ok kernel
      /\ kernel_attribute (is_rnn w1) (layer w1) = Some kernel
      /\ assign_trace w1
         = [AssignG (tf.norm kernel_2 (seq 0 (tf.rank kernel_2 - 1)));
            AssignInitialized true].
Proof.
  assert (H1 : @build api [2; 1] (__init__ dense_layer false)
               = (Ok tt, dense_norm_built)) by run.
  assert (H2 : kernel_attribute (is_rnn dense_norm_built)
                                (layer dense_norm_built) = Some kernel_2)
    by run.
  assert (H3 : tf.well_formed kernel_2) by reflexivity.
  assert (H4 : tf.last_dim (shape kernel_2) = Ok 1) by reflexivity.
  assert (H5 : 0 < 1) by lia.
  split; [exact H1|]. split; [exact H2|]. split; [exact H3|].
  split; [exact H4|]. split; [exact H5|].
  exact (@norm_initialization_completes api dense_layer [2; 1]
           dense_norm_built kernel_2 1 sample H1 H2 H3 H4 H5).
Defined.

(** X12 on the output [[2], [6]] of the Dense layer on the batch. *)
Lemma statistics_by_channel_witness :
  tf.last_dim (shape dense_preactivation) = Ok 1
  /\ statistics_mean dense_preactivation
     = mkTensor [1] (map (channel_mean dense_preactivation) (seq 0 1))
  /\ statistics_variance dense_preactivation
     = mkTensor [1] (map (channel_variance dense_preactivation) (seq 0 1)).
Proof.
  assert (H1 : tf.last_dim (shape dense_preactivation) = Ok 1) by run.
  split; [exact H1|].
  exact (statistics_by_channel dense_preactivation 1 H1).
Defined.


(** X14 on the Dense layer of kernel [[1]] and the batch [[1], [3]]. *)
Lemma data_dependent_first_output_witness :
  shape kernel_1 = [1; 1] /\ shape batch = [2; 1] /\ 0 < 2
  /\ @build (Layers.API tf.ones) [2; 1] (__init__ (linear_layer kernel_1 1) true)
     = (Ok tt, unit_data_built)
  /\ tf.matmul batch kernel_1 = Ok unit_preactivation
  /\ @call (Layers.API tf.ones) batch unit_data_built
     = (Ok unit_data_output, unit_data_called)
  /\ shape unit_data_output = [2; 1]
  /\ forall j, j < 1 ->
       let mu := channel_mean unit_preactivation j in
       let var := channel_variance unit_preactivation j in
       (forall i, i < 2 ->
          tf.get unit_data_output [i; j]
          = ((tf.get unit_preactivation [i; j]
              * / sqrt (Rmax (channel_square_sum kernel_1 j)
                             tf.l2_normalize_epsilon)
              - mu)
             * (1 / sqrt (var + data_init_epsilon)))%R)
       /\ (channel_square_sum kernel_1 j = 1%R ->
           (forall i, i < 2 ->
              tf.get unit_data_output [i; j]
              = ((tf.get unit_preactivation [i; j] - mu)
                 * (1 / sqrt (var + data_init_epsilon)))%R)
           /\ channel_mean unit_data_output j = 0%R
           /\ channel_variance unit_data_output j
              = (var / (var + data_init_epsilon))%R).
Proof.
  assert (H1 : shape kernel_1 = [1; 1]) by reflexivity.
  assert (H2 : shape batch = [2; 1]) by reflexivity.
  assert (H3 : 0 < 2) by lia.
  assert (H4 : @build (Layers.API tf.ones) [2; 1]
                 (__init__ (linear_layer kernel_1 1) true)
               = (Ok tt, unit_data_built)) by run.
  assert (H5 : tf.matmul batch kernel_1 = Ok unit_preactivation) by run.
  assert (H6 : @call (Layers.API tf.ones) batch unit_data_built
               = (Ok unit_data_output, unit_data_called)) by run.
  split; [exact H1|]. split; [exact H2|]. split; [exact H3|].
  split; [exact H4|]. split; [exact H5|]. split; [exact H6|].
  exact (data_dependent_first_output kernel_1 1 1 [2; 1] unit_data_built
           batch 2 unit_preactivation unit_data_output unit_data_called
           H1 H2 H3 H4 H5 H6).
Defined.

(** X15 on the Dense wrapper, removed before its first forward call. *)
Lemma forward_call_after_remove_witness :
  @call api sample dense_norm_built
  = (Ok dense_norm_output, dense_norm_called)
  /\ fst (@call api sample (snd (remove dense_norm_built)))
     = fst (@call api sample dense_norm_built)
  /\ @call api sample (snd (remove dense_norm_built))
     = (Ok dense_norm_output, dense_norm_called).
Proof.
  assert (H1 : @call api sample dense_norm_built
               = (Ok dense_norm_output, dense_norm_called)) by run.
  destruct (@forward_call_after_remove api sample dense_norm_built)
    as [Ha Hb].
  split; [exact H1|]. split; [exact Ha|].
  exact (Hb dense_norm_output dense_norm_called H1).
Defined.
